(** * edge-next: the request middleware stack

    A shallow embedding of the rate limiter ([lib/api/rate-limit.ts]), the
    KV cache client ([lib/cache/client.ts]), the error taxonomy
    ([lib/errors/index.ts]), the response helpers ([lib/api/response.ts]),
    the middleware composition ([lib/api/middleware.ts]), the database
    wrapper ([lib/db/client.ts], [lib/api/database.ts]), the level filter
    of the logger and the rate-limit route, with the properties the
    specification states about them and further ones the code shows.

    Conventions of the embedding.
    - JavaScript numbers that the modelled code handles (request counts,
      epoch milliseconds, HTTP status codes) are integers of [Z].
    - Every [Date.now()] reading is an explicit argument of the function
      that performs it.
    - A string is a sequence of characters with codes below 256 (U+0000
      to U+00FF), which is what a header value is; [toLowerCase] and
      [trim] are the built-ins of JavaScript on such strings. Text with
      other characters is outside the embedding.
    - Asynchronous functions are computations of the monad [M]: they thread
      the process world (environment bindings and KV content), may throw,
      and emit console lines and analytics events.
    - A text stored in the KV namespace is kept as what [JSON.parse] makes
      of it ([KVText]); the KV namespace itself, [Headers] and
      [NextResponse] are the platform's and are modelled by their
      documented behaviour. *)

From stdpp Require Import base option gmap strings list pretty.
From Stdlib Require Import ZArith Lia Ascii.

Local Open Scope Z_scope.
Local Set Warnings "-register-all".

(** ** JavaScript values and string built-ins *)

Module Js.

(** The values the modelled code passes around as [unknown]: error
    payloads, JSON bodies, thrown non-errors. [VError] is a native [Error]
    object that is not an [AppError]. *)
Inductive Value : Type :=
  | VUndefined
  | VNull
  | VBool (b : bool)
  | VNum (n : Z)
  | VStr (s : string)
  | VError (name message : string) (stack : option string)
  | VObject (fields : list (string * Value)).

(** [if (v)] *)
Definition truthy (v : Value) : bool :=
  match v with
  | VUndefined | VNull => false
  | VBool b => b
  | VNum n => negb (n =? 0)
  | VStr s => negb (String.eqb s "")
  | VError _ _ _ | VObject _ => true
  end.

(** [if (s)] for a string *)
Definition nonempty (s : string) : bool := negb (String.eqb s "").

(** [o.k] on a plain object; [None] is [undefined] *)
Fixpoint assoc (k : string) (fields : list (string * Value)) : option Value :=
  match fields with
  | [] => None
  | (k', v) :: rest => if String.eqb k k' then Some v else assoc k rest
  end.

Definition field (k : string) (v : Value) : option Value :=
  match v with
  | VObject fields => assoc k fields
  | _ => None
  end.

(** The lower case of a character below U+0100: of the letters [A] to
    [Z], and of U+00C0 to U+00DE without the multiplication sign U+00D7. *)
Definition lower_char (c : Ascii.ascii) : Ascii.ascii :=
  let n := Ascii.N_of_ascii c in
  if (((65 <=? n) && (n <=? 90))
      || ((192 <=? n) && (n <=? 222) && negb (n =? 215)))%N
  then Ascii.ascii_of_N (n + 32) else c.

(** [s.toLowerCase()] *)
Fixpoint toLowerCase (s : string) : string :=
  match s with
  | EmptyString => EmptyString
  | String c rest => String (lower_char c) (toLowerCase rest)
  end.

(** [s.includes(sub)] *)
Fixpoint includes (s sub : string) : bool :=
  String.prefix sub s ||
  match s with
  | EmptyString => false
  | String _ rest => includes rest sub
  end.

(** [s.startsWith(p)] *)
Definition startsWith (s p : string) : bool := String.prefix p s.

(** The white space and line terminators of ECMAScript below U+0100:
    TAB, LF, VT, FF, CR, the space and the no-break space U+00A0. *)
Definition is_space (c : Ascii.ascii) : bool :=
  let n := Ascii.N_of_ascii c in
  ((n =? 32) || ((9 <=? n) && (n <=? 13)) || (n =? 160))%N.

Fixpoint trimStart (s : string) : string :=
  match s with
  | EmptyString => EmptyString
  | String c rest => if is_space c then trimStart rest else s
  end.

Fixpoint trimEnd (s : string) : string :=
  match s with
  | EmptyString => EmptyString
  | String c rest =>
      match trimEnd rest with
      | EmptyString => if is_space c then EmptyString else String c EmptyString
      | rest' => String c rest'
      end
  end.

(** [s.trim()] *)
Definition trim (s : string) : string := trimEnd (trimStart s).

(** [s.split(',')[0]]: the text before the first comma *)
Fixpoint split_comma_head (s : string) : string :=
  match s with
  | EmptyString => EmptyString
  | String c rest =>
      if Ascii.eqb c ","%char then EmptyString else String c (split_comma_head rest)
  end.

(** [String(n)] for an integer *)
Definition String_of (n : Z) : string := pretty n.

(** [Math.floor(a / b)] and [Math.ceil(a / b)] for integers, [b > 0] *)
Definition floor_div (a b : Z) : Z := a / b.
Definition ceil_div (a b : Z) : Z := - ((- a) / b).

End Js.

Import Js.

(** ** lib/errors/index.ts *)

Module Errors.

Inductive ErrorType : Type :=
  | DATABASE_ERROR | DATABASE_CONNECTION_ERROR | DATABASE_QUERY_ERROR
  | DATABASE_CONSTRAINT_ERROR
  | FILE_ERROR | FILE_NOT_FOUND | FILE_UPLOAD_ERROR | FILE_DOWNLOAD_ERROR
  | FILE_SIZE_EXCEEDED
  | CONVERSION_ERROR | JSON_PARSE_ERROR | TYPE_CONVERSION_ERROR
  | VALIDATION_ERROR | INVALID_INPUT | MISSING_REQUIRED_FIELD
  | AUTHENTICATION_ERROR | AUTHORIZATION_ERROR | TOKEN_EXPIRED
  | INVALID_CREDENTIALS
  | RESOURCE_NOT_FOUND | RESOURCE_ALREADY_EXISTS
  | BUSINESS_LOGIC_ERROR
  | EXTERNAL_SERVICE_ERROR | API_ERROR | NETWORK_ERROR
  | RATE_LIMIT_ERROR
  | INTERNAL_SERVER_ERROR | UNKNOWN_ERROR.

(** The string each enum member stands for. *)
Definition ErrorType_text (t : ErrorType) : string :=
  match t with
  | DATABASE_ERROR => "DATABASE_ERROR"
  | DATABASE_CONNECTION_ERROR => "DATABASE_CONNECTION_ERROR"
  | DATABASE_QUERY_ERROR => "DATABASE_QUERY_ERROR"
  | DATABASE_CONSTRAINT_ERROR => "DATABASE_CONSTRAINT_ERROR"
  | FILE_ERROR => "FILE_ERROR"
  | FILE_NOT_FOUND => "FILE_NOT_FOUND"
  | FILE_UPLOAD_ERROR => "FILE_UPLOAD_ERROR"
  | FILE_DOWNLOAD_ERROR => "FILE_DOWNLOAD_ERROR"
  | FILE_SIZE_EXCEEDED => "FILE_SIZE_EXCEEDED"
  | CONVERSION_ERROR => "CONVERSION_ERROR"
  | JSON_PARSE_ERROR => "JSON_PARSE_ERROR"
  | TYPE_CONVERSION_ERROR => "TYPE_CONVERSION_ERROR"
  | VALIDATION_ERROR => "VALIDATION_ERROR"
  | INVALID_INPUT => "INVALID_INPUT"
  | MISSING_REQUIRED_FIELD => "MISSING_REQUIRED_FIELD"
  | AUTHENTICATION_ERROR => "AUTHENTICATION_ERROR"
  | AUTHORIZATION_ERROR => "AUTHORIZATION_ERROR"
  | TOKEN_EXPIRED => "TOKEN_EXPIRED"
  | INVALID_CREDENTIALS => "INVALID_CREDENTIALS"
  | RESOURCE_NOT_FOUND => "RESOURCE_NOT_FOUND"
  | RESOURCE_ALREADY_EXISTS => "RESOURCE_ALREADY_EXISTS"
  | BUSINESS_LOGIC_ERROR => "BUSINESS_LOGIC_ERROR"
  | EXTERNAL_SERVICE_ERROR => "EXTERNAL_SERVICE_ERROR"
  | API_ERROR => "API_ERROR"
  | NETWORK_ERROR => "NETWORK_ERROR"
  | RATE_LIMIT_ERROR => "RATE_LIMIT_ERROR"
  | INTERNAL_SERVER_ERROR => "INTERNAL_SERVER_ERROR"
  | UNKNOWN_ERROR => "UNKNOWN_ERROR"
  end.

Definition ERROR_STATUS_MAP (t : ErrorType) : Z :=
  match t with
  | DATABASE_ERROR => 500
  | DATABASE_CONNECTION_ERROR => 503
  | DATABASE_QUERY_ERROR => 500
  | DATABASE_CONSTRAINT_ERROR => 409
  | FILE_ERROR => 500
  | FILE_NOT_FOUND => 404
  | FILE_UPLOAD_ERROR => 500
  | FILE_DOWNLOAD_ERROR => 500
  | FILE_SIZE_EXCEEDED => 413
  | CONVERSION_ERROR => 400
  | JSON_PARSE_ERROR => 400
  | TYPE_CONVERSION_ERROR => 400
  | VALIDATION_ERROR => 400
  | INVALID_INPUT => 400
  | MISSING_REQUIRED_FIELD => 400
  | AUTHENTICATION_ERROR => 401
  | AUTHORIZATION_ERROR => 403
  | TOKEN_EXPIRED => 401
  | INVALID_CREDENTIALS => 401
  | RESOURCE_NOT_FOUND => 404
  | RESOURCE_ALREADY_EXISTS => 409
  | BUSINESS_LOGIC_ERROR => 400
  | EXTERNAL_SERVICE_ERROR => 502
  | API_ERROR => 502
  | NETWORK_ERROR => 503
  | RATE_LIMIT_ERROR => 429
  | INTERNAL_SERVER_ERROR => 500
  | UNKNOWN_ERROR => 500
  end.

(** An instance of [AppError] or of one of its subclasses. [name] is the
    constructor's name, [stack] the trace [Error.captureStackTrace]
    recorded, [details] is [VUndefined] when none was given. *)
Record AppError : Type := mkAppError {
  name : string;
  message : string;
  type : ErrorType;
  statusCode : Z;
  isOperational : bool;
  details : Value;
  stack : string;
}.

(** A thrown value: [error instanceof AppError] holds of [ThrownApp] only,
    [error instanceof Error] of [ThrownApp] and of [ThrownValue (VError ..)]. *)
Inductive Thrown : Type :=
  | ThrownApp (e : AppError)
  | ThrownValue (v : Value).

(** The [AppError] constructor, called as [super(...)] by the subclass
    [cls]; [trace] is the stack the platform captures at construction.
    [statusCode || ERROR_STATUS_MAP[type]]: a missing or zero status falls
    back to the table. *)
Definition new_AppError (cls : string) (trace : string) (msg : string)
    (ty : ErrorType) (status : option Z) (operational : bool)
    (dets : Value) : AppError :=
  {| name := cls;
     message := msg;
     type := ty;
     statusCode :=
       match status with
       | Some n => if n =? 0 then ERROR_STATUS_MAP ty else n
       | None => ERROR_STATUS_MAP ty
       end;
     isOperational := operational;
     details := dets;
     stack := trace |}.

Definition DatabaseError (trace msg : string) (dets : Value) : AppError :=
  new_AppError "DatabaseError" trace msg DATABASE_ERROR (Some 500) true dets.

Definition DatabaseConnectionError (trace msg : string) (dets : Value) : AppError :=
  new_AppError "DatabaseConnectionError" trace msg DATABASE_CONNECTION_ERROR
    (Some 503) true dets.

Definition FileError (trace msg : string) (ty : ErrorType) (dets : Value) : AppError :=
  new_AppError "FileError" trace msg ty (Some (ERROR_STATUS_MAP ty)) true dets.

Definition ConversionError (cls trace msg : string) (ty : ErrorType)
    (dets : Value) : AppError :=
  new_AppError cls trace msg ty (Some (ERROR_STATUS_MAP ty)) true dets.

Definition JSONParseError (trace msg : string) (dets : Value) : AppError :=
  ConversionError "JSONParseError" trace msg JSON_PARSE_ERROR dets.

Definition ValidationError (trace msg : string) (dets : Value) : AppError :=
  new_AppError "ValidationError" trace msg VALIDATION_ERROR (Some 400) true dets.

Definition ResourceNotFoundError (trace resource : string) (dets : Value) : AppError :=
  new_AppError "ResourceNotFoundError" trace (resource +:+ " not found")
    RESOURCE_NOT_FOUND (Some 404) true dets.

Definition NetworkError (trace msg : string) (dets : Value) : AppError :=
  new_AppError "NetworkError" trace msg NETWORK_ERROR (Some 503) true dets.

Definition TooManyRequestsError (trace msg : string) (dets : Value) : AppError :=
  new_AppError "TooManyRequestsError" trace msg RATE_LIMIT_ERROR (Some 429) true dets.

Definition InternalServerError (trace msg : string) (dets : Value) : AppError :=
  new_AppError "InternalServerError" trace msg INTERNAL_SERVER_ERROR (Some 500)
    true dets.

Definition isOperationalError (error : Thrown) : bool :=
  match error with
  | ThrownApp e => isOperational e
  | ThrownValue _ => false
  end.

(** [createAppErrorFromNative(error)]; [trace] is the stack captured by the
    error object it may construct. *)
Definition createAppErrorFromNative (trace : string) (error : Thrown) : AppError :=
  match error with
  | ThrownApp e => e
  | ThrownValue (VError _ msg _ as native) =>
      let lowered := toLowerCase msg in
      if includes lowered "database" || includes lowered "sql" then
        DatabaseError trace msg native
      else if includes lowered "network" || includes lowered "fetch" then
        NetworkError trace msg native
      else if includes lowered "json" || includes lowered "parse" then
        JSONParseError trace msg native
      else if includes lowered "file" || includes lowered "upload" then
        FileError trace msg FILE_ERROR native
      else InternalServerError trace msg native
  | ThrownValue other => InternalServerError trace "An unexpected error occurred" other
  end.

End Errors.

Import Errors.

(** ** The process world and the monad of asynchronous code *)

Module Runtime.

(** The text stored under a KV key, by what [JSON.parse] makes of it.
    [TextRecord c f] is any JSON text other than [null]; [c] and [f] are
    its [count] and [firstRequestTime] properties, [None] when the value
    has no such property. A property that is present holds an integer, as
    in every record the limiter writes; a text whose [count] or
    [firstRequestTime] is anything else (a fraction, a string) is outside
    the embedding. *)
Inductive KVText : Type :=
  | TextEmpty
  | TextMalformed
  | TextNull
  | TextRecord (count firstRequestTime : option Z).

Record KVEntry : Type := mkKVEntry {
  value : KVText;
  expirationTtl : option Z;
}.

(** The platform's KV namespace: its content, and whether its [get] and
    [put] currently reject. An entry keeps the TTL it was written with;
    dropping an expired entry is a step of the platform, not of the code. *)
Record KVNamespace : Type := mkKVNamespace {
  entries : gmap string KVEntry;
  get_fails : bool;
  put_fails : bool;
}.

(** [process.env]. [DB] and [KV] tell whether the bindings are defined. A
    numeric variable that is set holds the decimal text of an integer;
    unset or empty is [None]. *)
Record ProcessEnv : Type := mkProcessEnv {
  NODE_ENV : option string;
  RATE_LIMIT_ENABLED : option string;
  RATE_LIMIT_MAX_REQUESTS : option Z;
  RATE_LIMIT_WINDOW_SECONDS : option Z;
  DB : bool;
  KV : bool;
}.

Record World : Type := mkWorld {
  env : ProcessEnv;
  kv : KVNamespace;
}.

Inductive Channel : Type :=
  | console_warn | console_error
  | logger_info | logger_http | logger_error
  | analytics_event.

Record Output : Type := mkOutput {
  channel : Channel;
  text : string;
}.

Inductive Outcome (A : Type) : Type :=
  | Returned (a : A)
  | Threw (e : Thrown).
Arguments Returned {A} a.
Arguments Threw {A} e.

Record Run (A : Type) : Type := mkRun {
  outcome : Outcome A;
  world : World;
  output : list Output;
}.
Arguments mkRun {A} _ _ _.
Arguments outcome {A} _.
Arguments world {A} _.
Arguments output {A} _.

Definition M (A : Type) : Type := World → Run A.

Definition ret {A} (a : A) : M A := λ w, mkRun (Returned a) w [].

(** The run [r], after the lines [o] were emitted. *)
Definition after {A} (o : list Output) (r : Run A) : Run A :=
  mkRun (outcome r) (world r) (o ++ output r).

Definition bind {A B} (m : M A) (k : A → M B) : M B := λ w,
  let r := m w in
  match outcome r with
  | Returned a => after (output r) (k a (world r))
  | Threw e => mkRun (Threw e) (world r) (output r)
  end.

#[export] Instance M_ret : MRet M := @ret.
#[export] Instance M_bind : MBind M := λ A B k m, bind m k.

Definition throw {A} (e : Thrown) : M A := λ w, mkRun (Threw e) w [].

(** [try { body } catch (error) { handler }] *)
Definition try_catch {A} (body : M A) (handler : Thrown → M A) : M A := λ w,
  let r := body w in
  match outcome r with
  | Returned a => r
  | Threw e => after (output r) (handler e (world r))
  end.

Definition emit (c : Channel) (msg : string) : M unit := λ w,
  mkRun (Returned tt) w [mkOutput c msg].

Definition process_env : M ProcessEnv := λ w, mkRun (Returned (env w)) w [].

(** [kv.get(key, 'text')] *)
Definition KV_get (key : string) : M (option KVText) := λ w,
  if get_fails (kv w)
  then mkRun (Threw (ThrownValue (VError "Error" "KV get failed" None))) w []
  else mkRun (Returned (value <$> entries (kv w) !! key)) w [].

(** [kv.put(key, value, { expirationTtl })] *)
Definition KV_put (key : string) (v : KVText) (ttl : option Z) : M unit := λ w,
  if put_fails (kv w)
  then mkRun (Threw (ThrownValue (VError "Error" "KV put failed" None))) w []
  else
    mkRun (Returned tt)
      (mkWorld (env w)
         (mkKVNamespace (<[key := mkKVEntry v ttl]> (entries (kv w)))
            (get_fails (kv w)) (put_fails (kv w))))
      [].

(** What [JSON.parse] returns. *)
Inductive Parsed : Type :=
  | ParsedNull
  | ParsedObject (count firstRequestTime : option Z).

Definition JSON_parse (t : KVText) : M Parsed :=
  match t with
  | TextEmpty | TextMalformed =>
      throw (ThrownValue (VError "SyntaxError" "Unexpected token" None))
  | TextNull => ret ParsedNull
  | TextRecord c f => ret (ParsedObject c f)
  end.

(** [JSON.stringify({ count, firstRequestTime })] *)
Definition JSON_stringify (count firstRequestTime : Z) : KVText :=
  TextRecord (Some count) (Some firstRequestTime).

Definition null_property : Thrown :=
  ThrownValue (VError "TypeError" "Cannot read properties of null" None).

(** [parsed.count] and [parsed.firstRequestTime] *)
Definition get_count (p : Parsed) : M (option Z) :=
  match p with
  | ParsedNull => throw null_property
  | ParsedObject c _ => ret c
  end.

Definition get_firstRequestTime (p : Parsed) : M (option Z) :=
  match p with
  | ParsedNull => throw null_property
  | ParsedObject _ f => ret f
  end.

(** [v || d] for a numeric property [v] *)
Definition or_else (v : option Z) (d : Z) : Z :=
  match v with
  | Some n => if n =? 0 then d else n
  | None => d
  end.

(** [if (currentData)] on a string read from the store *)
Definition text_truthy (t : KVText) : bool :=
  match t with
  | TextEmpty => false
  | _ => true
  end.

End Runtime.

Import Runtime.

(** ** lib/db/client.ts and lib/cache/client.ts *)

Module Cache.

Definition getCloudflareEnv : M (option ProcessEnv) :=
  e ← process_env;
  if DB e then mret (Some e)
  else
    emit console_warn "Cloudflare bindings not available. Running in local mode?";;
    mret None.

(** The handle on the namespace of the world; [None] is [null]. *)
Inductive KVHandle : Type := the_KV.

Definition getKVNamespace : M (option KVHandle) :=
  e ← getCloudflareEnv;
  mret (match e with
        | Some e => if KV e then Some the_KV else None
        | None => None
        end).

Inductive CacheClient : Type := new_CacheClient (kv : KVHandle).

Definition CacheClient_set (this : CacheClient) (key : string) (v : KVText)
    (ttl : option Z) : M unit :=
  try_catch (KV_put key v ttl)
    (λ error, emit console_error "KV set error:").

Definition CacheClient_put (this : CacheClient) (key : string) (v : KVText)
    (ttl : option Z) : M unit :=
  CacheClient_set this key v ttl.

Definition CacheClient_get (this : CacheClient) (key : string) : M (option KVText) :=
  try_catch (KV_get key)
    (λ error, emit console_error "KV get error:";; mret None).

Definition createCacheClient : M (option CacheClient) :=
  kv ← getKVNamespace;
  mret (match kv with
        | None => None
        | Some kv => Some (new_CacheClient kv)
        end).

End Cache.

Import Cache.

(** ** lib/analytics and lib/logger *)

Module Sinks.

(** Modelled from the spec: the analytics sink of [lib/analytics]
    ([analytics.trackRateLimitExceeded], [trackHttpRequest], [trackError]).
    It accepts named events, fire-and-forget: a call records the event and
    does not fail. *)
Definition analytics_track (event : string) : M unit :=
  emit analytics_event event.

Definition trackRateLimitExceeded (clientId path : string) : M unit :=
  analytics_track ("rate_limit_exceeded " +:+ clientId +:+ " " +:+ path).

Definition trackHttpRequest (method path : string) (status : Z) : M unit :=
  analytics_track ("http_request " +:+ method +:+ " " +:+ path).

Definition trackError (name message : string) : M unit :=
  analytics_track ("error " +:+ name +:+ " " +:+ message).

(** The calls on a logger of [lib/logger], as the lines handed to it; the
    level filter and the format are the logger's own. *)
Definition logger_log (c : Channel) (msg : string) : M unit := emit c msg.

End Sinks.

Import Sinks.

(** ** Requests and responses of the framework *)

Module Http.

(** Header names are case-insensitive: a header map is keyed by the
    lower-cased name, as [Headers] keeps it. *)
Record NextRequest : Type := mkNextRequest {
  pathname : string;
  method : string;
  request_headers : gmap string string;
}.

Record NextResponse : Type := mkNextResponse {
  status : Z;
  body : Value;
  headers : gmap string string;
}.

(** [headers.get(name)]; [None] is [null] *)
Definition headers_get (h : gmap string string) (name : string) : option string :=
  h !! toLowerCase name.

(** [response.headers.set(name, v)] *)
Definition headers_set (name v : string) (r : NextResponse) : NextResponse :=
  mkNextResponse (status r) (body r) (<[toLowerCase name := v]> (headers r)).

(** [NextResponse.json(body, { status })] *)
Definition NextResponse_json (b : Value) (st : Z) : NextResponse :=
  mkNextResponse st b {[ "content-type" := "application/json" ]}.

End Http.

Import Http.

(** ** lib/api/response.ts *)

Module Response.

Record ApiError : Type := mkApiError {
  error_type : ErrorType;
  error_message : string;
  error_details : option Value;
  error_stack : option string;
}.

Record ApiErrorResponse : Type := mkApiErrorResponse {
  success : bool;
  error : ApiError;
}.

Definition production (e : ProcessEnv) : bool :=
  match NODE_ENV e with
  | Some v => String.eqb v "production"
  | None => false
  end.

(** [createErrorResponse(error)], under the environment [e] *)
Definition createErrorResponse (e : ProcessEnv) (trace : string) (err : Thrown)
    : ApiErrorResponse :=
  let appError :=
    match err with
    | ThrownApp a => a
    | _ => createAppErrorFromNative trace err
    end in
  let response :=
    mkApiErrorResponse false (mkApiError (type appError) (message appError) None None) in
  if negb (production e) then
    let response :=
      if truthy (details appError)
      then mkApiErrorResponse (success response)
             (mkApiError (error_type (error response)) (error_message (error response))
                (Some (details appError)) (error_stack (error response)))
      else response in
    if nonempty (stack appError)
    then mkApiErrorResponse (success response)
           (mkApiError (error_type (error response)) (error_message (error response))
              (error_details (error response)) (Some (stack appError)))
    else response
  else response.

Definition optional (k : string) (v : option Value) : list (string * Value) :=
  match v with
  | Some v => [(k, v)]
  | None => []
  end.

(** The object an [ApiErrorResponse] is, as handed to [NextResponse.json]. *)
Definition ApiErrorResponse_json (r : ApiErrorResponse) : Value :=
  VObject
    [ ("success", VBool (success r));
      ("error",
        VObject
          ([ ("type", VStr (ErrorType_text (error_type (error r))));
             ("message", VStr (error_message (error r))) ]
           ++ optional "details" (error_details (error r))
           ++ optional "stack" (VStr <$> error_stack (error r)))) ].

(** [createSuccessResponse(data, message, meta)] as an object *)
Definition createSuccessResponse (data : Value) (msg : option string)
    (meta : option Value) : Value :=
  VObject
    ([ ("success", VBool true); ("data", data) ]
     ++ match msg with
        | Some m => if nonempty m then [("message", VStr m)] else []
        | None => []
        end
     ++ match meta with
        | Some m => if truthy m then [("meta", m)] else []
        | None => []
        end).

(** [successResponse(data, message, statusCode, meta)] *)
Definition successResponse (data : Value) (msg : option string) (statusCode : Z)
    (meta : option Value) : NextResponse :=
  NextResponse_json (createSuccessResponse data msg meta) statusCode.

(** [errorResponse(error, statusCode)] *)
Definition errorResponse (trace : string) (err : Thrown) (statusCode : option Z)
    : M NextResponse :=
  e ← process_env;
  let appError :=
    match err with
    | ThrownApp a => a
    | _ => createAppErrorFromNative trace err
    end in
  let response := createErrorResponse e trace (ThrownApp appError) in
  let st := or_else statusCode (Errors.statusCode appError) in
  logger_log logger_error ("API Error: " +:+ message appError);;
  mret (NextResponse_json (ApiErrorResponse_json response) st).

(** An [async] function with the body [body]: its call returns the
    promise of the body and does not throw; what the body throws rejects
    the promise. *)
Definition async {A} (body : M A) : M (M A) := mret body.

(** [withApiHandler(handler)]:
    [handler().then(successResponse).catch(errorResponse)]. The call
    [handler()] returns the promise or throws; it is made before the chain
    exists, so what it throws is thrown by [withApiHandler]. *)
Definition withApiHandler (trace : string) (handler : M (M Value)) : M NextResponse :=
  promise ← handler;
  try_catch (data ← promise; mret (successResponse data None 200 None))
    (λ err, errorResponse trace err None).

End Response.

Import Response.

(** ** lib/api/rate-limit.ts *)

Module RateLimit.

Record RateLimitConfig : Type := mkRateLimitConfig {
  maxRequests : Z;
  windowSeconds : Z;
  keyPrefix : option string;
  skipPaths : option (list string);
}.

(** [Partial<RateLimitConfig>]: [None] for a property that is not given. *)
Record PartialConfig : Type := mkPartialConfig {
  custom_maxRequests : option Z;
  custom_windowSeconds : option Z;
  custom_keyPrefix : option string;
  custom_skipPaths : option (list string);
}.

Record RateLimitStatus : Type := mkRateLimitStatus {
  allowed : bool;
  remaining : Z;
  resetAt : Z;
  limit : Z;
}.

Definition DEFAULT_CONFIG : RateLimitConfig :=
  mkRateLimitConfig 300 60 (Some "rate-limit") (Some ["/api/health"]).

Definition getRateLimitConfig : M RateLimitConfig :=
  e ← process_env;
  mret (mkRateLimitConfig
          (match RATE_LIMIT_MAX_REQUESTS e with
           | Some n => n
           | None => maxRequests DEFAULT_CONFIG
           end)
          (match RATE_LIMIT_WINDOW_SECONDS e with
           | Some n => n
           | None => windowSeconds DEFAULT_CONFIG
           end)
          (keyPrefix DEFAULT_CONFIG)
          (skipPaths DEFAULT_CONFIG)).

Definition isRateLimitEnabled : M bool :=
  e ← process_env;
  mret (match RATE_LIMIT_ENABLED e with
        | Some v => negb (String.eqb v "false")
        | None => true
        end).

(** [{ ...base, ...customConfig }] *)
Definition merge (base : RateLimitConfig) (custom : option PartialConfig)
    : RateLimitConfig :=
  match custom with
  | None => base
  | Some c =>
      mkRateLimitConfig
        (default (maxRequests base) (custom_maxRequests c))
        (default (windowSeconds base) (custom_windowSeconds c))
        (match custom_keyPrefix c with Some p => Some p | None => keyPrefix base end)
        (match custom_skipPaths c with Some p => Some p | None => skipPaths base end)
  end.

(** [if (h)] on a header read with [headers.get]: present and not empty *)
Definition present (h : option string) : option string :=
  match h with
  | Some v => if nonempty v then Some v else None
  | None => None
  end.

Definition getClientIdentifier (request : NextRequest) : string :=
  match present (headers_get (request_headers request) "CF-Connecting-IP") with
  | Some cfIp => cfIp
  | None =>
      match present (headers_get (request_headers request) "X-Forwarded-For") with
      | Some forwarded => trim (split_comma_head forwarded)
      | None =>
          match present (headers_get (request_headers request) "X-Real-IP") with
          | Some realIp => realIp
          | None =>
              let ua :=
                default "unknown"
                  (present (headers_get (request_headers request) "User-Agent")) in
              "ua-" +:+ String.substring 0 50 ua
          end
      end
  end.

(** [`${config.keyPrefix}:${clientId}`] *)
Definition rate_key (config : RateLimitConfig) (clientId : string) : string :=
  default "undefined" (keyPrefix config) +:+ ":" +:+ clientId.

(** The status of every fail-open branch. *)
Definition open_status (config : RateLimitConfig) (reset : Z) : RateLimitStatus :=
  mkRateLimitStatus true (maxRequests config) reset (maxRequests config).

(** [checkRateLimit(clientId, config)], with [now] the reading of
    [Date.now()] *)
Definition checkRateLimit (now : Z) (clientId : string) (config : RateLimitConfig)
    : M RateLimitStatus :=
  cache ← createCacheClient;
  match cache with
  | None =>
      emit console_warn "KV not available, skipping rate limit";;
      mret (open_status config (now + windowSeconds config * 1000))
  | Some cache =>
      let key := rate_key config clientId in
      let windowMs := windowSeconds config * 1000 in
      let resetAt := now + windowMs in
      try_catch
        (currentData ← CacheClient_get cache key;
         '(count, firstRequestTime) ←
           match currentData with
           | Some data =>
               if text_truthy data then
                 try_catch
                   (parsed ← JSON_parse data;
                    c ← get_count parsed;
                    f ← get_firstRequestTime parsed;
                    mret (or_else c 0, or_else f now))
                   (λ _, mret (0, now))
               else mret (0, now)
           | None => mret (0, now)
           end;
         let '(count, firstRequestTime) :=
           if now - firstRequestTime >? windowMs
           then (0, now)
           else (count, firstRequestTime) in
         if count >=? maxRequests config then
           mret (mkRateLimitStatus false 0 (firstRequestTime + windowMs)
                   (maxRequests config))
         else
           let count := count + 1 in
           CacheClient_put cache key (JSON_stringify count firstRequestTime)
             (Some (windowSeconds config));;
           mret (mkRateLimitStatus true (maxRequests config - count)
                   (firstRequestTime + windowMs) (maxRequests config)))
        (λ error,
           emit console_error "Rate limit check error:";;
           mret (open_status config resetAt))
  end.

Definition addRateLimitHeaders (response : NextResponse) (st : RateLimitStatus)
    : NextResponse :=
  headers_set "X-RateLimit-Reset" (String_of (floor_div (resetAt st) 1000))
    (headers_set "X-RateLimit-Remaining" (String_of (remaining st))
       (headers_set "X-RateLimit-Limit" (String_of (limit st)) response)).

(** The body of the 429 response. *)
Definition rejection_body (st : RateLimitStatus) (retryAfter : Z) : Value :=
  VObject
    [ ("success", VBool false);
      ("error",
        VObject
          [ ("type", VStr "RATE_LIMIT_ERROR");
            ("message", VStr "Too many requests, please try again later");
            ("details",
              VObject
                [ ("limit", VNum (limit st));
                  ("resetAt", VNum (resetAt st));
                  ("retryAfter", VNum retryAfter) ]) ]) ].

(** [withRateLimit(request, handler, customConfig)]; [now] is the clock
    reading of the check, [later] the one taken when a rejection computes
    [retryAfter]. *)
Definition withRateLimit (now later : Z) (request : NextRequest)
    (handler : M NextResponse) (customConfig : option PartialConfig)
    : M NextResponse :=
  enabled ← isRateLimitEnabled;
  if negb enabled then handler
  else
    base ← getRateLimitConfig;
    let config := merge base customConfig in
    if match skipPaths config with
       | Some paths => existsb (λ path, startsWith (pathname request) path) paths
       | None => false
       end
    then handler
    else
      let clientId := getClientIdentifier request in
      st ← checkRateLimit now clientId config;
      if negb (allowed st) then
        let retryAfter := ceil_div (resetAt st - later) 1000 in
        let response := NextResponse_json (rejection_body st retryAfter) 429 in
        let response := headers_set "Retry-After" (String_of retryAfter) response in
        trackRateLimitExceeded clientId (pathname request);;
        mret (addRateLimitHeaders response st)
      else
        response ← handler;
        mret (addRateLimitHeaders response st).

(** [getRateLimitStatus(request, customConfig)] *)
Definition getRateLimitStatus (now : Z) (request : NextRequest)
    (customConfig : option PartialConfig) : M RateLimitStatus :=
  base ← getRateLimitConfig;
  let config := merge base customConfig in
  let clientId := getClientIdentifier request in
  cache ← createCacheClient;
  match cache with
  | None => mret (open_status config (now + windowSeconds config * 1000))
  | Some cache =>
      let key := rate_key config clientId in
      let windowMs := windowSeconds config * 1000 in
      try_catch
        (currentData ← CacheClient_get cache key;
         match currentData with
         | Some data =>
             if text_truthy data then
               parsed ← JSON_parse data;
               c ← get_count parsed;
               f ← get_firstRequestTime parsed;
               let count := or_else c 0 in
               let firstRequestTime := or_else f now in
               if now - firstRequestTime >? windowMs then
                 mret (open_status config (now + windowMs))
               else
                 mret (mkRateLimitStatus (count <? maxRequests config)
                         (Z.max 0 (maxRequests config - count))
                         (firstRequestTime + windowMs) (maxRequests config))
             else mret (open_status config (now + windowMs))
         | None => mret (open_status config (now + windowMs))
         end)
        (λ error,
           emit console_error "Get rate limit status error:";;
           mret (open_status config (now + windowMs)))
  end.

End RateLimit.

Import RateLimit.

(** ** lib/api/middleware.ts *)

Module Middleware.

(** The identifiers [generateRequestId], [generateTraceId] and
    [generateSpanId] draw for one request. *)
Record RequestTrace : Type := mkRequestTrace {
  requestId : string;
  traceId : string;
  spanId : string;
}.

Definition getClientIp (request : NextRequest) : option string :=
  match present (headers_get (request_headers request) "CF-Connecting-IP") with
  | Some cfIp => Some cfIp
  | None =>
      match present (headers_get (request_headers request) "X-Forwarded-For") with
      | Some forwarded => Some (trim (split_comma_head forwarded))
      | None => present (headers_get (request_headers request) "X-Real-IP")
      end
  end.

(** [withRequestLogging(request, handler)]; [startTime] and [endTime] are
    the two readings of [Date.now()]. *)
(** [(error as Error).name || 'Error'] and
    [(error as Error).message || 'Unknown error']; reading a property of
    [null] or [undefined] throws. *)
Definition text_or (v : option Value) (d : string) : string :=
  match v with
  | Some (VStr s) => if nonempty s then s else d
  | _ => d
  end.

Definition read_name (error : Thrown) : M string :=
  match error with
  | ThrownApp e => mret (text_or (Some (VStr (name e))) "Error")
  | ThrownValue (VError n _ _) => mret (text_or (Some (VStr n)) "Error")
  | ThrownValue VNull | ThrownValue VUndefined => throw null_property
  | ThrownValue v => mret (text_or (field "name" v) "Error")
  end.

Definition read_message (error : Thrown) : M string :=
  match error with
  | ThrownApp e => mret (text_or (Some (VStr (message e))) "Unknown error")
  | ThrownValue (VError _ m _) => mret (text_or (Some (VStr m)) "Unknown error")
  | ThrownValue VNull | ThrownValue VUndefined => throw null_property
  | ThrownValue v => mret (text_or (field "message" v) "Unknown error")
  end.

Definition withRequestLogging (ids : RequestTrace) (startTime endTime : Z)
    (request : NextRequest) (handler : M NextResponse) : M NextResponse :=
  let ip := getClientIp request in
  logger_log logger_info
    ("Incoming request " +:+ method request +:+ " " +:+ pathname request);;
  try_catch
    (response ← handler;
     let duration := endTime - startTime in
     logger_log logger_http
       (method request +:+ " " +:+ pathname request +:+ " "
        +:+ String_of (status response));;
     trackHttpRequest (method request) (pathname request) (status response);;
     mret (headers_set "X-Response-Time" (String_of duration +:+ "ms")
             (headers_set "X-Span-ID" (spanId ids)
                (headers_set "X-Trace-ID" (traceId ids)
                   (headers_set "X-Request-ID" (requestId ids) response)))))
    (λ error,
       logger_log logger_error "Request failed";;
       n ← read_name error;
       m ← read_message error;
       trackError n m;;
       throw error).

(** [withErrorHandling(handler)]:
    [try { return await handler(); } catch (error) { throw error; }] *)
Definition withErrorHandling (handler : M NextResponse) : M NextResponse :=
  try_catch handler (λ error, throw error).

Definition withMiddleware (ids : RequestTrace) (startTime endTime : Z)
    (request : NextRequest) (handler : M NextResponse) : M NextResponse :=
  withRequestLogging ids startTime endTime request (withErrorHandling handler).

End Middleware.

Import Middleware.

(** ** lib/errors/index.ts: the other error classes *)

Module ErrorClasses.

Definition DatabaseQueryError (trace msg : string) (dets : Value) : AppError :=
  new_AppError "DatabaseQueryError" trace msg DATABASE_QUERY_ERROR (Some 500) true dets.

Definition DatabaseConstraintError (trace msg : string) (dets : Value) : AppError :=
  new_AppError "DatabaseConstraintError" trace msg DATABASE_CONSTRAINT_ERROR
    (Some 409) true dets.

(** A subclass [cls] of [FileError]: [super(message, type, details)] *)
Definition FileError_as (cls trace msg : string) (ty : ErrorType) (dets : Value)
    : AppError :=
  new_AppError cls trace msg ty (Some (ERROR_STATUS_MAP ty)) true dets.

Definition FileNotFoundError (trace msg : string) (dets : Value) : AppError :=
  FileError_as "FileNotFoundError" trace msg FILE_NOT_FOUND dets.

Definition FileUploadError (trace msg : string) (dets : Value) : AppError :=
  FileError_as "FileUploadError" trace msg FILE_UPLOAD_ERROR dets.

Definition FileDownloadError (trace msg : string) (dets : Value) : AppError :=
  FileError_as "FileDownloadError" trace msg FILE_DOWNLOAD_ERROR dets.

Definition FileSizeExceededError (trace msg : string) (dets : Value) : AppError :=
  FileError_as "FileSizeExceededError" trace msg FILE_SIZE_EXCEEDED dets.

Definition TypeConversionError (trace msg : string) (dets : Value) : AppError :=
  ConversionError "TypeConversionError" trace msg TYPE_CONVERSION_ERROR dets.

Definition InvalidInputError (trace msg : string) (dets : Value) : AppError :=
  new_AppError "InvalidInputError" trace msg INVALID_INPUT (Some 400) true dets.

Definition MissingRequiredFieldError (trace field : string) (dets : Value)
    : AppError :=
  new_AppError "MissingRequiredFieldError" trace
    ("Missing required field: " +:+ field) MISSING_REQUIRED_FIELD (Some 400) true dets.

Definition AuthenticationError (trace msg : string) (dets : Value) : AppError :=
  new_AppError "AuthenticationError" trace msg AUTHENTICATION_ERROR (Some 401)
    true dets.

Definition AuthorizationError (trace msg : string) (dets : Value) : AppError :=
  new_AppError "AuthorizationError" trace msg AUTHORIZATION_ERROR (Some 403)
    true dets.

Definition TokenExpiredError (trace msg : string) (dets : Value) : AppError :=
  new_AppError "TokenExpiredError" trace msg TOKEN_EXPIRED (Some 401) true dets.

Definition InvalidCredentialsError (trace msg : string) (dets : Value) : AppError :=
  new_AppError "InvalidCredentialsError" trace msg INVALID_CREDENTIALS (Some 401)
    true dets.

Definition ResourceAlreadyExistsError (trace resource : string) (dets : Value)
    : AppError :=
  new_AppError "ResourceAlreadyExistsError" trace (resource +:+ " already exists")
    RESOURCE_ALREADY_EXISTS (Some 409) true dets.

Definition BusinessLogicError (trace msg : string) (dets : Value) : AppError :=
  new_AppError "BusinessLogicError" trace msg BUSINESS_LOGIC_ERROR (Some 400)
    true dets.

Definition ExternalServiceError (trace msg : string) (dets : Value) : AppError :=
  new_AppError "ExternalServiceError" trace msg EXTERNAL_SERVICE_ERROR (Some 502)
    true dets.

Definition APIError (trace msg : string) (dets : Value) : AppError :=
  new_AppError "APIError" trace msg API_ERROR (Some 502) true dets.

(** The subclasses of [AppError] the module exports. [FileError] and
    [ConversionError] take the error type as an argument. *)
Inductive ErrorClass : Type :=
  | class_DatabaseError | class_DatabaseConnectionError
  | class_DatabaseQueryError | class_DatabaseConstraintError
  | class_FileError (ty : ErrorType)
  | class_FileNotFoundError | class_FileUploadError | class_FileDownloadError
  | class_FileSizeExceededError
  | class_ConversionError (ty : ErrorType)
  | class_JSONParseError | class_TypeConversionError
  | class_ValidationError | class_InvalidInputError
  | class_MissingRequiredFieldError
  | class_AuthenticationError | class_AuthorizationError
  | class_TokenExpiredError | class_InvalidCredentialsError
  | class_ResourceNotFoundError | class_ResourceAlreadyExistsError
  | class_BusinessLogicError
  | class_ExternalServiceError | class_APIError | class_NetworkError
  | class_TooManyRequestsError
  | class_InternalServerError.

(** [new cls(arg, details)], [arg] being the message, or the field or the
    resource the message is made of. *)
Definition construct (cls : ErrorClass) (trace arg : string) (dets : Value)
    : AppError :=
  match cls with
  | class_DatabaseError => DatabaseError trace arg dets
  | class_DatabaseConnectionError => DatabaseConnectionError trace arg dets
  | class_DatabaseQueryError => DatabaseQueryError trace arg dets
  | class_DatabaseConstraintError => DatabaseConstraintError trace arg dets
  | class_FileError ty => FileError trace arg ty dets
  | class_FileNotFoundError => FileNotFoundError trace arg dets
  | class_FileUploadError => FileUploadError trace arg dets
  | class_FileDownloadError => FileDownloadError trace arg dets
  | class_FileSizeExceededError => FileSizeExceededError trace arg dets
  | class_ConversionError ty => ConversionError "ConversionError" trace arg ty dets
  | class_JSONParseError => JSONParseError trace arg dets
  | class_TypeConversionError => TypeConversionError trace arg dets
  | class_ValidationError => ValidationError trace arg dets
  | class_InvalidInputError => InvalidInputError trace arg dets
  | class_MissingRequiredFieldError => MissingRequiredFieldError trace arg dets
  | class_AuthenticationError => AuthenticationError trace arg dets
  | class_AuthorizationError => AuthorizationError trace arg dets
  | class_TokenExpiredError => TokenExpiredError trace arg dets
  | class_InvalidCredentialsError => InvalidCredentialsError trace arg dets
  | class_ResourceNotFoundError => ResourceNotFoundError trace arg dets
  | class_ResourceAlreadyExistsError => ResourceAlreadyExistsError trace arg dets
  | class_BusinessLogicError => BusinessLogicError trace arg dets
  | class_ExternalServiceError => ExternalServiceError trace arg dets
  | class_APIError => APIError trace arg dets
  | class_NetworkError => NetworkError trace arg dets
  | class_TooManyRequestsError => TooManyRequestsError trace arg dets
  | class_InternalServerError => InternalServerError trace arg dets
  end.

End ErrorClasses.

Import ErrorClasses.

(** ** lib/api/response.ts: the response helpers *)

Module Helpers.

(** [new AppError(message, type, statusCode, true, details)] *)
Definition AppError_of (trace msg : string) (ty : ErrorType) (status : option Z)
    (dets : Value) : AppError :=
  new_AppError "AppError" trace msg ty status true dets.

(** [paginatedResponse(data, page, limit, total, message)] *)
Definition paginatedResponse (data : Value) (page limit total : Z)
    (msg : option string) : NextResponse :=
  successResponse data msg 200
    (Some (VObject
             [ ("page", VNum page);
               ("limit", VNum limit);
               ("total", VNum total);
               ("totalPages", VNum (ceil_div total limit));
               ("hasNext", VBool (page * limit <? total));
               ("hasPrev", VBool (page >? 1)) ])).

Definition createdResponse (data : Value) (msg : option string) : NextResponse :=
  successResponse data msg 201 None.

(** [new NextResponse(null, { status: 204 })] *)
Definition noContentResponse : NextResponse := mkNextResponse 204 VNull ∅.

Definition notFoundResponse (trace : string) (msg : option string) : M NextResponse :=
  errorResponse trace
    (ThrownApp (AppError_of trace (default "Resource not found" msg)
                  RESOURCE_NOT_FOUND None VUndefined))
    (Some 404).

Definition validationErrorResponse (trace msg : string) (dets : Value)
    : M NextResponse :=
  errorResponse trace
    (ThrownApp (AppError_of trace msg VALIDATION_ERROR (Some 400) dets))
    (Some 400).

Definition unauthorizedResponse (trace : string) (msg : option string)
    : M NextResponse :=
  errorResponse trace
    (ThrownApp (AppError_of trace (default "Unauthorized" msg)
                  AUTHENTICATION_ERROR None VUndefined))
    (Some 401).

Definition forbiddenResponse (trace : string) (msg : option string)
    : M NextResponse :=
  errorResponse trace
    (ThrownApp (AppError_of trace (default "Forbidden" msg)
                  AUTHORIZATION_ERROR None VUndefined))
    (Some 403).

Definition serviceUnavailableResponse (trace : string) (msg : option string)
    : M NextResponse :=
  errorResponse trace
    (ThrownApp (AppError_of trace (default "Service unavailable" msg)
                  EXTERNAL_SERVICE_ERROR (Some 503) VUndefined))
    (Some 503).

End Helpers.

Import Helpers.

(** ** lib/cache/client.ts: [delete] and [withCache] *)

Module CacheWrapper.

(** [kv.delete(key)]; [rejects] tells whether the namespace rejects this
    call. *)
Definition KV_delete (rejects : bool) (key : string) : M unit := λ w,
  if rejects
  then mkRun (Threw (ThrownValue (VError "Error" "KV delete failed" None))) w []
  else
    mkRun (Returned tt)
      (mkWorld (env w)
         (mkKVNamespace (delete key (entries (kv w)))
            (get_fails (kv w)) (put_fails (kv w))))
      [].

Definition CacheClient_delete (rejects : bool) (this : CacheClient) (key : string)
    : M unit :=
  try_catch (KV_delete rejects key)
    (λ error, emit console_error "KV delete error:").

(** Modelled from the spec: [analytics.trackCacheAccess] of
    [lib/analytics], a call on the sink of named events, which records the
    event and does not fail. *)
Definition trackCacheAccess (key : string) (hit : bool) : M unit :=
  analytics_track ("cache_access " +:+ key +:+ (if hit then " hit" else " miss")).

Section WithCache.

(** The type [T] of the results of [fn]. *)
Context {T : Type}.

(** [JSON.stringify(result)]: the text, or [None] where it returns
    [undefined] (for [undefined] itself, a function, a symbol); it throws
    on a result that cannot be serialised (a [BigInt], a cycle). *)
Variable JSON_stringify_result : T → M (option KVText).

(** [JSON.parse(cached) as T]: the parsed value, taken for a [T]. *)
Variable as_T : Parsed → T.

(** [kv.put(key, undefined, { expirationTtl })]: what the namespace does
    with a value that is no text is the platform's. *)
Variable KV_put_undefined : string → option Z → M unit.

(** [cache.set(key, value, { expirationTtl })] for the value
    [JSON.stringify] returned *)
Definition CacheClient_set_result (this : CacheClient) (key : string)
    (v : option KVText) (ttl : option Z) : M unit :=
  match v with
  | Some text => CacheClient_set this key text ttl
  | None =>
      try_catch (KV_put_undefined key ttl)
        (λ error, emit console_error "KV set error:")
  end.

(** [withCache(key, fn, ttl)]; [ttl] is [None] when the argument is left
    out. The [return] inside the [try] hands [Some] result to the code
    after it. [JSON.stringify(result)] is evaluated before [cache.set] is
    called, outside its [try]. *)
Definition withCache (delete_rejects : bool) (key : string) (fn : M T)
    (ttl : option Z) : M T :=
  cache ← createCacheClient;
  match cache with
  | None => fn
  | Some cache =>
      cached ← CacheClient_get cache key;
      hit ←
        match cached with
        | Some text =>
            if text_truthy text then
              try_catch
                (trackCacheAccess key true;;
                 v ← JSON_parse text;
                 mret (Some (as_T v)))
                (λ _, CacheClient_delete delete_rejects cache key;; mret None)
            else mret None
        | None => mret None
        end;
      match hit with
      | Some v => mret v
      | None =>
          result ← fn;
          text ← JSON_stringify_result result;
          CacheClient_set_result cache key text (Some (default 3600 ttl));;
          trackCacheAccess key false;;
          mret result
      end
  end.

End WithCache.

End CacheWrapper.

Import CacheWrapper.

(** ** lib/db/client.ts, repositories/index.ts and lib/api/database.ts *)

Module Database.

(** A [PrismaClient] object, by the order of its construction in the
    isolate. *)
Inductive PrismaClient : Type := new_PrismaClient (serial : nat).

(** The module state of [lib/db/client.ts]: the variable [prismaClient]
    ([None] is [null]), and how many clients the isolate has constructed. *)
Record Isolate : Type := mkIsolate {
  prismaClient : option PrismaClient;
  constructed : nat;
}.

Inductive D1Database : Type := the_DB.

Definition getDatabase : M (option D1Database) :=
  e ← getCloudflareEnv;
  mret (match e with
        | Some e => if DB e then Some the_DB else None
        | None => None
        end).

(** [createPrismaClient()], from the module state [iso]: the client or
    [null], and the module state it leaves. *)
Definition createPrismaClient (iso : Isolate) : M (option PrismaClient * Isolate) :=
  db ← getDatabase;
  match db with
  | None => mret (None, iso)
  | Some db =>
      match prismaClient iso with
      | Some client => mret (Some client, iso)
      | None =>
          let client := new_PrismaClient (constructed iso) in
          mret (Some client, mkIsolate (Some client) (S (constructed iso)))
      end
  end.

(** [resetPrismaClient()] *)
Definition resetPrismaClient (iso : Isolate) : Isolate :=
  match prismaClient iso with
  | Some _ => mkIsolate None (constructed iso)
  | None => iso
  end.

Inductive RepositoryFactory : Type := new_RepositoryFactory (prisma : PrismaClient).

Definition createRepositories (prisma : PrismaClient) : RepositoryFactory :=
  new_RepositoryFactory prisma.

(** [withRepositories(request, handler)], from the module state [iso];
    [trace] is the stack of the error it may construct. *)
Definition withRepositories (ids : RequestTrace) (startTime endTime : Z)
    (trace : string) (iso : Isolate) (request : NextRequest)
    (handler : RepositoryFactory → M NextResponse) : M NextResponse :=
  withMiddleware ids startTime endTime request
    ('(prisma, _) ← createPrismaClient iso;
     match prisma with
     | None =>
         throw (ThrownApp (DatabaseConnectionError trace "Database not available"
                             VUndefined))
     | Some prisma =>
         let repos := createRepositories prisma in
         handler repos
     end).

End Database.

Import Database.

(** ** lib/logger: levels and the entries a logger writes *)

Module Logging.

Inductive LogLevel : Type := DEBUG | INFO | WARN | ERROR.

Definition LOG_LEVEL_PRIORITY (level : LogLevel) : Z :=
  match level with
  | DEBUG => 0
  | INFO => 1
  | WARN => 2
  | ERROR => 3
  end.

(** The validated [env] of [lib/config/env], as far as the logger reads
    it. *)
Record Env : Type := mkEnv {
  LOG_LEVEL : LogLevel;
  SLOW_QUERY_THRESHOLD_MS : Z;
}.

(** [env.LOG_LEVEL || LogLevel.INFO]: a level is a non-empty string. *)
Definition shouldLog (env : Env) (level : LogLevel) : bool :=
  let configLevel := LOG_LEVEL env in
  LOG_LEVEL_PRIORITY level >=? LOG_LEVEL_PRIORITY configLevel.

(** [LogMetadata] is a map from names to values. *)

(** A [LogEntry] as [http] and [query] make it: without its timestamp,
    and with no error. *)
Record LogEntry : Type := mkLogEntry {
  entry_level : LogLevel;
  entry_message : string;
  entry_context : option string;
  entry_metadata : option (gmap string Value);
}.

Record Logger : Type := new_Logger {
  context : option string;
  defaultMetadata : gmap string Value;
}.

(** [{ ...a, ...b }] *)
Definition spread (a b : gmap string Value) : gmap string Value := b ∪ a.

Definition createLogEntry (this : Logger) (level : LogLevel) (msg : string)
    (metadata : gmap string Value) : LogEntry :=
  let allMetadata := spread (defaultMetadata this) metadata in
  mkLogEntry level msg (context this)
    (if decide (allMetadata = ∅) then None else Some allMetadata).

Inductive Console : Type :=
  | to_console_error | to_console_warn | to_console_info | to_console_debug.

(** The console method [write] hands the entry to. *)
Definition write (entry : LogEntry) : Console :=
  match entry_level entry with
  | ERROR => to_console_error
  | WARN => to_console_warn
  | INFO => to_console_info
  | DEBUG => to_console_debug
  end.

(** [child(context, metadata)] *)
Definition child (this : Logger) (ctx : string) (metadata : gmap string Value) : Logger :=
  let childContext :=
    match context this with
    | Some c => if nonempty c then c +:+ ":" +:+ ctx else ctx
    | None => ctx
    end in
  new_Logger (Some childContext) (spread (defaultMetadata this) metadata).

(** [http(method, path, statusCode, duration, metadata)]: the entry
    written, [None] when the level is filtered out. *)
Definition http (env : Env) (this : Logger) (method path : string)
    (statusCode duration : Z) (metadata : gmap string Value) : option LogEntry :=
  let httpMetadata :=
    spread metadata
      (list_to_map
         [ ("method", VStr method); ("path", VStr path);
           ("statusCode", VNum statusCode); ("duration", VNum duration);
           ("durationMs", VStr (String_of duration +:+ "ms")) ]) in
  let level :=
    if statusCode >=? 500 then ERROR
    else if statusCode >=? 400 then WARN else INFO in
  if negb (shouldLog env level) then None
  else
    let msg := method +:+ " " +:+ path +:+ " " +:+ String_of statusCode +:+ " - "
               +:+ String_of duration +:+ "ms" in
    Some (createLogEntry this level msg httpMetadata).

(** [query(sql, duration, metadata)] *)
Definition query (env : Env) (this : Logger) (sql : string) (duration : Z)
    (metadata : gmap string Value) : option LogEntry :=
  let threshold := or_else (Some (SLOW_QUERY_THRESHOLD_MS env)) 1000 in
  let level := if duration >? threshold then WARN else DEBUG in
  let queryMetadata :=
    spread metadata
      (list_to_map
         [ ("sql", VStr (String.substring 0 200 sql));
           ("duration", VNum duration);
           ("durationMs", VStr (String_of duration +:+ "ms"));
           ("slow", VBool (duration >? threshold)) ]) in
  if negb (shouldLog env level) then None
  else
    let msg :=
      if duration >? threshold
      then "Slow query detected: " +:+ String_of duration +:+ "ms"
      else "Query executed: " +:+ String_of duration +:+ "ms" in
    Some (createLogEntry this level msg queryMetadata).

End Logging.

(** ** app/api/rate-limit/route.ts *)

Module RateLimitRoute.

Fixpoint zeros (k : nat) : string :=
  match k with
  | O => EmptyString
  | S k => String "0"%char (zeros k)
  end.

(** The decimal text of [n], for [0 <= n], with zeros in front up to
    [width] characters. *)
Definition pad (width : nat) (n : Z) : string :=
  let digits := String_of n in
  zeros (width - String.length digits) +:+ digits.

(** The year, month and day of the day [days] after 1970-01-01, in the
    proleptic Gregorian calendar. *)
Definition civil_from_days (days : Z) : Z * Z * Z :=
  let z := days + 719468 in
  let era := z / 146097 in
  let doe := z - era * 146097 in
  let yoe := (doe - doe / 1460 + doe / 36524 - doe / 146096) / 365 in
  let doy := doe - (365 * yoe + yoe / 4 - yoe / 100) in
  let mp := (5 * doy + 2) / 153 in
  let d := doy - (153 * mp + 2) / 5 + 1 in
  let m := if mp <? 10 then mp + 3 else mp - 9 in
  let y := yoe + era * 400 + (if m <=? 2 then 1 else 0) in
  (y, m, d).

(** [new Date(t).toISOString()]: a [RangeError] outside the range of
    ECMAScript time values. *)
Definition Date_toISOString (t : Z) : M string :=
  if (t <? -8640000000000000) || (8640000000000000 <? t) then
    throw (ThrownValue (VError "RangeError" "Invalid time value" None))
  else
    let ms := t mod 86400000 in
    let '(y, m, d) := civil_from_days (t / 86400000) in
    let year :=
      if (0 <=? y) && (y <=? 9999) then pad 4 y
      else (if y <? 0 then "-" else "+") +:+ pad 6 (Z.abs y) in
    mret (year +:+ "-" +:+ pad 2 m +:+ "-" +:+ pad 2 d +:+ "T"
          +:+ pad 2 (ms / 3600000) +:+ ":" +:+ pad 2 (ms / 60000 mod 60) +:+ ":"
          +:+ pad 2 (ms / 1000 mod 60) +:+ "." +:+ pad 3 (ms mod 1000) +:+ "Z").

(** [GET(request)]. [now] and [later] are the clock readings of
    [withRateLimit], [seen] the one of [getRateLimitStatus] and [read] the
    one the handler takes for [resetInSeconds]. *)
Definition GET (now later seen read : Z) (request : NextRequest) : M NextResponse :=
  withRateLimit now later request
    (status ← getRateLimitStatus seen request None;
     resetAtText ← Date_toISOString (resetAt status);
     mret (successResponse
             (VObject
                [ ("rateLimit",
                    VObject
                      [ ("limit", VNum (limit status));
                        ("remaining", VNum (remaining status));
                        ("resetAt", VStr resetAtText);
                        ("resetInSeconds",
                          VNum (ceil_div (resetAt status - read) 1000)) ]);
                  ("message", VStr "Rate limit status retrieved successfully") ])
             (Some "Rate limit info") 200 None))
    None.

End RateLimitRoute.

Import RateLimitRoute.

(** * Vocabulary of the statements *)

Module Reading.

Definition returned {A} (r : Run A) : option A :=
  match outcome r with
  | Returned a => Some a
  | Threw _ => None
  end.

Definition threw {A} (r : Run A) : option Thrown :=
  match outcome r with
  | Returned _ => None
  | Threw e => Some e
  end.

(** A run without the lines it emitted. *)
Definition obs {A} (r : Run A) : Outcome A * World := (outcome r, world r).

(** The class [createAppErrorFromNative] chooses for a native error, read
    off its message. *)
Definition classify (msg : string) : ErrorType :=
  let lowered := toLowerCase msg in
  if includes lowered "database" || includes lowered "sql" then DATABASE_ERROR
  else if includes lowered "network" || includes lowered "fetch" then NETWORK_ERROR
  else if includes lowered "json" || includes lowered "parse" then JSON_PARSE_ERROR
  else if includes lowered "file" || includes lowered "upload" then FILE_ERROR
  else INTERNAL_SERVER_ERROR.

(** The bindings [createCacheClient] needs are defined. *)
Definition available (w : World) : bool := DB (env w) && KV (env w).

(** The text held under [key]. *)
Definition stored (w : World) (key : string) : option KVText :=
  value <$> entries (kv w) !! key.

(** The world after [kv.put(key, v, { expirationTtl: ttl })] went through. *)
Definition written (key : string) (v : KVText) (ttl : option Z) (w : World) : World :=
  mkWorld (env w)
    (mkKVNamespace (<[key := mkKVEntry v ttl]> (entries (kv w)))
       (get_fails (kv w)) (put_fails (kv w))).

(** What the cache client hands to the limiter for [key]: nothing when the
    namespace rejects the read. *)
Definition fetched (w : World) (key : string) : option KVText :=
  if get_fails (kv w) then None else stored w key.

(** The counter [checkRateLimit] holds after reading [data] at [now]. *)
Definition read_counter (now : Z) (data : option KVText) : Z * Z :=
  match data with
  | Some (TextRecord c f) => (or_else c 0, or_else f now)
  | _ => (0, now)
  end.

(** The counter after the test of the window. *)
Definition current_window (now windowMs : Z) (cf : Z * Z) : Z * Z :=
  if now - cf.2 >? windowMs then (0, now) else cf.

Definition counter_at (now : Z) (config : RateLimitConfig) (data : option KVText)
    : Z * Z :=
  current_window now (windowSeconds config * 1000) (read_counter now data).

(** The configuration [getRateLimitConfig] reads from the environment, and
    the one [withRateLimit] and [getRateLimitStatus] work with. *)
Definition env_config (e : ProcessEnv) : RateLimitConfig :=
  mkRateLimitConfig
    (default 300 (RATE_LIMIT_MAX_REQUESTS e))
    (default 60 (RATE_LIMIT_WINDOW_SECONDS e))
    (Some "rate-limit") (Some ["/api/health"]).

Definition effective_config (e : ProcessEnv) (custom : option PartialConfig)
    : RateLimitConfig :=
  merge (env_config e) custom.

(** [withRateLimit] consults the limiter: limiting is enabled and the path
    is not on the skip list. *)
Definition limited (e : ProcessEnv) (custom : option PartialConfig)
    (request : NextRequest) : bool :=
  match RATE_LIMIT_ENABLED e with
  | Some v => negb (String.eqb v "false")
  | None => true
  end
  && negb match skipPaths (effective_config e custom) with
          | Some paths => existsb (λ path, startsWith (pathname request) path) paths
          | None => false
          end.

(** Sequential calls of [checkRateLimit] for one client and one policy, at
    the clock readings [times]. *)
Fixpoint run_checks (times : list Z) (clientId : string) (config : RateLimitConfig)
    (w : World) : list (option RateLimitStatus) * World :=
  match times with
  | [] => ([], w)
  | t :: rest =>
      let r := checkRateLimit t clientId config w in
      let rs := run_checks rest clientId config (world r) in
      (returned r :: rs.1, rs.2)
  end.

(** Sequential calls of [getRateLimitStatus], each with its own clock
    reading, request and overrides. *)
Fixpoint run_status (calls : list (Z * NextRequest * option PartialConfig))
    (w : World) : World :=
  match calls with
  | [] => w
  | (t, request, custom) :: rest =>
      run_status rest (world (getRateLimitStatus t request custom w))
  end.

(** [body.error.details] and [body.error.stack] of a response body *)
Definition body_details (b : Value) : option Value :=
  field "error" b ≫= field "details".

Definition body_stack (b : Value) : option Value :=
  field "error" b ≫= field "stack".

(** The status [checkRateLimit] returns when it holds the counter [cf], and
    the world it leaves: untouched on a rejection or when the write fails. *)
Definition status_of (config : RateLimitConfig) (cf : Z * Z) : RateLimitStatus :=
  if cf.1 >=? maxRequests config
  then mkRateLimitStatus false 0 (cf.2 + windowSeconds config * 1000)
         (maxRequests config)
  else mkRateLimitStatus true (maxRequests config - (cf.1 + 1))
         (cf.2 + windowSeconds config * 1000) (maxRequests config).

Definition world_after (config : RateLimitConfig) (key : string) (cf : Z * Z)
    (w : World) : World :=
  if cf.1 >=? maxRequests config then w
  else if put_fails (kv w) then w
  else written key (JSON_stringify (cf.1 + 1) cf.2) (Some (windowSeconds config)) w.

(** The status [getRateLimitStatus] reports on the text [data] read at
    [now]. *)
Definition status_seen (now : Z) (config : RateLimitConfig) (data : option KVText)
    : RateLimitStatus :=
  match data with
  | Some (TextRecord c f) =>
      let count := or_else c 0 in
      let firstRequestTime := or_else f now in
      if now - firstRequestTime >? windowSeconds config * 1000
      then open_status config (now + windowSeconds config * 1000)
      else mkRateLimitStatus (count <? maxRequests config)
             (Z.max 0 (maxRequests config - count))
             (firstRequestTime + windowSeconds config * 1000) (maxRequests config)
  | _ => open_status config (now + windowSeconds config * 1000)
  end.

(** Bindings defined and a namespace that answers. *)
Definition healthy (w : World) : Prop :=
  available w = true ∧ get_fails (kv w) = false ∧ put_fails (kv w) = false.

(** The 429 response [withRateLimit] builds for the rejected status [st],
    [later] being the clock when it does. *)
Definition rejection_response (st : RateLimitStatus) (later : Z) : NextResponse :=
  let retryAfter := ceil_div (resetAt st - later) 1000 in
  addRateLimitHeaders
    (headers_set "Retry-After" (String_of retryAfter)
       (NextResponse_json (rejection_body st retryAfter) 429))
    st.

(** The store holds, under [key], the count [c] of a window opened at
    [t1] or later: no record yet and [c = 0], or a record of the limiter
    (a zero [firstRequestTime] is read as the current time). *)
Definition counting (key : string) (t1 c : Z) (w : World) : Prop :=
  (stored w key = None ∧ c = 0) ∨
  (∃ f, stored w key = Some (TextRecord (Some c) (Some f)) ∧ (f = 0 ∨ t1 ≤ f)).

(** [RATE_LIMIT_ENABLED] is not set to ['false']. *)
Definition enabled (w : World) : Prop :=
  RATE_LIMIT_ENABLED (env w) ≠ Some "false".

End Reading.

Import Reading.


(** * Concrete worlds *)

Module Scenario.

(** The policy [{ maxRequests: 3, windowSeconds: 60 }] and the overrides
    that select it. *)
Definition policy : RateLimitConfig :=
  mkRateLimitConfig 3 60 (Some "rate-limit") (Some ["/api/health"]).

Definition overrides : PartialConfig :=
  mkPartialConfig (Some 3) (Some 60) None None.

Definition client : string := "1.2.3.4".

(** An edge process with both bindings, run under [NODE_ENV = mode]. *)
Definition edge_env (mode : string) : ProcessEnv :=
  mkProcessEnv (Some mode) None None None true true.

Definition empty_kv : KVNamespace := mkKVNamespace ∅ false false.

(** No record yet. *)
Definition fresh : World := mkWorld (edge_env "development") empty_kv.

(** The client has used its three requests in the window opened at
    [first]. *)
Definition exhausted_kv (first : Z) : KVNamespace :=
  mkKVNamespace
    {[ "rate-limit:1.2.3.4" := mkKVEntry (TextRecord (Some 3) (Some first)) (Some 60) ]}
    false false.

Definition exhausted (mode : string) (first : Z) : World :=
  mkWorld (edge_env mode) (exhausted_kv first).

(** The same store, with reads that reject. *)
Definition unreadable : World :=
  mkWorld (edge_env "production")
    (mkKVNamespace (entries (exhausted_kv 1000)) true false).

(** The same store, with writes that reject, and a first request on
    record. *)
Definition unwritable : World :=
  mkWorld (edge_env "production")
    (mkKVNamespace
       {[ "rate-limit:1.2.3.4" := mkKVEntry (TextRecord (Some 1) (Some 1000)) (Some 60) ]}
       false true).

(** No Cloudflare bindings: local mode. *)
Definition unbound : World :=
  mkWorld (mkProcessEnv (Some "development") None None None false false)
    (exhausted_kv 1000).

Definition request : NextRequest :=
  mkNextRequest "/api/posts" "GET" {[ "cf-connecting-ip" := "1.2.3.4" ]}.

(** A request with no address header and an empty [User-Agent]. *)
Definition anonymous : NextRequest :=
  mkNextRequest "/api/posts" "GET" {[ "user-agent" := "" ]}.

Definition browser : NextRequest :=
  mkNextRequest "/api/posts" "GET" {[ "user-agent" := "Mozilla/5.0" ]}.

Definition ok : NextResponse := successResponse (VStr "ok") None 200 None.

Definition handler : M NextResponse := mret ok.

(** The error the posts route throws on a malformed id. *)
Definition invalid_id : AppError :=
  ValidationError "at GET" "Invalid post ID" VUndefined.

Definition failing : M NextResponse := throw (ThrownApp invalid_id).

(** [withRateLimit] under [policy], for the client of [request]. *)
Definition call (h : M NextResponse) (t later : Z) (w : World) : Run NextResponse :=
  withRateLimit t later request h (Some overrides) w.

(** Four calls, one a second, on a clock that reads 0 at the first. *)
Definition zero_1 : Run NextResponse := call handler 0 0 fresh.
Definition zero_2 : Run NextResponse := call handler 1000 1000 (world zero_1).
Definition zero_3 : Run NextResponse := call handler 2000 2000 (world zero_2).
Definition zero_4 : Run NextResponse := call handler 3000 3000 (world zero_3).

End Scenario.

(** * Vocabulary of the further statements *)

Module Terms.

(** The record under [key] is absent, or one the limiter wrote under
    [config]: an integer count from 1 to [maxRequests] and an integer
    [firstRequestTime]. *)
Definition counted (config : RateLimitConfig) (key : string) (w : World) : Prop :=
  match stored w key with
  | None => True
  | Some (TextRecord (Some c) (Some f)) => 1 ≤ c ≤ maxRequests config
  | Some _ => False
  end.

(** [c] occurs in [s]. *)
Fixpoint occurs (c : Ascii.ascii) (s : string) : bool :=
  match s with
  | EmptyString => false
  | String c' rest => Ascii.eqb c c' || occurs c rest
  end.

Definition first_char (s : string) : option Ascii.ascii :=
  match s with
  | EmptyString => None
  | String c _ => Some c
  end.

Fixpoint last_char (s : string) : option Ascii.ascii :=
  match s with
  | EmptyString => None
  | String c rest =>
      match last_char rest with
      | None => Some c
      | Some c' => Some c'
      end
  end.

(** [s] neither starts nor ends with white space. *)
Definition trimmed (s : string) : Prop :=
  (∀ c, first_char s = Some c → is_space c = false) ∧
  (∀ c, last_char s = Some c → is_space c = false).

(** [r] is an error response with status [st], whose body names the error
    type [ty] and carries the message [m]. *)
Definition error_reply (r : NextResponse) (st : Z) (ty : ErrorType) (m : string)
    : Prop :=
  status r = st ∧
  field "success" (body r) = Some (VBool false) ∧
  field "error" (body r) ≫= field "type" = Some (VStr (ErrorType_text ty)) ∧
  field "error" (body r) ≫= field "message" = Some (VStr m).

(** The response [withRequestLogging] hands back for [response], after
    [duration] milliseconds. *)
Definition traced (ids : RequestTrace) (duration : Z) (response : NextResponse)
    : NextResponse :=
  headers_set "X-Response-Time" (String_of duration +:+ "ms")
    (headers_set "X-Span-ID" (spanId ids)
       (headers_set "X-Trace-ID" (traceId ids)
          (headers_set "X-Request-ID" (requestId ids) response))).

(** [meta.k] of a success body *)
Definition meta_field (k : string) (r : NextResponse) : option Value :=
  field "meta" (body r) ≫= field k.

(** The value [withCache] finds under [key]: the one a readable entry
    with JSON in it denotes. *)
Definition cache_hit (w : World) (key : string) : option Parsed :=
  match fetched w key with
  | Some TextNull => Some ParsedNull
  | Some (TextRecord c f) => Some (ParsedObject c f)
  | _ => None
  end.


(** The JSON text of a parsed value. *)
Definition JSON_of (v : Parsed) : KVText :=
  match v with
  | ParsedNull => TextNull
  | ParsedObject c f => TextRecord c f
  end.

(** The world after [kv.delete(key)] went through. *)
Definition removed (key : string) (w : World) : World :=
  mkWorld (env w)
    (mkKVNamespace (delete key (entries (kv w)))
       (get_fails (kv w)) (put_fails (kv w))).

(** The world in which [withCache] runs [fn] when it has a client and no
    value: an entry that is no JSON has been deleted, unless the
    namespace rejected that. *)
Definition before_fn (delete_rejects : bool) (key : string) (w : World) : World :=
  match fetched w key with
  | Some TextMalformed => if delete_rejects then w else removed key w
  | _ => w
  end.


(** The cached client of the isolate is one it has constructed. *)
Definition consistent (iso : Isolate) : Prop :=
  match prismaClient iso with
  | Some (new_PrismaClient serial) => (serial < constructed iso)%nat
  | None => True
  end.

(** [entry.metadata.k] of a log entry *)
Definition logged (k : string) (entry : Logging.LogEntry) : option Value :=
  Logging.entry_metadata entry ≫= (λ m, m !! k).

(** The answer of [GET /api/rate-limit] for the status [st], with [text]
    the ISO form of [resetAt] and [read] the handler's clock reading. *)
Definition answer_of (st : RateLimitStatus) (text : string) (read : Z) : NextResponse :=
  successResponse
    (VObject
       [ ("rateLimit",
           VObject
             [ ("limit", VNum (limit st));
               ("remaining", VNum (remaining st));
               ("resetAt", VStr text);
               ("resetInSeconds", VNum (ceil_div (resetAt st - read) 1000)) ]);
         ("message", VStr "Rate limit status retrieved successfully") ])
    (Some "Rate limit info") 200 None.

(** [data.rateLimit.k] of the body of a response *)
Definition reported (k : string) (r : NextResponse) : option Value :=
  (field "data" (body r) ≫= field "rateLimit") ≫= field k.

End Terms.

Import Terms.

(** * Further concrete inputs *)

Module Cases.

(** A request relayed by two proxies. *)
Definition proxied : NextRequest :=
  mkNextRequest "/api/posts" "GET"
    {[ "x-forwarded-for" := " 10.0.0.7 , 172.16.0.1";
       "x-real-ip" := "172.16.0.1" ]}.

(** A request for the health check. *)
Definition health : NextRequest := mkNextRequest "/api/health/live" "GET" ∅.

(** [withCache] for results that are parsed JSON values: [JSON.stringify]
    gives their text, and a namespace that takes any value. *)
Definition cached_json (delete_rejects : bool) (key : string) (fn : M Parsed)
    (ttl : option Z) : M Parsed :=
  withCache (λ v, mret (Some (JSON_of v))) id (λ _ _, mret tt)
    delete_rejects key fn ttl.

(** [withCache] for a result with a [BigInt] in it, at which
    [JSON.stringify] throws. *)
Definition cached_bigint (key : string) : M unit :=
  withCache
    (λ _, throw (ThrownValue
                   (VError "TypeError" "Do not know how to serialize a BigInt" None)))
    (λ _, tt) (λ _ _, mret tt) false key (mret tt) None.

End Cases.

(** * Properties *)

(** ** Reading runs *)

Lemma run_eta {A} (r : Run A) : mkRun (outcome r) (world r) (output r) = r.
Proof. by destruct r. Qed.

Lemma world_eta (w : World) : mkWorld (env w) (kv w) = w.
Proof. by destruct w. Qed.

Lemma kv_eta (k : KVNamespace) :
  mkKVNamespace (entries k) (get_fails k) (put_fails k) = k.
Proof. by destruct k. Qed.

(** ** Error normalisation *)

Section Normalisation.

Variable trace : string.

Lemma normalise_app (e : AppError) :
  createAppErrorFromNative trace (ThrownApp e) = e.
Proof. reflexivity. Qed.

Lemma normalise_native (n msg : string) (st : option string) :
  let e := createAppErrorFromNative trace (ThrownValue (VError n msg st)) in
  type e = classify msg ∧
  statusCode e = ERROR_STATUS_MAP (classify msg) ∧
  message e = msg ∧
  isOperational e = true ∧
  details e = VError n msg st ∧
  stack e = trace.
Proof.
  unfold classify; cbn.
  repeat (match goal with |- context [if ?b then _ else _] => destruct b end);
    cbn; by repeat split.
Qed.

End Normalisation.

(** C8. [createAppErrorFromNative] returns an [AppError] as it is, so the
    status and the type it reports are the error's own and a second
    normalisation changes nothing; on a native error its type, status,
    message and operational flag are functions of the message alone, and
    the error is kept whole as [details]; the native error with message
    ["ECONNREFUSED database"] becomes a [DATABASE_ERROR] with status 500. *)
Theorem createAppErrorFromNative_idempotent :
  (∀ trace (e : AppError),
     createAppErrorFromNative trace (ThrownApp e) = e ∧
     statusCode (createAppErrorFromNative trace (ThrownApp e)) = statusCode e ∧
     type (createAppErrorFromNative trace (ThrownApp e)) = type e) ∧
  (∀ trace trace' (x : Thrown),
     createAppErrorFromNative trace'
       (ThrownApp (createAppErrorFromNative trace x))
     = createAppErrorFromNative trace x) ∧
  (∀ trace n n' msg st st',
     let a := createAppErrorFromNative trace (ThrownValue (VError n msg st)) in
     let b := createAppErrorFromNative trace (ThrownValue (VError n' msg st')) in
     type a = type b ∧ statusCode a = statusCode b ∧ message a = message b ∧
     isOperational a = isOperational b ∧ name a = name b ∧
     statusCode a = ERROR_STATUS_MAP (type a) ∧
     details a = VError n msg st) ∧
  (∀ trace n st,
     let a := createAppErrorFromNative trace
                (ThrownValue (VError n "ECONNREFUSED database" st)) in
     type a = DATABASE_ERROR ∧ statusCode a = 500 ∧
     message a = "ECONNREFUSED database").
Proof.
  split; [|split; [|split]].
  - intros trace e. by rewrite normalise_app.
  - intros trace trace' x. apply normalise_app.
  - intros trace n n' msg st st' a b.
    destruct (normalise_native trace n msg st) as (Ht & Hs & Hm & Ho & Hd & _).
    destruct (normalise_native trace n' msg st') as (Ht' & Hs' & Hm' & Ho' & _).
    fold a in Ht, Hs, Hm, Ho, Hd. fold b in Ht', Hs', Hm', Ho'.
    repeat split; try congruence.
    subst a b; cbn.
    repeat (match goal with |- context [if ?c then _ else _] => destruct c end);
      reflexivity.
  - intros trace n st. vm_compute. auto.
Qed.

(** ** Runs of the monad *)

Lemma obs_after {A} (o : list Output) (r : Run A) : obs (after o r) = obs r.
Proof. reflexivity. Qed.

Lemma obs_bind {A B} (m : M A) (k : A → M B) (w : World) :
  obs ((m ≫= k) w) =
  match outcome (m w) with
  | Returned a => obs (k a (world (m w)))
  | Threw e => (Threw e, world (m w))
  end.
Proof.
  unfold mbind, M_bind, bind, obs; cbn beta zeta.
  destruct (outcome (m w)) eqn:E; cbn [after outcome world]; congruence.
Qed.

Lemma obs_try_catch {A} (body : M A) (h : Thrown → M A) (w : World) :
  obs (try_catch body h w) =
  match outcome (body w) with
  | Returned a => (Returned a, world (body w))
  | Threw e => obs (h e (world (body w)))
  end.
Proof.
  unfold try_catch, obs; cbn beta zeta.
  destruct (outcome (body w)) eqn:E; cbn [after outcome world]; congruence.
Qed.

Lemma obs_mret {A} (a : A) (w : World) : obs ((mret a : M A) w) = (Returned a, w).
Proof. reflexivity. Qed.

Lemma obs_returned {A} (r : Run A) a w :
  obs r = (Returned a, w) → returned r = Some a ∧ world r = w.
Proof. unfold obs, returned. intros [= -> ->]. auto. Qed.

Lemma obs_outcome {A} (r : Run A) : outcome r = (obs r).1.
Proof. reflexivity. Qed.

Lemma obs_world {A} (r : Run A) : world r = (obs r).2.
Proof. reflexivity. Qed.

(** ** The cache client *)

Lemma createCacheClient_run (w : World) :
  obs (createCacheClient w) =
  (Returned (if available w then Some (new_CacheClient the_KV) else None), w).
Proof.
  destruct w as [[ne rle rmax rws [|] [|]] k]; reflexivity.
Qed.

Lemma CacheClient_get_run (c : CacheClient) (key : string) (w : World) :
  obs (CacheClient_get c key w) = (Returned (fetched w key), w).
Proof.
  unfold CacheClient_get, try_catch, KV_get, fetched, stored.
  destruct (get_fails (kv w)); reflexivity.
Qed.

Lemma CacheClient_put_run (c : CacheClient) (key : string) (v : KVText)
    (ttl : option Z) (w : World) :
  obs (CacheClient_put c key v ttl w) =
  (Returned tt, if put_fails (kv w) then w else written key v ttl w).
Proof.
  unfold CacheClient_put, CacheClient_set, try_catch, KV_put, written.
  destruct (put_fails (kv w)); reflexivity.
Qed.

Lemma read_counter_run (now : Z) (data : option KVText) (w : World) :
  obs (match data with
       | Some data =>
           if text_truthy data then
             try_catch
               (parsed ← JSON_parse data;
                c ← get_count parsed;
                f ← get_firstRequestTime parsed;
                mret (or_else c 0, or_else f now))
               (λ _, mret (0, now))
           else mret (0, now)
       | None => mret (0, now)
       end w)
  = (Returned (read_counter now data), w).
Proof. destruct data as [[| | |c f]|]; reflexivity. Qed.

(** ** The limiter, step by step *)

Section CheckRateLimit.

Context (now : Z) (clientId : string) (config : RateLimitConfig).

Lemma checkRateLimit_closed (w : World) :
  available w = false →
  obs (checkRateLimit now clientId config w)
  = (Returned (open_status config (now + windowSeconds config * 1000)), w).
Proof.
  intros Hav. unfold checkRateLimit.
  rewrite obs_bind, obs_outcome, obs_world, createCacheClient_run, Hav.
  reflexivity.
Qed.

Lemma checkRateLimit_run (w : World) :
  available w = true →
  let key := rate_key config clientId in
  let cf := counter_at now config (fetched w key) in
  obs (checkRateLimit now clientId config w)
  = (Returned (status_of config cf), world_after config key cf w).
Proof.
  intros Hav key cf. unfold checkRateLimit.
  rewrite obs_bind, obs_outcome, obs_world, createCacheClient_run, Hav.
  cbn [fst snd].
  match goal with
  | |- obs (try_catch ?b _ _) = _ =>
      assert (obs (b w) = (Returned (status_of config cf), world_after config key cf w))
        as Hbody
  end.
  { rewrite obs_bind, obs_outcome, obs_world, CacheClient_get_run. cbn [fst snd].
    rewrite obs_bind, obs_outcome, obs_world, read_counter_run. cbn [fst snd].
    subst cf key. unfold counter_at, current_window, status_of, world_after.
    destruct (read_counter now (fetched w (rate_key config clientId))) as [c f].
    cbn [fst snd].
    destruct (now - f >? windowSeconds config * 1000); cbn [fst snd].
    - destruct (0 >=? maxRequests config); [reflexivity|].
      rewrite obs_bind, obs_outcome, obs_world, CacheClient_put_run. reflexivity.
    - destruct (c >=? maxRequests config); [reflexivity|].
      rewrite obs_bind, obs_outcome, obs_world, CacheClient_put_run. reflexivity. }
  rewrite obs_try_catch, obs_outcome, obs_world, Hbody. reflexivity.
Qed.

End CheckRateLimit.

(** ** The status query, step by step *)

Lemma getRateLimitConfig_run (w : World) :
  obs (getRateLimitConfig w) = (Returned (env_config (env w)), w).
Proof.
  destruct w as [[ne rle [rmax|] [rws|] db kvb] k]; reflexivity.
Qed.

Lemma isRateLimitEnabled_run (w : World) :
  obs (isRateLimitEnabled w)
  = (Returned match RATE_LIMIT_ENABLED (env w) with
              | Some v => negb (String.eqb v "false")
              | None => true
              end, w).
Proof. reflexivity. Qed.

Lemma getRateLimitStatus_run (now : Z) (request : NextRequest)
    (custom : option PartialConfig) (w : World) :
  let config := effective_config (env w) custom in
  let key := rate_key config (getClientIdentifier request) in
  obs (getRateLimitStatus now request custom w)
  = (Returned (if available w
               then status_seen now config (fetched w key)
               else open_status config (now + windowSeconds config * 1000)), w).
Proof.
  intros config key. unfold getRateLimitStatus.
  rewrite obs_bind, obs_outcome, obs_world, getRateLimitConfig_run. cbn [fst snd].
  fold (effective_config (env w) custom). fold config.
  rewrite obs_bind, obs_outcome, obs_world, createCacheClient_run. cbn [fst snd].
  destruct (available w); [|reflexivity].
  fold key.
  rewrite obs_try_catch, !obs_outcome, !obs_world, !obs_bind.
  rewrite !obs_outcome, !obs_world, !CacheClient_get_run. cbn [fst snd].
  unfold status_seen.
  destruct (fetched w key) as [[| | |c f]|]; try reflexivity.
  cbn [text_truthy].
  unfold JSON_parse, get_count, get_firstRequestTime, mbind, M_bind, bind, mret,
    M_ret, ret, obs, after.
  cbn [outcome world output fst snd].
  destruct (now - or_else f now >? windowSeconds config * 1000); reflexivity.
Qed.

(** ** Counters read from the store *)

Lemma or_else_zero (c : Z) : or_else (Some c) 0 = c.
Proof. unfold or_else. destruct (Z.eqb_spec c 0); congruence. Qed.

Lemma or_else_some (f d : Z) : f ≠ 0 → or_else (Some f) d = f.
Proof. unfold or_else. destruct (Z.eqb_spec f 0); congruence. Qed.

Lemma gtb_false (a b : Z) : a ≤ b → (a >? b) = false.
Proof. intros. rewrite Z.gtb_ltb. apply Z.ltb_ge. lia. Qed.

Lemma gtb_true (a b : Z) : b < a → (a >? b) = true.
Proof. intros. rewrite Z.gtb_ltb. apply Z.ltb_lt. lia. Qed.

Lemma geb_false (a b : Z) : a < b → (a >=? b) = false.
Proof. intros. rewrite Z.geb_leb. apply Z.leb_gt. lia. Qed.

Lemma geb_true (a b : Z) : b ≤ a → (a >=? b) = true.
Proof. intros. rewrite Z.geb_leb. apply Z.leb_le. lia. Qed.

Section Counters.

Context (now : Z) (config : RateLimitConfig).

Let windowMs := windowSeconds config * 1000.

Lemma counter_fresh : 0 ≤ windowMs → counter_at now config None = (0, now).
Proof.
  intros. unfold counter_at, current_window, read_counter; cbn [fst snd].
  rewrite gtb_false; [reflexivity | subst windowMs; lia].
Qed.

Lemma counter_record (c f : Z) :
  f ≠ 0 → now - f ≤ windowMs →
  counter_at now config (Some (TextRecord (Some c) (Some f))) = (c, f).
Proof.
  intros Hf Hw. unfold counter_at, current_window, read_counter; cbn [fst snd].
  rewrite or_else_zero, or_else_some, gtb_false; auto.
Qed.

Lemma counter_record_zero (c : Z) :
  0 ≤ windowMs →
  counter_at now config (Some (TextRecord (Some c) (Some 0))) = (c, now).
Proof.
  intros Hw. unfold counter_at, current_window, read_counter; cbn [fst snd].
  rewrite or_else_zero. cbn [or_else Z.eqb].
  rewrite gtb_false; [reflexivity | subst windowMs; lia].
Qed.

Lemma counter_expired (c : option Z) (f : Z) :
  f ≠ 0 → windowMs < now - f →
  counter_at now config (Some (TextRecord c (Some f))) = (0, now).
Proof.
  intros Hf Hw. unfold counter_at, current_window, read_counter; cbn [fst snd].
  rewrite or_else_some, gtb_true; auto.
Qed.

End Counters.

Lemma fetched_stored (w : World) (key : string) :
  get_fails (kv w) = false → fetched w key = stored w key.
Proof. unfold fetched. by intros ->. Qed.

Lemma stored_written (key : string) (v : KVText) (ttl : option Z) (w : World) :
  stored (written key v ttl w) key = Some v.
Proof. unfold stored, written; cbn [kv entries]. by rewrite lookup_insert_eq. Qed.

Lemma healthy_written (key : string) (v : KVText) (ttl : option Z) (w : World) :
  healthy w → healthy (written key v ttl w).
Proof. unfold healthy, available, written. by destruct w as [e [en gf pf]]. Qed.

(** ** Sequential checks within one window *)

Section Window.

Context (clientId : string) (config : RateLimitConfig) (t1 : Z).

Let key := rate_key config clientId.
Let windowMs := windowSeconds config * 1000.
Let m := maxRequests config.

Lemma counting_counter (c now : Z) (w : World) :
  healthy w → counting key t1 c w → t1 ≤ now ≤ t1 + windowMs →
  ∃ f, counter_at now config (fetched w key) = (c, f) ∧ (f = 0 ∨ t1 ≤ f).
Proof.
  intros (_ & Hg & _) Hc Hn. rewrite fetched_stored by done.
  assert (0 ≤ windowSeconds config * 1000) by (subst windowMs; lia).
  destruct Hc as [[-> ->] | (f & -> & Hf)].
  - exists now. rewrite counter_fresh by done. split; [done | lia].
  - destruct (decide (f = 0)) as [-> | Hne].
    + exists now. rewrite counter_record_zero by done. split; [done | lia].
    + exists f. rewrite counter_record; [done | done |].
      subst windowMs. destruct Hf; [done | lia].
Qed.

Lemma check_in_window (c now : Z) (w : World) :
  healthy w → counting key t1 c w → t1 ≤ now ≤ t1 + windowMs →
  let r := checkRateLimit now clientId config w in
  if decide (c < m) then
    (∃ st, returned r = Some st ∧ allowed st = true ∧ remaining st = m - (c + 1) ∧
           limit st = m) ∧
    healthy (world r) ∧ counting key t1 (c + 1) (world r)
  else
    (∃ st, returned r = Some st ∧ allowed st = false ∧ remaining st = 0 ∧
           limit st = m) ∧
    world r = w.
Proof.
  intros Hh Hc Hn r.
  destruct (counting_counter c now w Hh Hc Hn) as (f & Hcf & Hf).
  destruct Hh as (Hav & Hg & Hp).
  pose proof (checkRateLimit_run now clientId config w Hav) as Hrun.
  cbn zeta in Hrun. fold key in Hrun. rewrite Hcf in Hrun.
  unfold status_of, world_after in Hrun. cbn [fst snd] in Hrun. fold m in Hrun.
  apply obs_returned in Hrun as [Hret Hw]. fold r in Hret, Hw.
  destruct (decide (c < m)) as [Hlt | Hge].
  - rewrite geb_false in Hret, Hw by done. rewrite Hp in Hw.
    split; [eauto 10 |]. rewrite Hw. split.
    + by apply healthy_written.
    + right. exists f. by rewrite stored_written.
  - rewrite geb_true in Hret, Hw by lia. eauto 10.
Qed.

Lemma run_checks_window (times : list Z) :
  ∀ (c : Z) (w : World),
    healthy w → counting key t1 c w →
    Forall (λ t, t1 ≤ t ≤ t1 + windowMs) times →
    ∀ i : nat, (i < length times)%nat →
      ∃ st, (run_checks times clientId config w).1 !! i = Some (Some st) ∧
            limit st = m ∧
            if decide (c + Z.of_nat i < m)
            then allowed st = true ∧ remaining st = m - (c + 1) - Z.of_nat i
            else allowed st = false ∧ remaining st = 0.
Proof.
  induction times as [|t rest IH]; intros c w Hh Hc Hall i Hi; [cbn in Hi; lia|].
  apply Forall_cons in Hall as [Ht Hrest].
  pose proof (check_in_window c t w Hh Hc Ht) as Hstep. cbn zeta in Hstep.
  cbn [run_checks fst snd].
  destruct i as [|i].
  - cbn [lookup list_lookup]. rewrite Z.add_0_r.
    destruct (decide (c < m)).
    + destruct Hstep as ((st & -> & Ha & Hr & Hl) & _). exists st.
      repeat split; auto. lia.
    + destruct Hstep as ((st & -> & Ha & Hr & Hl) & _). exists st. auto.
  - cbn [lookup list_lookup]. cbn [length] in Hi.
    destruct (decide (c < m)) as [Hlt | Hge].
    + destruct Hstep as (_ & Hh' & Hc').
      destruct (IH (c + 1) _ Hh' Hc' Hrest i ltac:(lia)) as (st & Hst & Hl & Hres).
      exists st. split; [exact Hst | split; [exact Hl |]].
      destruct (decide (c + 1 + Z.of_nat i < m)), (decide (c + Z.of_nat (S i) < m));
        try lia; destruct Hres; split; auto; lia.
    + destruct Hstep as (_ & ->).
      destruct (IH c _ Hh Hc Hrest i ltac:(lia)) as (st & Hst & Hl & Hres).
      exists st. split; [exact Hst | split; [exact Hl |]].
      destruct (decide (c + Z.of_nat i < m)), (decide (c + Z.of_nat (S i) < m));
        try lia; auto.
Qed.

End Window.

(** C1. Monotonic admission: for a client without a record, a policy with
    [maxRequests > 0], an available store and [maxRequests + 1] sequential
    calls whose clock readings all lie in the window opened by the first,
    call number [i] (from 0) of the first [maxRequests] is allowed with
    [remaining = maxRequests - 1 - i], and the last call is rejected with
    [remaining = 0]. *)
Theorem monotonic_admission (clientId : string) (config : RateLimitConfig)
    (w : World) (t1 : Z) (times : list Z) :
  healthy w →
  stored w (rate_key config clientId) = None →
  0 < maxRequests config →
  length times = S (Z.to_nat (maxRequests config)) →
  Forall (λ t, t1 ≤ t ≤ t1 + windowSeconds config * 1000) times →
  let results := (run_checks times clientId config w).1 in
  (∀ i : nat, Z.of_nat i < maxRequests config →
     ∃ st, results !! i = Some (Some st) ∧ allowed st = true ∧
           remaining st = maxRequests config - 1 - Z.of_nat i ∧
           limit st = maxRequests config) ∧
  (∃ st, results !! Z.to_nat (maxRequests config) = Some (Some st) ∧
         allowed st = false ∧ remaining st = 0 ∧
         limit st = maxRequests config).
Proof.
  intros Hh Hfresh Hmax Hlen Hall results.
  assert (counting (rate_key config clientId) t1 0 w) as Hc by (left; done).
  pose proof (run_checks_window clientId config t1 times 0 w Hh Hc Hall) as Hrun.
  fold results in Hrun. split.
  - intros i Hi.
    destruct (Hrun i ltac:(lia)) as (st & Hst & Hl & Hres).
    destruct (decide (0 + Z.of_nat i < maxRequests config)); [|lia].
    destruct Hres as [Ha Hr]. exists st. repeat split; auto; lia.
  - destruct (Hrun (Z.to_nat (maxRequests config)) ltac:(lia))
      as (st & Hst & Hl & Hres).
    destruct (decide (0 + Z.of_nat (Z.to_nat (maxRequests config))
                      < maxRequests config)); [lia|].
    destruct Hres as [Ha Hr]. exists st. auto.
Qed.

Lemma monotonic_admission_witness :
  let results :=
    (run_checks [1000; 1500; 2000; 61000] Scenario.client Scenario.policy
       Scenario.fresh).1 in
  (∀ i : nat, Z.of_nat i < 3 →
     ∃ st, results !! i = Some (Some st) ∧ allowed st = true ∧
           remaining st = 3 - 1 - Z.of_nat i ∧ limit st = 3) ∧
  (∃ st, results !! 3%nat = Some (Some st) ∧
         allowed st = false ∧ remaining st = 0 ∧ limit st = 3).
Proof.
  apply (monotonic_admission Scenario.client Scenario.policy Scenario.fresh 1000
           [1000; 1500; 2000; 61000]).
  - repeat split; reflexivity.
  - reflexivity.
  - reflexivity.
  - reflexivity.
  - repeat constructor; cbn; lia.
Defined.

(** ** Rejections and reads leave the store alone *)

Section Frame.

Context (clientId : string) (config : RateLimitConfig).

Lemma checkRateLimit_obs (now : Z) (w : World) :
  obs (checkRateLimit now clientId config w) =
  if available w then
    let key := rate_key config clientId in
    let cf := counter_at now config (fetched w key) in
    (Returned (status_of config cf), world_after config key cf w)
  else (Returned (open_status config (now + windowSeconds config * 1000)), w).
Proof.
  destruct (available w) eqn:Hav.
  - by apply checkRateLimit_run.
  - by apply checkRateLimit_closed.
Qed.

Lemma checkRateLimit_returns (now : Z) (w : World) :
  ∃ st, returned (checkRateLimit now clientId config w) = Some st.
Proof.
  pose proof (checkRateLimit_obs now w) as H.
  destruct (available w); cbn zeta in H; apply obs_returned in H as [H _]; eauto.
Qed.

Lemma rejected_frame (now : Z) (w : World) (st : RateLimitStatus) :
  returned (checkRateLimit now clientId config w) = Some st →
  allowed st = false →
  world (checkRateLimit now clientId config w) = w.
Proof.
  intros Hret Hrej.
  pose proof (checkRateLimit_obs now w) as H.
  destruct (available w); cbn zeta in H; apply obs_returned in H as [H Hw];
    [|exact Hw].
  rewrite Hw. rewrite Hret in H. injection H as ->.
  unfold status_of, world_after in *.
  destruct (_ >=? _); [reflexivity | discriminate].
Qed.

Lemma rejected_run_frame (times : list Z) :
  ∀ w,
    Forall (λ o, ∃ st, o = Some st ∧ allowed st = false)
      (run_checks times clientId config w).1 →
    (run_checks times clientId config w).2 = w.
Proof.
  induction times as [|t rest IH]; intros w Hall; [reflexivity|].
  cbn [run_checks fst snd] in *.
  apply Forall_cons in Hall as [(st & Hst & Hrej) Hrest].
  rewrite (rejected_frame t w st Hst Hrej) in *. by apply IH.
Qed.

Lemma rejected_then_elapsed (now later : Z) (w : World) (st : RateLimitStatus)
    (c : option Z) (f : Z) :
  0 < maxRequests config →
  returned (checkRateLimit now clientId config w) = Some st →
  allowed st = false →
  stored w (rate_key config clientId) = Some (TextRecord c (Some f)) →
  f ≠ 0 →
  resetAt st < later →
  returned (checkRateLimit later clientId config
              (world (checkRateLimit now clientId config w)))
  = Some (mkRateLimitStatus true (maxRequests config - 1)
            (later + windowSeconds config * 1000) (maxRequests config)).
Proof.
  intros Hmax Hret Hrej Hst Hf Hlater.
  rewrite (rejected_frame now w st Hret Hrej).
  pose proof (checkRateLimit_obs now w) as H.
  pose proof (checkRateLimit_obs later w) as H'.
  destruct (available w); cbn zeta in H, H';
    apply obs_returned in H as [H _]; apply obs_returned in H' as [H' _];
    rewrite Hret in H; injection H as ->; [|discriminate].
  rewrite H'. f_equal.
  unfold fetched in *. destruct (get_fails (kv w)).
  - exfalso. revert Hrej. unfold status_of, counter_at, current_window, read_counter.
    cbn [fst snd]. destruct (_ >? _); cbn [fst snd];
      rewrite geb_false by lia; discriminate.
  - rewrite Hst in *.
    unfold status_of, counter_at, current_window, read_counter in Hrej, Hlater.
    cbn [fst snd] in Hrej, Hlater. rewrite (or_else_some f now Hf) in Hrej, Hlater.
    destruct (Z.gtb_spec (now - f) (windowSeconds config * 1000)) as [Hgt | Hle];
      cbn [fst snd] in Hrej, Hlater.
    + rewrite geb_false in Hrej by lia. discriminate.
    + destruct (_ >=? _); [|discriminate]. cbn [resetAt] in Hlater.
      rewrite counter_expired by (auto; lia).
      unfold status_of. cbn [fst snd]. rewrite geb_false by lia.
      f_equal; lia.
Qed.

Lemma rejected_until_reset (now later : Z) (w : World) (st : RateLimitStatus)
    (c : option Z) (f : Z) :
  0 < maxRequests config →
  returned (checkRateLimit now clientId config w) = Some st →
  allowed st = false →
  stored w (rate_key config clientId) = Some (TextRecord c (Some f)) →
  f ≠ 0 →
  later ≤ resetAt st →
  returned (checkRateLimit later clientId config
              (world (checkRateLimit now clientId config w)))
  = Some st.
Proof.
  intros Hmax Hret Hrej Hst Hf Hlater.
  rewrite (rejected_frame now w st Hret Hrej).
  pose proof (checkRateLimit_obs now w) as H.
  pose proof (checkRateLimit_obs later w) as H'.
  destruct (available w); cbn zeta in H, H';
    apply obs_returned in H as [H _]; apply obs_returned in H' as [H' _];
    rewrite Hret in H; injection H as ->; [|discriminate].
  rewrite H'. f_equal.
  unfold fetched in *. destruct (get_fails (kv w)).
  - exfalso. revert Hrej. unfold status_of, counter_at, current_window, read_counter.
    cbn [fst snd]. destruct (_ >? _); cbn [fst snd];
      rewrite geb_false by lia; discriminate.
  - rewrite Hst in *.
    unfold status_of, counter_at, current_window, read_counter in *.
    cbn [fst snd] in *. rewrite (or_else_some f now Hf) in Hrej, Hlater |- *.
    rewrite (or_else_some f later Hf).
    destruct (Z.gtb_spec (now - f) (windowSeconds config * 1000)) as [Hgt | Hle];
      cbn [fst snd] in Hrej, Hlater |- *.
    + rewrite geb_false in Hrej by lia. discriminate.
    + destruct (_ >=? _) eqn:Hge; [|discriminate]. cbn [resetAt] in Hlater.
      rewrite (gtb_false (later - f)) by lia. cbn [fst snd].
      by rewrite Hge.
Qed.

End Frame.

(** C3 (amended). A rejected call of [checkRateLimit] writes nothing: the
    world, and with it the stored record, is the one before the call, also
    after any number of rejected calls in a row. When the record carries a
    non-zero [firstRequestTime], a call made strictly after [resetAt] is
    allowed with [remaining = maxRequests - 1], and a call made at
    [resetAt] or before it is rejected again, with the same status. *)
Theorem rejected_calls_are_free (clientId : string) (config : RateLimitConfig)
    (now later : Z) (w : World) (st : RateLimitStatus) :
  returned (checkRateLimit now clientId config w) = Some st →
  allowed st = false →
  world (checkRateLimit now clientId config w) = w ∧
  (∀ times,
     Forall (λ o, ∃ st', o = Some st' ∧ allowed st' = false)
       (run_checks times clientId config w).1 →
     (run_checks times clientId config w).2 = w) ∧
  (0 < maxRequests config →
   (∃ c f, stored w (rate_key config clientId) = Some (TextRecord c (Some f)) ∧
           f ≠ 0) →
   resetAt st < later →
   ∃ st',
     returned (checkRateLimit later clientId config
                 (world (checkRateLimit now clientId config w))) = Some st' ∧
     allowed st' = true ∧ remaining st' = maxRequests config - 1) ∧
  (0 < maxRequests config →
   (∃ c f, stored w (rate_key config clientId) = Some (TextRecord c (Some f)) ∧
           f ≠ 0) →
   ∀ t, t ≤ resetAt st →
     returned (checkRateLimit t clientId config
                 (world (checkRateLimit now clientId config w))) = Some st).
Proof.
  intros Hret Hrej. split; [|split; [|split]].
  - by eapply rejected_frame.
  - intros times. apply rejected_run_frame.
  - intros Hmax (c & f & Hst & Hf) Hlater.
    erewrite rejected_then_elapsed by eauto. eauto.
  - intros Hmax (c & f & Hst & Hf) t Ht.
    by eapply rejected_until_reset.
Qed.

Lemma rejected_calls_are_free_witness :
  (∃ st',
     returned (checkRateLimit 61001 Scenario.client Scenario.policy
                 (world (checkRateLimit 4000 Scenario.client Scenario.policy
                           (Scenario.exhausted "production" 1000)))) = Some st' ∧
     allowed st' = true ∧ remaining st' = 3 - 1) ∧
  returned (checkRateLimit 61000 Scenario.client Scenario.policy
              (world (checkRateLimit 4000 Scenario.client Scenario.policy
                        (Scenario.exhausted "production" 1000))))
  = Some (mkRateLimitStatus false 0 61000 3).
Proof.
  destruct (rejected_calls_are_free Scenario.client Scenario.policy 4000 61001
              (Scenario.exhausted "production" 1000)
              (mkRateLimitStatus false 0 61000 3) eq_refl eq_refl)
    as (_ & _ & H & H').
  split.
  - apply H.
    + reflexivity.
    + exists (Some 3), 1000. split; [reflexivity | discriminate].
    + reflexivity.
  - apply H'.
    + reflexivity.
    + exists (Some 3), 1000. split; [reflexivity | discriminate].
    + reflexivity.
Defined.

(** At [resetAt] itself the window has not elapsed for the code: after
    three allowed calls at 1s, 2s and 3s, the window resets at 61s; the
    calls at 4s and at 61s are both rejected, the call at 61.001s is
    allowed. *)
Lemma window_boundary_counterexample :
  (run_checks [1000; 2000; 3000; 4000; 61000; 61001] Scenario.client
     Scenario.policy Scenario.fresh).1
  = [ Some (mkRateLimitStatus true 2 61000 3);
      Some (mkRateLimitStatus true 1 61000 3);
      Some (mkRateLimitStatus true 0 61000 3);
      Some (mkRateLimitStatus false 0 61000 3);
      Some (mkRateLimitStatus false 0 61000 3);
      Some (mkRateLimitStatus true 2 121001 3) ].
Proof. vm_compute. reflexivity. Qed.

Lemma getRateLimitStatus_frame (now : Z) (request : NextRequest)
    (custom : option PartialConfig) (w : World) :
  world (getRateLimitStatus now request custom w) = w ∧
  ∃ st, returned (getRateLimitStatus now request custom w) = Some st.
Proof.
  pose proof (getRateLimitStatus_run now request custom w) as H. cbn zeta in H.
  apply obs_returned in H as [H Hw]. eauto.
Qed.

Lemma run_status_frame (calls : list (Z * NextRequest * option PartialConfig)) :
  ∀ w, run_status calls w = w.
Proof.
  induction calls as [|[[t request] custom] rest IH]; intros w; [reflexivity|].
  cbn [run_status]. rewrite (proj1 (getRateLimitStatus_frame t request custom w)).
  apply IH.
Qed.

(** C4. [getRateLimitStatus] never writes: it returns a status and leaves
    the world as it found it, so after any sequence of status queries the
    next [checkRateLimit] runs exactly as it would have without them. *)
Theorem getRateLimitStatus_never_writes :
  (∀ now request custom w,
     world (getRateLimitStatus now request custom w) = w ∧
     ∃ st, returned (getRateLimitStatus now request custom w) = Some st) ∧
  (∀ calls w, run_status calls w = w) ∧
  (∀ calls w now clientId config,
     checkRateLimit now clientId config (run_status calls w)
     = checkRateLimit now clientId config w).
Proof.
  split; [|split].
  - apply getRateLimitStatus_frame.
  - intros calls. apply run_status_frame.
  - intros. by rewrite run_status_frame.
Qed.

(** C5 (amended). [checkRateLimit] never throws. Without a cache client it
    answers [allowed = true, remaining = maxRequests]. A read that the
    namespace rejects reaches the limiter as an absent record: whatever is
    stored, the call is allowed with [remaining = maxRequests - 1]. A
    write that the namespace rejects is swallowed by the client: the call
    answers as the stored record dictates and the store is unchanged. *)
Theorem fail_open (now : Z) (clientId : string) (config : RateLimitConfig)
    (w : World) :
  0 < maxRequests config →
  threw (checkRateLimit now clientId config w) = None ∧
  (available w = false →
   returned (checkRateLimit now clientId config w)
   = Some (mkRateLimitStatus true (maxRequests config)
             (now + windowSeconds config * 1000) (maxRequests config))) ∧
  (available w = true → get_fails (kv w) = true →
   returned (checkRateLimit now clientId config w)
   = Some (mkRateLimitStatus true (maxRequests config - 1)
             (now + windowSeconds config * 1000) (maxRequests config))) ∧
  (available w = true → get_fails (kv w) = false → put_fails (kv w) = true →
   returned (checkRateLimit now clientId config w)
   = Some (status_of config
             (counter_at now config (stored w (rate_key config clientId)))) ∧
   world (checkRateLimit now clientId config w) = w).
Proof.
  intros Hmax.
  pose proof (checkRateLimit_obs clientId config now w) as H.
  split; [|split; [|split]].
  - destruct (checkRateLimit_returns clientId config now w) as [st Hst].
    unfold returned, threw in *. by destruct (outcome _).
  - intros Hav. rewrite Hav in H. by apply obs_returned in H as [H _].
  - intros Hav Hg. rewrite Hav in H. cbn zeta in H.
    apply obs_returned in H as [H _]. rewrite H. f_equal.
    unfold fetched. rewrite Hg.
    unfold status_of, counter_at, current_window, read_counter. cbn [fst snd].
    destruct (_ >? _); cbn [fst snd]; rewrite geb_false by lia; reflexivity.
  - intros Hav Hg Hp. rewrite Hav in H. cbn zeta in H.
    apply obs_returned in H as [H Hw].
    rewrite fetched_stored in H, Hw by done. split; [exact H|].
    rewrite Hw. unfold world_after. rewrite Hp. by destruct (_ >=? _).
Qed.

Lemma fail_open_witness :
  returned (checkRateLimit 5000 Scenario.client Scenario.policy Scenario.unreadable)
  = Some (mkRateLimitStatus true (3 - 1) (5000 + 60 * 1000) 3).
Proof.
  destruct (fail_open 5000 Scenario.client Scenario.policy Scenario.unreadable
              eq_refl) as (_ & _ & H & _).
  apply H; reflexivity.
Defined.

(** With reads that reject, the answer is [remaining = 2] under a policy
    of three requests. *)
Lemma fail_open_counterexample :
  get_fails (kv Scenario.unreadable) = true ∧
  maxRequests Scenario.policy = 3 ∧
  returned (checkRateLimit 5000 Scenario.client Scenario.policy Scenario.unreadable)
  = Some (mkRateLimitStatus true 2 65000 3).
Proof. repeat split; vm_compute; reflexivity. Qed.

(** X29. Under a policy with [maxRequests > 0], [checkRateLimit] and
    [getRateLimitStatus] return a status with [remaining >= 0] and
    [limit = maxRequests], whether or not the store answers, as long as
    what it holds for the client is no record, a text that is empty or no
    JSON, [null], or a JSON value whose [count] and [firstRequestTime] are
    integers or missing, counts above [maxRequests] and negative ones
    included. *)
Theorem status_invariants (now : Z) (clientId : string) (config : RateLimitConfig)
    (request : NextRequest) (custom : option PartialConfig) (w : World) :
  0 < maxRequests config →
  0 < maxRequests (effective_config (env w) custom) →
  (∃ st, returned (checkRateLimit now clientId config w) = Some st ∧
         0 ≤ remaining st ∧ limit st = maxRequests config) ∧
  (∃ st, returned (getRateLimitStatus now request custom w) = Some st ∧
         0 ≤ remaining st ∧
         limit st = maxRequests (effective_config (env w) custom)).
Proof.
  intros Hmax Hmax'. split.
  - pose proof (checkRateLimit_obs clientId config now w) as H.
    destruct (available w); cbn zeta in H; apply obs_returned in H as [H _];
      eexists; (split; [exact H|]).
    + unfold status_of. rewrite Z.geb_leb.
      destruct (Z.leb_spec (maxRequests config) (counter_at now config
        (fetched w (rate_key config clientId))).1); cbn; split; (lia || reflexivity).
    + cbn. split; [lia | reflexivity].
  - pose proof (getRateLimitStatus_run now request custom w) as H. cbn zeta in H.
    apply obs_returned in H as [H _]. eexists; split; [exact H|].
    destruct (available w); [|cbn; split; [lia | reflexivity]].
    unfold status_seen.
    destruct (fetched _ _) as [[| | |c f]|]; try (cbn; split; [lia | reflexivity]).
    destruct (_ >? _); cbn; split; (lia || reflexivity).
Qed.

Lemma status_invariants_witness :
  (∃ st, returned (checkRateLimit 4000 Scenario.client Scenario.policy
                     (Scenario.exhausted "production" 1000)) = Some st ∧
         0 ≤ remaining st ∧ limit st = 3) ∧
  (∃ st, returned (getRateLimitStatus 4000 Scenario.request
                     (Some Scenario.overrides)
                     (Scenario.exhausted "production" 1000)) = Some st ∧
         0 ≤ remaining st ∧ limit st = 3).
Proof.
  apply (status_invariants 4000 Scenario.client Scenario.policy Scenario.request
           (Some Scenario.overrides) (Scenario.exhausted "production" 1000));
    reflexivity.
Defined.

(** ** The rate limiting middleware *)



Lemma addRateLimitHeaders_get (response : NextResponse) (st : RateLimitStatus) :
  status (addRateLimitHeaders response st) = status response ∧
  body (addRateLimitHeaders response st) = body response ∧
  headers_get (headers (addRateLimitHeaders response st)) "X-RateLimit-Limit"
  = Some (String_of (limit st)) ∧
  headers_get (headers (addRateLimitHeaders response st)) "X-RateLimit-Remaining"
  = Some (String_of (remaining st)) ∧
  headers_get (headers (addRateLimitHeaders response st)) "X-RateLimit-Reset"
  = Some (String_of (floor_div (resetAt st) 1000)).
Proof.
  unfold addRateLimitHeaders, headers_set, headers_get. cbn [status body headers].
  change (toLowerCase "X-RateLimit-Limit") with "x-ratelimit-limit".
  change (toLowerCase "X-RateLimit-Remaining") with "x-ratelimit-remaining".
  change (toLowerCase "X-RateLimit-Reset") with "x-ratelimit-reset".
  repeat split.
  - rewrite !lookup_insert_ne by done. by rewrite lookup_insert_eq.
  - rewrite lookup_insert_ne by done. by rewrite lookup_insert_eq.
  - by rewrite lookup_insert_eq.
Qed.

Lemma addRateLimitHeaders_other (response : NextResponse) (st : RateLimitStatus)
    (name : string) :
  toLowerCase name ≠ "x-ratelimit-limit" →
  toLowerCase name ≠ "x-ratelimit-remaining" →
  toLowerCase name ≠ "x-ratelimit-reset" →
  headers_get (headers (addRateLimitHeaders response st)) name
  = headers_get (headers response) name.
Proof.
  intros H1 H2 H3.
  unfold addRateLimitHeaders, headers_set, headers_get. cbn [status body headers].
  change (toLowerCase "X-RateLimit-Limit") with "x-ratelimit-limit".
  change (toLowerCase "X-RateLimit-Remaining") with "x-ratelimit-remaining".
  change (toLowerCase "X-RateLimit-Reset") with "x-ratelimit-reset".
  by rewrite !lookup_insert_ne.
Qed.

Lemma rejection_response_get (st : RateLimitStatus) (later : Z) :
  let retryAfter := ceil_div (resetAt st - later) 1000 in
  status (rejection_response st later) = 429 ∧
  body (rejection_response st later) = rejection_body st retryAfter ∧
  headers_get (headers (rejection_response st later)) "Retry-After"
  = Some (String_of retryAfter).
Proof.
  intros retryAfter. unfold rejection_response. fold retryAfter.
  destruct (addRateLimitHeaders_get
              (headers_set "Retry-After" (String_of retryAfter)
                 (NextResponse_json (rejection_body st retryAfter) 429)) st)
    as (Hs & Hb & _).
  rewrite Hs, Hb. split; [reflexivity | split; [reflexivity |]].
  rewrite addRateLimitHeaders_other by done.
  unfold headers_set, headers_get. cbn [headers].
  by rewrite lookup_insert_eq.
Qed.

Lemma limited_true (e : ProcessEnv) (custom : option PartialConfig)
    (request : NextRequest) :
  limited e custom request = true →
  match RATE_LIMIT_ENABLED e with
  | Some v => negb (String.eqb v "false")
  | None => true
  end = true ∧
  match skipPaths (effective_config e custom) with
  | Some paths => existsb (λ path, startsWith (pathname request) path) paths
  | None => false
  end = false.
Proof.
  unfold limited. intros [H1 H2]%andb_true_iff.
  split; [exact H1 | by apply negb_true_iff].
Qed.

Lemma withRateLimit_run (now later : Z) (request : NextRequest)
    (handler : M NextResponse) (custom : option PartialConfig) (w : World)
    (st : RateLimitStatus) :
  limited (env w) custom request = true →
  let r := checkRateLimit now (getClientIdentifier request)
             (effective_config (env w) custom) w in
  returned r = Some st →
  obs (withRateLimit now later request handler custom w) =
  if allowed st then
    match outcome (handler (world r)) with
    | Returned response =>
        (Returned (addRateLimitHeaders response st), world (handler (world r)))
    | Threw e => (Threw e, world (handler (world r)))
    end
  else (Returned (rejection_response st later), world r).
Proof.
  intros [Hen Hskip]%limited_true r Hret. unfold withRateLimit.
  rewrite obs_bind, obs_outcome, obs_world, isRateLimitEnabled_run. cbn [fst snd].
  rewrite Hen. cbn [negb].
  rewrite obs_bind, obs_outcome, obs_world, getRateLimitConfig_run. cbn [fst snd].
  fold (effective_config (env w) custom). rewrite Hskip.
  rewrite obs_bind. fold r.
  unfold returned in Hret. destruct (outcome r) as [st'|] eqn:Hout; [|discriminate].
  injection Hret as ->.
  destruct (allowed st); cbn [negb].
  - rewrite obs_bind. by destruct (outcome (handler (world r))).
  - rewrite obs_bind. reflexivity.
Qed.

(** ** Three requests a minute *)

Section ThreePerMinute.

Context (h : M NextResponse) (response : NextResponse).
Hypothesis h_returns : ∀ w, obs (h w) = (Returned response, w).

Let key : string := "rate-limit:1.2.3.4".
Let call := Scenario.call h.







End ThreePerMinute.



(** Were the clock to read 0 at the first call, the record would be
    written with [firstRequestTime = 0], which [parsed.firstRequestTime ||
    now] reads as missing: the window would open at the second call and
    the fourth be told to retry after 58 seconds. *)
Lemma clock_zero_run :
  stored (world Scenario.zero_1) "rate-limit:1.2.3.4"
  = Some (TextRecord (Some 1) (Some 0)) ∧
  stored (world Scenario.zero_2) "rate-limit:1.2.3.4"
  = Some (TextRecord (Some 2) (Some 1000)) ∧
  stored (world Scenario.zero_3) "rate-limit:1.2.3.4"
  = Some (TextRecord (Some 3) (Some 1000)) ∧
  (λ r, (status r, headers_get (headers r) "Retry-After")) <$>
    returned Scenario.zero_4
  = Some (429, Some "58").
Proof. repeat split; vm_compute; reflexivity. Qed.

(** Off the limiter's path, [withRateLimit] is its handler. *)
Lemma withRateLimit_bypass (now later : Z) (request : NextRequest)
    (handler : M NextResponse) (custom : option PartialConfig) (w : World) :
  limited (env w) custom request = false →
  obs (withRateLimit now later request handler custom w) = obs (handler w).
Proof.
  unfold limited. intros Hlim. unfold withRateLimit.
  rewrite obs_bind, obs_outcome, obs_world, isRateLimitEnabled_run. cbn [fst snd].
  destruct (match RATE_LIMIT_ENABLED (env w) with
            | Some v => negb (String.eqb v "false")
            | None => true
            end); cbn [negb andb] in *; [|reflexivity].
  rewrite obs_bind, obs_outcome, obs_world, getRateLimitConfig_run. cbn [fst snd].
  fold (effective_config (env w) custom).
  apply negb_false_iff in Hlim. by rewrite Hlim.
Qed.

Example unbound_is_open :
  returned (checkRateLimit 5000 Scenario.client Scenario.policy Scenario.unbound)
  = Some (mkRateLimitStatus true 3 65000 3).
Proof. vm_compute. reflexivity. Qed.

Example unwritable_counts_on :
  returned (checkRateLimit 5000 Scenario.client Scenario.policy Scenario.unwritable)
  = Some (mkRateLimitStatus true 1 61000 3) ∧
  world (checkRateLimit 5000 Scenario.client Scenario.policy Scenario.unwritable)
  = Scenario.unwritable.
Proof. split; vm_compute; reflexivity. Qed.

(** ** Error bodies *)

Lemma createErrorResponse_body (e : ProcessEnv) (trace : string) (err : Thrown) :
  let r := createErrorResponse e trace err in
  let b := ApiErrorResponse_json r in
  success r = false ∧
  field "success" b = Some (VBool false) ∧
  field "error" b ≫= field "type"
  = Some (VStr (ErrorType_text (error_type (error r)))) ∧
  field "error" b ≫= field "message" = Some (VStr (error_message (error r))) ∧
  body_details b = error_details (error r) ∧
  body_stack b = VStr <$> error_stack (error r) ∧
  (production e = true → error_details (error r) = None ∧ error_stack (error r) = None) ∧
  (is_Some (error_details (error r)) ∨ is_Some (error_stack (error r)) →
   production e = false).
Proof.
  intros r b. subst b r. unfold createErrorResponse.
  destruct (production e); cbn [negb].
  - repeat split; try done. intros [[? [=]] | [? [=]]].
  - destruct (truthy _), (nonempty _); repeat split; done.
Qed.

Lemma errorResponse_run (trace : string) (err : Thrown) (code : option Z)
    (w : World) :
  let a := match err with
           | ThrownApp a => a
           | _ => createAppErrorFromNative trace err
           end in
  obs (errorResponse trace err code w)
  = (Returned (NextResponse_json
                 (ApiErrorResponse_json
                    (createErrorResponse (env w) trace (ThrownApp a)))
                 (or_else code (statusCode a))), w).
Proof. reflexivity. Qed.

(** C7 (amended). A body built by [createErrorResponse], and so every
    response of [errorResponse], has the shape
    [{success: false, error: {type, message}}], with [details] and [stack]
    only outside production. The 429 body of [withRateLimit] has the same
    shape and no [stack], but it carries [details: {limit, resetAt,
    retryAfter}] in every configuration, production included. *)
Theorem error_bodies :
  (∀ e trace err,
     let r := createErrorResponse e trace err in
     let b := ApiErrorResponse_json r in
     success r = false ∧
     field "success" b = Some (VBool false) ∧
     field "error" b ≫= field "type"
     = Some (VStr (ErrorType_text (error_type (error r)))) ∧
     field "error" b ≫= field "message" = Some (VStr (error_message (error r))) ∧
     (production e = true → body_details b = None ∧ body_stack b = None) ∧
     (is_Some (body_details b) ∨ is_Some (body_stack b) → production e = false)) ∧
  (∀ trace err code w,
     ∃ r, returned (errorResponse trace err code w) = Some r ∧
          field "success" (body r) = Some (VBool false) ∧
          (production (env w) = true →
           body_details (body r) = None ∧ body_stack (body r) = None)) ∧
  (∀ st retryAfter,
     let b := rejection_body st retryAfter in
     field "success" b = Some (VBool false) ∧
     field "error" b ≫= field "type" = Some (VStr "RATE_LIMIT_ERROR") ∧
     field "error" b ≫= field "message"
     = Some (VStr "Too many requests, please try again later") ∧
     body_details b
     = Some (VObject [ ("limit", VNum (limit st)); ("resetAt", VNum (resetAt st));
                       ("retryAfter", VNum retryAfter) ]) ∧
     body_stack b = None) ∧
  (∀ now later request handler custom w st,
     limited (env w) custom request = true →
     returned (checkRateLimit now (getClientIdentifier request)
                 (effective_config (env w) custom) w) = Some st →
     allowed st = false →
     ∃ r, returned (withRateLimit now later request handler custom w) = Some r ∧
          status r = 429 ∧
          body_details (body r)
          = Some (VObject [ ("limit", VNum (limit st));
                            ("resetAt", VNum (resetAt st));
                            ("retryAfter",
                              VNum (ceil_div (resetAt st - later) 1000)) ]) ∧
          body_stack (body r) = None).
Proof.
  split; [|split; [|split]].
  - intros e trace err r b.
    destruct (createErrorResponse_body e trace err)
      as (Hs & Hf & Ht & Hm & Hd & Hst & Hprod & Hdev).
    fold r b in Hs, Hf, Ht, Hm, Hd, Hst, Hprod, Hdev.
    repeat split; auto.
    + rewrite Hd. by apply Hprod.
    + rewrite Hst. by rewrite (proj2 (Hprod H)).
    + intros Hsome. apply Hdev. rewrite Hd, Hst, fmap_is_Some in Hsome. exact Hsome.
  - intros trace err code w.
    pose proof (errorResponse_run trace err code w) as Hrun. cbn zeta in Hrun.
    apply obs_returned in Hrun as [Hrun _].
    eexists. split; [exact Hrun|]. cbn [body NextResponse_json].
    match goal with
    | |- context [createErrorResponse ?e ?t ?x] =>
        destruct (createErrorResponse_body e t x)
          as (_ & Hf & _ & _ & Hd & Hst & Hprod & _)
    end.
    split; [exact Hf|]. intros Hp. rewrite Hd, Hst.
    destruct (Hprod Hp) as [-> ->]. done.
  - intros st retryAfter. repeat split.
  - intros now later request handler custom w st Hlim Hret Hrej.
    pose proof (withRateLimit_run now later request handler custom w st Hlim Hret)
      as Hrun.
    cbn zeta in Hrun. rewrite Hrej in Hrun. apply obs_returned in Hrun as [Hr _].
    destruct (rejection_response_get st later) as (Hs & Hb & _).
    exists (rejection_response st later). rewrite Hb. repeat split; auto.
Qed.

Lemma error_bodies_witness :
  ∃ r, returned (withRateLimit 4000 4500 Scenario.request Scenario.handler
                   (Some Scenario.overrides)
                   (Scenario.exhausted "development" 1000)) = Some r ∧
       status r = 429 ∧
       body_details (body r)
       = Some (VObject [ ("limit", VNum 3); ("resetAt", VNum 61000);
                         ("retryAfter", VNum 57) ]) ∧
       body_stack (body r) = None.
Proof.
  destruct error_bodies as (_ & _ & _ & H).
  apply (H 4000 4500 Scenario.request Scenario.handler (Some Scenario.overrides)
           (Scenario.exhausted "development" 1000)
           (mkRateLimitStatus false 0 61000 3)); reflexivity.
Defined.

(** Under [NODE_ENV = production] the 429 body still has [details]. *)
Lemma production_details_counterexample :
  production (env (Scenario.exhausted "production" 1000)) = true ∧
  (λ r, (status r, body_details (body r))) <$>
    returned (withRateLimit 4000 4000 Scenario.request Scenario.handler
                (Some Scenario.overrides) (Scenario.exhausted "production" 1000))
  = Some (429,
          Some (VObject [ ("limit", VNum 3); ("resetAt", VNum 61000);
                          ("retryAfter", VNum 57) ])).
Proof. split; vm_compute; reflexivity. Qed.

(** ** The client identifier *)

(** C10 (amended). When [CF-Connecting-IP], [X-Forwarded-For] and
    [X-Real-IP] are all absent or empty, the identifier is ["ua-"] followed
    by the first 50 characters of a non-empty [User-Agent], and
    ["ua-unknown"] when [User-Agent] is absent or empty; two such requests
    whose [User-Agent] values agree on their first 50 characters get the
    same counter key under every policy. *)
Theorem getClientIdentifier_fallback (request : NextRequest) :
  present (headers_get (request_headers request) "CF-Connecting-IP") = None →
  present (headers_get (request_headers request) "X-Forwarded-For") = None →
  present (headers_get (request_headers request) "X-Real-IP") = None →
  (∀ ua, headers_get (request_headers request) "User-Agent" = Some ua →
         ua ≠ "" →
         getClientIdentifier request = "ua-" +:+ String.substring 0 50 ua) ∧
  (headers_get (request_headers request) "User-Agent" = None ∨
   headers_get (request_headers request) "User-Agent" = Some "" →
   getClientIdentifier request = "ua-unknown") ∧
  (∀ (other : NextRequest) (config : RateLimitConfig),
     present (headers_get (request_headers other) "CF-Connecting-IP") = None →
     present (headers_get (request_headers other) "X-Forwarded-For") = None →
     present (headers_get (request_headers other) "X-Real-IP") = None →
     String.substring 0 50
       (default "unknown" (present (headers_get (request_headers other) "User-Agent")))
     = String.substring 0 50
         (default "unknown"
            (present (headers_get (request_headers request) "User-Agent"))) →
     rate_key config (getClientIdentifier other)
     = rate_key config (getClientIdentifier request)).
Proof.
  intros Hcf Hfwd Hreal.
  assert (∀ r : NextRequest,
            present (headers_get (request_headers r) "CF-Connecting-IP") = None →
            present (headers_get (request_headers r) "X-Forwarded-For") = None →
            present (headers_get (request_headers r) "X-Real-IP") = None →
            getClientIdentifier r
            = "ua-" +:+ String.substring 0 50
                (default "unknown"
                   (present (headers_get (request_headers r) "User-Agent"))))
    as Hid.
  { intros r H1 H2 H3. unfold getClientIdentifier. by rewrite H1, H2, H3. }
  split; [|split].
  - intros ua Hua Hne. rewrite (Hid request Hcf Hfwd Hreal), Hua.
    unfold present, nonempty.
    destruct (String.eqb_spec ua ""); [done | reflexivity].
  - intros [Hua | Hua]; rewrite (Hid request Hcf Hfwd Hreal), Hua; reflexivity.
  - intros other config H1 H2 H3 Hsame.
    rewrite (Hid other H1 H2 H3), (Hid request Hcf Hfwd Hreal), Hsame. reflexivity.
Qed.

Lemma getClientIdentifier_fallback_witness :
  getClientIdentifier Scenario.browser = "ua-" +:+ String.substring 0 50 "Mozilla/5.0".
Proof.
  destruct (getClientIdentifier_fallback Scenario.browser eq_refl eq_refl eq_refl)
    as (H & _).
  apply (H "Mozilla/5.0"); [reflexivity | discriminate].
Defined.

(** A request whose [User-Agent] header is present and empty is keyed
    ["ua-unknown"], not ["ua-"] followed by the header's first 50
    characters. *)
Lemma empty_user_agent_counterexample :
  headers_get (request_headers Scenario.anonymous) "CF-Connecting-IP" = None ∧
  headers_get (request_headers Scenario.anonymous) "X-Forwarded-For" = None ∧
  headers_get (request_headers Scenario.anonymous) "X-Real-IP" = None ∧
  headers_get (request_headers Scenario.anonymous) "User-Agent" = Some "" ∧
  getClientIdentifier Scenario.anonymous = "ua-unknown" ∧
  getClientIdentifier Scenario.anonymous ≠ "ua-" +:+ String.substring 0 50 "".
Proof. repeat split; try (vm_compute; reflexivity). vm_compute. discriminate. Qed.

(** ** The error-handling stage *)

Lemma withErrorHandling_obs (handler : M NextResponse) (w : World) :
  obs (withErrorHandling handler w) = obs (handler w).
Proof.
  unfold withErrorHandling. rewrite obs_try_catch. unfold obs.
  by destruct (outcome (handler w)).
Qed.

Lemma withRequestLogging_threw (ids : RequestTrace) (startTime endTime : Z)
    (request : NextRequest) (handler : M NextResponse) (w : World) (a : AppError) :
  threw (handler w) = Some (ThrownApp a) →
  threw (withRequestLogging ids startTime endTime request handler w)
  = Some (ThrownApp a).
Proof.
  unfold threw. intros He.
  destruct (outcome (handler w)) as [|e'] eqn:Hout; [discriminate|].
  injection He as ->.
  unfold withRequestLogging.
  rewrite obs_outcome, obs_bind. cbn [outcome logger_log emit world].
  rewrite obs_try_catch, obs_outcome, obs_bind, Hout. reflexivity.
Qed.

(** C2. The code: [withErrorHandling] ends as its handler ends, so a
    thrown value goes on to the caller, and [withMiddleware] throws it in
    turn; the [ValidationError] of the posts route leaves both as an
    exception, while [withApiHandler] turns the same error, thrown by an
    [async] handler, into a response with status 400. *)
Theorem withErrorHandling_rethrows :
  (∀ handler w,
     outcome (withErrorHandling handler w) = outcome (handler w) ∧
     world (withErrorHandling handler w) = world (handler w)) ∧
  (∀ w ids startTime endTime,
     threw (withErrorHandling Scenario.failing w)
     = Some (ThrownApp Scenario.invalid_id) ∧
     returned (withErrorHandling Scenario.failing w) = None ∧
     threw (withMiddleware ids startTime endTime Scenario.request Scenario.failing w)
     = Some (ThrownApp Scenario.invalid_id) ∧
     returned (withMiddleware ids startTime endTime Scenario.request
                 Scenario.failing w) = None) ∧
  (∀ w trace,
     status <$> returned (withApiHandler trace
                            (async (throw (ThrownApp Scenario.invalid_id))) w)
     = Some 400).
Proof.
  split; [|split].
  - intros handler w.
    pose proof (withErrorHandling_obs handler w) as Hobs.
    unfold obs in Hobs. by injection Hobs.
  - intros w ids startTime endTime.
    assert (threw (withErrorHandling Scenario.failing w)
            = Some (ThrownApp Scenario.invalid_id)) as Ht.
    { reflexivity. }
    pose proof (withRequestLogging_threw ids startTime endTime Scenario.request
                  (withErrorHandling Scenario.failing) w _ Ht) as Hm.
    fold (withMiddleware ids startTime endTime Scenario.request Scenario.failing)
      in Hm.
    unfold threw, returned in *.
    repeat split; try done; by destruct (outcome _).
  - intros w trace. reflexivity.
Qed.

(** * Further properties *)

(** ** The limiter: bypass, agreement with the status query, the store *)

Lemma after_nil {A} (r : Run A) : after [] r = r.
Proof. unfold after. cbn [app]. apply run_eta. Qed.

Lemma bind_pure {A B} (m : M A) (k : A → M B) (w : World) (a : A) :
  m w = mkRun (Returned a) w [] → (m ≫= k) w = k a w.
Proof.
  intros H. unfold mbind, M_bind, bind. rewrite H. cbn [outcome world output].
  apply after_nil.
Qed.

Lemma isRateLimitEnabled_pure (w : World) :
  isRateLimitEnabled w
  = mkRun (Returned match RATE_LIMIT_ENABLED (env w) with
                    | Some v => negb (String.eqb v "false")
                    | None => true
                    end) w [].
Proof. reflexivity. Qed.

Lemma getRateLimitConfig_pure (w : World) :
  getRateLimitConfig w = mkRun (Returned (env_config (env w))) w [].
Proof. destruct w as [[ne rle [rmax|] [rws|] db kvb] k]; reflexivity. Qed.

(** X1. When limiting is switched off ([RATE_LIMIT_ENABLED] is ['false'])
    or the path starts with an entry of the skip list, [withRateLimit] is
    its handler and nothing else: the same outcome, the same world, the
    same lines; no counter is read or written and no header is set. *)
Theorem withRateLimit_skips (now later : Z) (request : NextRequest)
    (handler : M NextResponse) (custom : option PartialConfig) (w : World) :
  RATE_LIMIT_ENABLED (env w) = Some "false" ∨
  (∃ paths path,
     skipPaths (effective_config (env w) custom) = Some paths ∧
     path ∈ paths ∧ startsWith (pathname request) path = true) →
  withRateLimit now later request handler custom w = handler w.
Proof.
  intros Hoff. unfold withRateLimit.
  rewrite (bind_pure _ _ w _ (isRateLimitEnabled_pure w)).
  destruct (negb match RATE_LIMIT_ENABLED (env w) with
                 | Some v => negb (String.eqb v "false")
                 | None => true
                 end) eqn:Hen; [reflexivity|].
  destruct Hoff as [Hfalse | (paths & path & Hp & Hin & Hstart)].
  { rewrite Hfalse in Hen. discriminate. }
  rewrite (bind_pure _ _ w _ (getRateLimitConfig_pure w)).
  fold (effective_config (env w) custom). rewrite Hp.
  assert (existsb (λ p, startsWith (pathname request) p) paths = true) as ->;
    [|reflexivity].
  apply existsb_exists. exists path. split; [|done]. by apply list_elem_of_In.
Qed.

Lemma withRateLimit_skips_witness :
  withRateLimit 4000 4000 Cases.health Scenario.handler None
    (Scenario.exhausted "production" 1000)
  = Scenario.handler (Scenario.exhausted "production" 1000).
Proof.
  apply (withRateLimit_skips 4000 4000 Cases.health Scenario.handler None
           (Scenario.exhausted "production" 1000)).
  right. exists ["/api/health"], "/api/health".
  split; [reflexivity | split; [|reflexivity]].
  apply list_elem_of_In. left. reflexivity.
Defined.

(** X2. With a cache client and [maxRequests > 0], and a store that
    holds for the client no record, a text that is empty or no JSON,
    [null], or a JSON value whose [count] and [firstRequestTime] are
    integers or missing, the status query foretells the check made at the
    same clock reading: the check is
    allowed exactly when the query says so, with the same [resetAt] and
    [limit], and uses up one of the [remaining] requests the query
    reported; when the query reports [allowed = false], both report
    [remaining = 0]. *)
Theorem getRateLimitStatus_foretells (now : Z) (request : NextRequest)
    (custom : option PartialConfig) (w : World) :
  available w = true →
  0 < maxRequests (effective_config (env w) custom) →
  ∃ seen checked,
    returned (getRateLimitStatus now request custom w) = Some seen ∧
    returned (checkRateLimit now (getClientIdentifier request)
                (effective_config (env w) custom) w) = Some checked ∧
    allowed checked = allowed seen ∧
    resetAt checked = resetAt seen ∧
    limit checked = limit seen ∧
    remaining checked = (if allowed seen then remaining seen - 1 else 0) ∧
    (allowed seen = false → remaining seen = 0).
Proof.
  intros Hav Hmax.
  pose proof (getRateLimitStatus_run now request custom w) as Hseen.
  pose proof (checkRateLimit_run now (getClientIdentifier request)
                (effective_config (env w) custom) w Hav) as Hcheck.
  cbn zeta in Hseen, Hcheck. rewrite Hav in Hseen.
  apply obs_returned in Hseen as [Hseen _].
  apply obs_returned in Hcheck as [Hcheck _].
  do 2 eexists. split; [exact Hseen | split; [exact Hcheck |]].
  set (config := effective_config (env w) custom) in *.
  unfold status_seen, status_of, counter_at, current_window, read_counter.
  destruct (fetched w (rate_key config (getClientIdentifier request)))
    as [[| | |c f]|]; cbn [fst snd];
    try (destruct (now - now >? _); cbn [fst snd];
         rewrite geb_false by lia; cbn; repeat split; (lia || discriminate)).
  destruct (now - or_else f now >? windowSeconds config * 1000); cbn [fst snd].
  - rewrite geb_false by lia. cbn. repeat split; (lia || discriminate).
  - rewrite Z.geb_leb.
    destruct (Z.leb_spec (maxRequests config) (or_else c 0)) as [Hge | Hlt].
    + rewrite (proj2 (Z.ltb_ge _ _)) by lia. cbn. repeat split; lia.
    + rewrite (proj2 (Z.ltb_lt _ _)) by lia. cbn. repeat split; (lia || discriminate).
Qed.

Lemma getRateLimitStatus_foretells_witness :
  ∃ seen checked,
    returned (getRateLimitStatus 4000 Scenario.request (Some Scenario.overrides)
                Scenario.unwritable) = Some seen ∧
    returned (checkRateLimit 4000 (getClientIdentifier Scenario.request)
                (effective_config (env Scenario.unwritable)
                   (Some Scenario.overrides)) Scenario.unwritable) = Some checked ∧
    allowed checked = allowed seen ∧
    resetAt checked = resetAt seen ∧
    limit checked = limit seen ∧
    remaining checked = (if allowed seen then remaining seen - 1 else 0) ∧
    (allowed seen = false → remaining seen = 0).
Proof.
  apply (getRateLimitStatus_foretells 4000 Scenario.request
           (Some Scenario.overrides) Scenario.unwritable); reflexivity.
Defined.

(** ** What the limiter stores *)

Lemma stored_written_ne (key key' : string) (v : KVText) (ttl : option Z)
    (w : World) :
  key ≠ key' → stored (written key v ttl w) key' = stored w key'.
Proof.
  intros Hne. unfold stored, written; cbn [kv entries].
  by rewrite lookup_insert_ne.
Qed.

Lemma checkRateLimit_world (now : Z) (clientId : string) (config : RateLimitConfig)
    (w : World) :
  let key := rate_key config clientId in
  let cf := counter_at now config (fetched w key) in
  world (checkRateLimit now clientId config w) = w ∨
  (cf.1 < maxRequests config ∧
   world (checkRateLimit now clientId config w)
   = written key (TextRecord (Some (cf.1 + 1)) (Some cf.2))
       (Some (windowSeconds config)) w).
Proof.
  intros key cf.
  pose proof (checkRateLimit_obs clientId config now w) as H.
  destruct (available w); cbn zeta in H; apply obs_returned in H as [_ H];
    [|by left].
  fold key cf in H. unfold world_after in H.
  rewrite Z.geb_leb in H.
  destruct (Z.leb_spec (maxRequests config) cf.1); [by left|].
  destruct (put_fails (kv w)); [by left|]. right. by split.
Qed.

Lemma counter_at_counted (now : Z) (config : RateLimitConfig) (key : string)
    (w : World) :
  counted config key w →
  0 ≤ (counter_at now config (fetched w key)).1.
Proof.
  unfold counted, fetched, counter_at, current_window, read_counter.
  intros Hc. destruct (get_fails (kv w)).
  { cbn [fst snd]. by destruct (_ >? _). }
  destruct (stored w key) as [[| | |[c|] [f|]]|]; try done; cbn [fst snd].
  - rewrite or_else_zero. destruct (_ >? _); cbn [fst snd]; lia.
  - by destruct (_ >? _).
Qed.

Lemma checkRateLimit_counted (now : Z) (clientId : string)
    (config : RateLimitConfig) (w : World) :
  counted config (rate_key config clientId) w →
  counted config (rate_key config clientId)
    (world (checkRateLimit now clientId config w)).
Proof.
  intros Hc.
  pose proof (counter_at_counted now config _ w Hc) as Hpos.
  destruct (checkRateLimit_world now clientId config w) as [-> | [Hlt ->]];
    [done|].
  unfold counted. rewrite stored_written. lia.
Qed.

(** X3. The count the limiter keeps stays within bounds: if the record of
    a client is absent or holds an integer count from 1 to [maxRequests]
    and an integer [firstRequestTime], then after any sequence of checks,
    at any clock readings and whether or not the namespace answers, it is
    again absent or holds an integer count from 1 to [maxRequests] and an
    integer [firstRequestTime]. *)
Theorem stored_count_bounded (times : list Z) (clientId : string)
    (config : RateLimitConfig) (w : World) :
  counted config (rate_key config clientId) w →
  counted config (rate_key config clientId)
    (run_checks times clientId config w).2.
Proof.
  revert w. induction times as [|t rest IH]; intros w Hc; [exact Hc|].
  cbn [run_checks snd]. apply IH. by apply checkRateLimit_counted.
Qed.

Lemma stored_count_bounded_witness :
  counted Scenario.policy (rate_key Scenario.policy Scenario.client)
    (run_checks [1000; 1000; 70000; 70001; 70002; 70003; 200000] Scenario.client
       Scenario.policy Scenario.fresh).2.
Proof.
  apply (stored_count_bounded _ Scenario.client Scenario.policy Scenario.fresh).
  exact I.
Defined.

Lemma append_inj_l (p a b : string) : p +:+ a = p +:+ b → a = b.
Proof. induction p as [|c p IH]; cbn; [done|]. intros [= H]. by apply IH. Qed.

Lemma rate_key_inj (config : RateLimitConfig) (a b : string) :
  rate_key config a = rate_key config b → a = b.
Proof.
  unfold rate_key. intros H.
  apply append_inj_l in H. by apply (append_inj_l ":") in H.
Qed.

Lemma checkRateLimit_written_ne (later : Z) (other key : string)
    (config : RateLimitConfig) (v : KVText) (ttl : option Z) (w : World) :
  key ≠ rate_key config other →
  returned (checkRateLimit later other config (written key v ttl w))
  = returned (checkRateLimit later other config w).
Proof.
  intros Hne.
  pose proof (checkRateLimit_obs other config later w) as H1.
  pose proof (checkRateLimit_obs other config later (written key v ttl w)) as H2.
  cbn zeta in H1, H2.
  assert (fetched (written key v ttl w) (rate_key config other)
          = fetched w (rate_key config other)) as Hf.
  { unfold fetched. change (get_fails (kv (written key v ttl w)))
      with (get_fails (kv w)). by rewrite stored_written_ne. }
  rewrite Hf in H2.
  change (available (written key v ttl w)) with (available w) in H2.
  destruct (available w); apply obs_returned in H1 as [H1 _];
    apply obs_returned in H2 as [H2 _]; by rewrite H1, H2.
Qed.

(** X4. Clients do not touch each other's counters: under one policy two
    different client identifiers have different keys, a check for one
    leaves the record of the other as it was, and the other's next check
    returns what it would have returned without it. *)
Theorem clients_are_isolated (now later : Z) (clientId other : string)
    (config : RateLimitConfig) (w : World) :
  clientId ≠ other →
  rate_key config clientId ≠ rate_key config other ∧
  stored (world (checkRateLimit now clientId config w)) (rate_key config other)
  = stored w (rate_key config other) ∧
  returned (checkRateLimit later other config
              (world (checkRateLimit now clientId config w)))
  = returned (checkRateLimit later other config w).
Proof.
  intros Hne.
  assert (rate_key config clientId ≠ rate_key config other) as Hkey.
  { intros H. by apply rate_key_inj in H. }
  split; [exact Hkey|].
  destruct (checkRateLimit_world now clientId config w) as [-> | [_ Hw]];
    [done|].
  rewrite Hw. split; [by apply stored_written_ne|].
  by apply checkRateLimit_written_ne.
Qed.

Lemma clients_are_isolated_witness :
  rate_key Scenario.policy "5.6.7.8" ≠ rate_key Scenario.policy Scenario.client ∧
  stored (world (checkRateLimit 2000 "5.6.7.8" Scenario.policy
                   (Scenario.exhausted "production" 1000)))
    (rate_key Scenario.policy Scenario.client)
  = stored (Scenario.exhausted "production" 1000)
      (rate_key Scenario.policy Scenario.client) ∧
  returned (checkRateLimit 3000 Scenario.client Scenario.policy
              (world (checkRateLimit 2000 "5.6.7.8" Scenario.policy
                        (Scenario.exhausted "production" 1000))))
  = returned (checkRateLimit 3000 Scenario.client Scenario.policy
                (Scenario.exhausted "production" 1000)).
Proof.
  apply (clients_are_isolated 2000 3000 "5.6.7.8" Scenario.client Scenario.policy
           (Scenario.exhausted "production" 1000)).
  discriminate.
Defined.

(** X5. A read that the namespace rejects costs the client's history: with
    a cache client, writes that go through and [maxRequests > 0], the check
    replaces whatever record was stored by a first request at the current
    time, written with the window as its TTL. *)
Theorem failed_read_restarts_window (now : Z) (clientId : string)
    (config : RateLimitConfig) (w : World) :
  available w = true → get_fails (kv w) = true → put_fails (kv w) = false →
  0 < maxRequests config →
  entries (kv (world (checkRateLimit now clientId config w)))
    !! rate_key config clientId
  = Some (mkKVEntry (TextRecord (Some 1) (Some now))
            (Some (windowSeconds config))) ∧
  (∀ key, key ≠ rate_key config clientId →
          stored (world (checkRateLimit now clientId config w)) key = stored w key).
Proof.
  intros Hav Hg Hp Hmax.
  pose proof (checkRateLimit_run now clientId config w Hav) as H. cbn zeta in H.
  apply obs_returned in H as [_ H]. rewrite H.
  unfold fetched. rewrite Hg.
  assert (counter_at now config None = (0, now)) as ->.
  { unfold counter_at, current_window, read_counter. cbn [fst snd].
    by destruct (_ >? _). }
  unfold world_after. cbn [fst snd]. rewrite geb_false by lia. rewrite Hp.
  split.
  - unfold written; cbn [kv entries]. by rewrite lookup_insert_eq.
  - intros key Hne. by apply stored_written_ne.
Qed.

Lemma failed_read_restarts_window_witness :
  entries (kv (world (checkRateLimit 5000 Scenario.client Scenario.policy
                        Scenario.unreadable)))
    !! rate_key Scenario.policy Scenario.client
  = Some (mkKVEntry (TextRecord (Some 1) (Some 5000)) (Some 60)).
Proof.
  apply (failed_read_restarts_window 5000 Scenario.client Scenario.policy
           Scenario.unreadable); reflexivity.
Defined.

(** ** Who the client is *)

Lemma occurs_split_comma_head (s : string) :
  occurs ","%char (split_comma_head s) = false.
Proof.
  induction s as [|c s IH]; [reflexivity|]. cbn [split_comma_head].
  destruct (Ascii.eqb_spec c ","%char) as [-> | Hne]; [reflexivity|].
  cbn [occurs]. rewrite IH, orb_false_r.
  apply Ascii.eqb_neq. congruence.
Qed.

Lemma occurs_trimStart (c : Ascii.ascii) (s : string) :
  occurs c s = false → occurs c (trimStart s) = false.
Proof.
  induction s as [|c' s IH]; [done|]. cbn [trimStart occurs].
  intros [H1 H2]%orb_false_iff. destruct (is_space c'); [by apply IH|].
  cbn [occurs]. by rewrite H1, H2.
Qed.

Lemma occurs_trimEnd (c : Ascii.ascii) (s : string) :
  occurs c s = false → occurs c (trimEnd s) = false.
Proof.
  induction s as [|c' s IH]; [done|]. cbn [trimEnd occurs].
  intros [H1 H2]%orb_false_iff. specialize (IH H2).
  destruct (trimEnd s) as [|c2 r].
  - destruct (is_space c'); [done|]. cbn [occurs]. by rewrite H1.
  - cbn [occurs] in *. by rewrite H1, IH.
Qed.

Lemma first_char_trimStart (s : string) (c : Ascii.ascii) :
  first_char (trimStart s) = Some c → is_space c = false.
Proof.
  induction s as [|c' s IH]; [done|]. cbn [trimStart].
  destruct (is_space c') eqn:Hc'; [exact IH|]. cbn. by intros [= <-].
Qed.

Lemma first_char_trimEnd (s : string) (c : Ascii.ascii) :
  first_char (trimEnd s) = Some c → first_char s = Some c.
Proof.
  destruct s as [|c' s]; [done|]. cbn [trimEnd].
  destruct (trimEnd s); [destruct (is_space c')|]; done.
Qed.

Lemma last_char_trimEnd (s : string) (c : Ascii.ascii) :
  last_char (trimEnd s) = Some c → is_space c = false.
Proof.
  induction s as [|c' s IH]; [done|]. cbn [trimEnd].
  destruct (trimEnd s) as [|c2 r] eqn:Ht.
  - destruct (is_space c') eqn:Hc'; [done|]. cbn. by intros [= <-].
  - cbn [last_char] in *. destruct (last_char r) as [c3|]; [exact IH|].
    cbn in IH. exact IH.
Qed.

Lemma trim_trimmed (s : string) : trimmed (trim s).
Proof.
  unfold trimmed, trim. split.
  - intros c Hc. apply first_char_trimEnd in Hc. by apply first_char_trimStart in Hc.
  - apply last_char_trimEnd.
Qed.

(** X6. Behind a proxy the client is the first hop of [X-Forwarded-For]:
    when [CF-Connecting-IP] is absent or empty and [X-Forwarded-For] is not,
    the identifier is the text before the first comma without the white
    space around it, so it holds no comma and neither starts nor ends with
    white space (the no-break space U+00A0 included, which [trim] strips
    too), whatever [X-Real-IP] and [User-Agent] say. *)
Theorem getClientIdentifier_first_hop (request : NextRequest) (forwarded : string) :
  present (headers_get (request_headers request) "CF-Connecting-IP") = None →
  headers_get (request_headers request) "X-Forwarded-For" = Some forwarded →
  forwarded ≠ "" →
  getClientIdentifier request = trim (split_comma_head forwarded) ∧
  occurs ","%char (getClientIdentifier request) = false ∧
  trimmed (getClientIdentifier request).
Proof.
  intros Hcf Hfwd Hne.
  assert (getClientIdentifier request = trim (split_comma_head forwarded)) as ->.
  { unfold getClientIdentifier. rewrite Hcf, Hfwd. unfold present, nonempty.
    by destruct (String.eqb_spec forwarded ""). }
  split; [reflexivity | split; [|apply trim_trimmed]].
  unfold trim. apply occurs_trimEnd, occurs_trimStart, occurs_split_comma_head.
Qed.

Lemma getClientIdentifier_first_hop_witness :
  getClientIdentifier Cases.proxied = "10.0.0.7".
Proof.
  destruct (getClientIdentifier_first_hop Cases.proxied " 10.0.0.7 , 172.16.0.1")
    as (H & _); [vm_compute; reflexivity | vm_compute; reflexivity | discriminate |].
  rewrite H. vm_compute. reflexivity.
Defined.

Lemma substring_length (n : nat) (s : string) :
  (String.length (String.substring 0 n s) ≤ n)%nat.
Proof.
  revert s. induction n as [|n IH]; intros [|c s]; cbn; try lia.
  specialize (IH s). lia.
Qed.

(** X7. The logging stage and the limiter name the client alike: whenever
    [getClientIp] finds an address, [getClientIdentifier] is that address;
    when it finds none, the identifier is ["ua-"] followed by at most 50
    characters. *)
Theorem getClientIp_agrees (request : NextRequest) :
  match getClientIp request with
  | Some ip => getClientIdentifier request = ip
  | None =>
      ∃ agent, getClientIdentifier request = "ua-" +:+ agent ∧
               (String.length agent ≤ 50)%nat
  end.
Proof.
  unfold getClientIp, getClientIdentifier.
  destruct (present (headers_get (request_headers request) "CF-Connecting-IP"));
    [reflexivity|].
  destruct (present (headers_get (request_headers request) "X-Forwarded-For"));
    [reflexivity|].
  destruct (present (headers_get (request_headers request) "X-Real-IP"));
    [reflexivity|].
  eexists. split; [reflexivity | apply substring_length].
Qed.

(** ** The error classes *)

(** X8. Every error class of [lib/errors/index.ts] reports the status the
    table [ERROR_STATUS_MAP] gives for its type, whatever the message and
    the details, and for [FileError] and [ConversionError] whatever the
    type handed in; the status is in 400..599, the error is operational,
    and the details and the stack are the ones given. *)
Theorem error_classes_follow_table (cls : ErrorClass) (trace arg : string)
    (dets : Value) :
  let e := construct cls trace arg dets in
  statusCode e = ERROR_STATUS_MAP (type e) ∧
  400 ≤ statusCode e < 600 ∧
  isOperationalError (ThrownApp e) = true ∧
  details e = dets ∧
  stack e = trace.
Proof.
  destruct cls as [| | | |ty| | | | |ty| | | | | | | | | | | | | | | | |];
    try destruct ty; cbn; repeat split; lia.
Qed.

(** X9. A thrown value that is no [AppError] is not operational for
    [isOperationalError], and its normalisation by
    [createAppErrorFromNative] is: the result is one of five types, with
    the status of the table, and keeps the value as its details. A value
    that is no [Error] object becomes an [INTERNAL_SERVER_ERROR] with the
    fixed message. *)
Theorem normalisation_makes_operational (trace : string) (v : Value) :
  let e := createAppErrorFromNative trace (ThrownValue v) in
  isOperationalError (ThrownValue v) = false ∧
  isOperationalError (ThrownApp e) = true ∧
  In (type e) [DATABASE_ERROR; NETWORK_ERROR; JSON_PARSE_ERROR; FILE_ERROR;
               INTERNAL_SERVER_ERROR] ∧
  statusCode e = ERROR_STATUS_MAP (type e) ∧
  details e = v ∧
  match v with
  | VError _ msg _ => message e = msg
  | _ => type e = INTERNAL_SERVER_ERROR ∧
         message e = "An unexpected error occurred"
  end.
Proof.
  destruct v as [| |b|n|s|n msg st|fs]; try (cbn; by intuition).
  intros e.
  destruct (normalise_native trace n msg st) as (Ht & Hs & Hm & Ho & Hd & _).
  fold e in Ht, Hs, Hm, Ho, Hd.
  split; [reflexivity|]. split; [exact Ho|].
  split; [|by rewrite Hs, Ht].
  rewrite Ht. unfold classify. cbn [In].
  repeat (match goal with |- context [if ?b then _ else _] => destruct b end);
    tauto.
Qed.

Lemma toLowerCase_app (a b : string) :
  toLowerCase (a +:+ b) = toLowerCase a +:+ toLowerCase b.
Proof.
  induction a as [|c a IH]; [reflexivity|].
  change (String c a +:+ b) with (String c (a +:+ b)).
  cbn [toLowerCase]. rewrite IH. reflexivity.
Qed.

Lemma prefix_app (k rest : string) : String.prefix k (k +:+ rest) = true.
Proof.
  induction k as [|c k IH]; [by destruct rest|].
  change (String.prefix (String c k) (String c k +:+ rest))
    with (match Ascii.ascii_dec c c with
          | left _ => String.prefix k (k +:+ rest)
          | right _ => false
          end).
  destruct (Ascii.ascii_dec c c); [exact IH|congruence].
Qed.

Lemma includes_prefix (s k : string) : String.prefix k s = true → includes s k = true.
Proof. intros H. destruct s; cbn [includes]; by rewrite H. Qed.

Lemma includes_cons (c : Ascii.ascii) (s k : string) :
  includes (String c s) k = String.prefix k (String c s) || includes s k.
Proof. reflexivity. Qed.

Lemma includes_app (a s k : string) :
  includes s k = true → includes (a +:+ s) k = true.
Proof.
  intros H. induction a as [|c a IH]; [exact H|].
  change (String c a +:+ s) with (String c (a +:+ s)).
  rewrite includes_cons, IH. apply orb_true_r.
Qed.

Lemma includes_word (before word after k : string) :
  toLowerCase word = k →
  includes (toLowerCase (before +:+ word +:+ after)) k = true.
Proof.
  intros <-. rewrite !toLowerCase_app.
  apply includes_app, includes_prefix, prefix_app.
Qed.

(** X10. For a message of characters below U+0100,
    [createAppErrorFromNative] finds its keywords anywhere in the message
    and in any case. A message with the word database or sql in
    it makes a [DATABASE_ERROR] (500), whatever else it says; network or
    fetch make a [NETWORK_ERROR] (503) when no database word occurs; json
    or parse a [JSON_PARSE_ERROR] (400) when none of the earlier words
    occurs; file or upload a [FILE_ERROR] (500) when none of the earlier
    words occurs. The error keeps the message in its own case. *)
Theorem keywords_anywhere_any_case (trace n : string) (st : option string)
    (before word after : string) :
  let msg := before +:+ word +:+ after in
  let lowered := toLowerCase msg in
  let e := createAppErrorFromNative trace (ThrownValue (VError n msg st)) in
  message e = msg ∧
  (toLowerCase word = "database" ∨ toLowerCase word = "sql" →
   type e = DATABASE_ERROR ∧ statusCode e = 500) ∧
  (toLowerCase word = "network" ∨ toLowerCase word = "fetch" →
   includes lowered "database" = false → includes lowered "sql" = false →
   type e = NETWORK_ERROR ∧ statusCode e = 503) ∧
  (toLowerCase word = "json" ∨ toLowerCase word = "parse" →
   includes lowered "database" = false → includes lowered "sql" = false →
   includes lowered "network" = false → includes lowered "fetch" = false →
   type e = JSON_PARSE_ERROR ∧ statusCode e = 400) ∧
  (toLowerCase word = "file" ∨ toLowerCase word = "upload" →
   includes lowered "database" = false → includes lowered "sql" = false →
   includes lowered "network" = false → includes lowered "fetch" = false →
   includes lowered "json" = false → includes lowered "parse" = false →
   type e = FILE_ERROR ∧ statusCode e = 500).
Proof.
  intros msg lowered e.
  destruct (normalise_native trace n msg st) as (Ht & Hs & Hm & _).
  fold e in Ht, Hs, Hm. rewrite Hs, Ht. unfold classify. fold lowered.
  split; [exact Hm|].
  repeat split.
  all: repeat match goal with
         | |- _ → _ => intros ?
         | H : _ = false |- _ => rewrite H; clear H
         end.
  all: match goal with
       | H : _ ∨ _ |- _ =>
           destruct H as [H|H];
           apply (includes_word before word after) in H;
           fold msg in H; fold lowered in H; rewrite H
       end.
  all: rewrite ?orb_true_r; reflexivity.
Qed.

Lemma keywords_anywhere_any_case_witness :
  let e := createAppErrorFromNative "at route"
             (ThrownValue (VError "Error" "Lost the DataBase over the network" None)) in
  type e = DATABASE_ERROR ∧ statusCode e = 500.
Proof.
  destruct (keywords_anywhere_any_case "at route" "Error" None
              "Lost the " "DataBase" " over the network") as (_ & H & _).
  apply H. left. reflexivity.
Defined.

(** ** Responses and the middleware *)

Lemma createErrorResponse_names (e : ProcessEnv) (trace : string) (a : AppError) :
  let r := createErrorResponse e trace (ThrownApp a) in
  error_type (error r) = type a ∧ error_message (error r) = message a.
Proof.
  unfold createErrorResponse.
  destruct (production e), (truthy (details a)), (nonempty (stack a)); by split.
Qed.

Lemma errorResponse_reply (trace : string) (err : Thrown) (code : option Z)
    (w : World) :
  let a := createAppErrorFromNative trace err in
  ∃ r, obs (errorResponse trace err code w) = (Returned r, w) ∧
       error_reply r (or_else code (statusCode a)) (type a) (message a).
Proof.
  intros a. eexists. split.
  - rewrite errorResponse_run. reflexivity.
  - assert (match err with
            | ThrownApp a => a
            | _ => createAppErrorFromNative trace err
            end = a) as -> by (by destruct err).
    pose proof (createErrorResponse_body (env w) trace (ThrownApp a))
      as (_ & Hs & Ht & Hm & _).
    pose proof (createErrorResponse_names (env w) trace a) as [Hty Hmsg].
    cbv zeta in Ht, Hm, Hs, Hty, Hmsg. rewrite Hty in Ht. rewrite Hmsg in Hm.
    by repeat split.
Qed.

Lemma withApiHandler_obs (trace : string) (handler : M (M Value)) (w : World) :
  obs (withApiHandler trace handler w)
  = match outcome (handler w) with
    | Returned promise =>
        let settled := promise (world (handler w)) in
        match outcome settled with
        | Returned data =>
            (Returned (successResponse data None 200 None), world settled)
        | Threw err => obs (errorResponse trace err None (world settled))
        end
    | Threw e => (Threw e, world (handler w))
    end.
Proof.
  unfold withApiHandler. rewrite obs_bind.
  destruct (outcome (handler w)) as [promise|e]; [|reflexivity].
  cbv zeta. generalize (world (handler w)). intros w0.
  rewrite obs_try_catch, obs_outcome, obs_world, obs_bind.
  destruct (outcome (promise w0)); reflexivity.
Qed.

Lemma withApiHandler_async (trace : string) (body : M Value) (w : World) :
  obs (withApiHandler trace (async body) w)
  = match outcome (body w) with
    | Returned data => (Returned (successResponse data None 200 None), world (body w))
    | Threw err => obs (errorResponse trace err None (world (body w)))
    end.
Proof. apply (withApiHandler_obs trace (async body) w). Qed.

(** X11. What [withApiHandler] does with its handler. When the call of
    the handler throws, as a handler that is no [async] function can,
    [withApiHandler] throws the same value. When the call returns a
    promise, [withApiHandler] answers: with the 200 success body around
    the data (a value of JSON) when the promise resolves, and when it
    rejects with the error
    body of the normalised error and that error's own status, provided
    this is an error status (400 to 599, as the status of every class of
    [lib/errors] is; [NextResponse.json] refuses a status outside 200 to
    599). The world is the one the handler left. *)
Theorem withApiHandler_answers (trace : string) (handler : M (M Value))
    (w : World) :
  (∀ e, threw (handler w) = Some e →
        threw (withApiHandler trace handler w) = Some e ∧
        world (withApiHandler trace handler w) = world (handler w)) ∧
  (∀ promise, returned (handler w) = Some promise →
     let settled := promise (world (handler w)) in
     (∀ err, threw settled = Some err →
             400 ≤ statusCode (createAppErrorFromNative trace err) ≤ 599) →
     ∃ r, returned (withApiHandler trace handler w) = Some r ∧
          world (withApiHandler trace handler w) = world settled ∧
          match outcome settled with
          | Returned data =>
              status r = 200 ∧ body r = createSuccessResponse data None None
          | Threw err =>
              let a := createAppErrorFromNative trace err in
              error_reply r (statusCode a) (type a) (message a)
          end).
Proof.
  pose proof (withApiHandler_obs trace handler w) as H.
  split.
  - intros e He. unfold threw in He.
    destruct (outcome (handler w)) as [|e']; [discriminate|]. injection He as ->.
    pose proof (f_equal fst H) as Ho. pose proof (f_equal snd H) as Hw.
    unfold obs in Ho, Hw. cbn [fst snd] in Ho, Hw.
    unfold threw. rewrite Ho. by split.
  - intros promise Hp settled _. unfold returned in Hp.
    destruct (outcome (handler w)) as [promise'|]; [|discriminate].
    injection Hp as ->. cbv zeta in H. fold settled in H.
    destruct (outcome settled) as [data|err] eqn:Hout.
    + apply obs_returned in H as [Hr Hw]. eexists. repeat split; eauto.
    + destruct (errorResponse_reply trace err None (world settled))
        as (r & Hrun & Hreply).
      rewrite Hrun in H. apply obs_returned in H as [Hr Hw].
      exists r. repeat split; auto; apply Hreply.
Qed.

Lemma withApiHandler_answers_witness :
  ∃ r, returned (withApiHandler "at GET"
                   (async (throw (ThrownApp Scenario.invalid_id))) Scenario.fresh)
       = Some r ∧
       status r = 400.
Proof.
  destruct (withApiHandler_answers "at GET"
              (async (throw (ThrownApp Scenario.invalid_id))) Scenario.fresh)
    as [_ H].
  destruct (H (throw (ThrownApp Scenario.invalid_id)) eq_refl) as (r & Hr & _ & Hs).
  - intros err [= <-]. vm_compute. split; discriminate.
  - exists r. split; [exact Hr|]. apply Hs.
Defined.

Lemma withRequestLogging_obs (ids : RequestTrace) (startTime endTime : Z)
    (request : NextRequest) (handler : M NextResponse) (w : World) :
  obs (withRequestLogging ids startTime endTime request handler w)
  = match outcome (handler w) with
    | Returned response =>
        (Returned (traced ids (endTime - startTime) response), world (handler w))
    | Threw err =>
        (Threw match err with
               | ThrownValue VNull | ThrownValue VUndefined => null_property
               | _ => err
               end, world (handler w))
    end.
Proof.
  unfold withRequestLogging.
  rewrite obs_bind. cbn [outcome logger_log emit world].
  match goal with
  | |- obs (try_catch ?b ?h w) = _ => set (body := b); set (recover := h)
  end.
  rewrite obs_try_catch.
  pose proof (obs_bind handler
                (λ response,
                   logger_log logger_http
                     (method request +:+ " " +:+ pathname request +:+ " "
                      +:+ String_of (status response));;
                   trackHttpRequest (method request) (pathname request)
                     (status response);;
                   mret (traced ids (endTime - startTime) response)) w) as Hbody.
  change (obs (body w)
          = match outcome (handler w) with
            | Returned a =>
                (Returned (traced ids (endTime - startTime) a), world (handler w))
            | Threw e => (Threw e, world (handler w))
            end) in Hbody.
  unfold obs in Hbody.
  destruct (outcome (handler w)) as [response|err];
    injection Hbody as -> ->; [reflexivity|].
  unfold recover.
  destruct err as [a|[| |b|n|s|n m st|fs]]; reflexivity.
Qed.

Lemma traced_headers (ids : RequestTrace) (duration : Z) (response : NextResponse) :
  let r := traced ids duration response in
  status r = status response ∧ body r = body response ∧
  headers_get (headers r) "X-Request-ID" = Some (requestId ids) ∧
  headers_get (headers r) "X-Trace-ID" = Some (traceId ids) ∧
  headers_get (headers r) "X-Span-ID" = Some (spanId ids) ∧
  headers_get (headers r) "X-Response-Time" = Some (String_of duration +:+ "ms") ∧
  (∀ name,
     ¬ In (toLowerCase name)
         ["x-request-id"; "x-trace-id"; "x-span-id"; "x-response-time"] →
     headers_get (headers r) name = headers_get (headers response) name).
Proof.
  unfold traced, headers_set, headers_get. cbn [status body headers].
  change (toLowerCase "X-Request-ID") with "x-request-id".
  change (toLowerCase "X-Trace-ID") with "x-trace-id".
  change (toLowerCase "X-Span-ID") with "x-span-id".
  change (toLowerCase "X-Response-Time") with "x-response-time".
  repeat split.
  - rewrite !lookup_insert_ne by discriminate. by rewrite lookup_insert_eq.
  - rewrite !lookup_insert_ne by discriminate. by rewrite lookup_insert_eq.
  - rewrite !lookup_insert_ne by discriminate. by rewrite lookup_insert_eq.
  - by rewrite lookup_insert_eq.
  - intros name Hn. cbn [In] in Hn.
    rewrite !lookup_insert_ne by (intros E; apply Hn; rewrite <- E; tauto).
    reflexivity.
Qed.

(** X12. When the handler returns a response, [withRequestLogging]
    returns it with its status and body, with the four tracing headers
    set to the request's identifiers and to the elapsed time, every other
    header as the handler set it, and the world as the handler left it. *)
Theorem withRequestLogging_traces (ids : RequestTrace) (startTime endTime : Z)
    (request : NextRequest) (handler : M NextResponse) (w : World)
    (response : NextResponse) :
  returned (handler w) = Some response →
  ∃ r, returned (withRequestLogging ids startTime endTime request handler w) = Some r ∧
       world (withRequestLogging ids startTime endTime request handler w)
       = world (handler w) ∧
       status r = status response ∧ body r = body response ∧
       headers_get (headers r) "X-Request-ID" = Some (requestId ids) ∧
       headers_get (headers r) "X-Trace-ID" = Some (traceId ids) ∧
       headers_get (headers r) "X-Span-ID" = Some (spanId ids) ∧
       headers_get (headers r) "X-Response-Time"
       = Some (String_of (endTime - startTime) +:+ "ms") ∧
       (∀ name,
          ¬ In (toLowerCase name)
              ["x-request-id"; "x-trace-id"; "x-span-id"; "x-response-time"] →
          headers_get (headers r) name = headers_get (headers response) name).
Proof.
  intros Hret.
  pose proof (withRequestLogging_obs ids startTime endTime request handler w) as H.
  unfold returned in Hret.
  destruct (outcome (handler w)) as [response'|] eqn:Hout; [|discriminate].
  injection Hret as ->.
  apply obs_returned in H as [Hr Hw].
  exists (traced ids (endTime - startTime) response).
  split; [exact Hr|]. split; [exact Hw|].
  apply traced_headers.
Qed.

Lemma withRequestLogging_traces_witness :
  ∃ r, returned (withRequestLogging (mkRequestTrace "req-1" "trace-1" "span-1")
                   1000 1042 Cases.health Scenario.handler Scenario.fresh) = Some r ∧
       status r = status Scenario.ok ∧
       headers_get (headers r) "X-Response-Time" = Some "42ms".
Proof.
  destruct (withRequestLogging_traces (mkRequestTrace "req-1" "trace-1" "span-1")
              1000 1042 Cases.health Scenario.handler Scenario.fresh Scenario.ok eq_refl)
    as (r & Hr & _ & Hs & _ & _ & _ & _ & Ht & _).
  exists r. repeat split; assumption.
Defined.

(** X13. When the handler throws, [withRequestLogging] throws too and
    leaves the world as the handler left it. It throws the handler's own
    value, except for [null] and [undefined]: reading their [name] for the
    analytics event fails, and the [TypeError] of that read is what the
    caller gets. *)
Theorem withRequestLogging_rethrows (ids : RequestTrace) (startTime endTime : Z)
    (request : NextRequest) (handler : M NextResponse) (w : World) (err : Thrown) :
  threw (handler w) = Some err →
  threw (withRequestLogging ids startTime endTime request handler w)
  = Some match err with
         | ThrownValue VNull | ThrownValue VUndefined => null_property
         | _ => err
         end ∧
  world (withRequestLogging ids startTime endTime request handler w)
  = world (handler w).
Proof.
  intros Hthrew.
  pose proof (withRequestLogging_obs ids startTime endTime request handler w) as H.
  unfold threw in Hthrew.
  destruct (outcome (handler w)) as [|err'] eqn:Hout; [discriminate|].
  injection Hthrew as ->.
  pose proof (f_equal fst H) as Ho. pose proof (f_equal snd H) as Hw.
  unfold obs in Ho, Hw. cbn [fst snd] in Ho, Hw.
  unfold threw. rewrite Ho. by split.
Qed.

Lemma withRequestLogging_rethrows_witness :
  threw (withRequestLogging (mkRequestTrace "req-1" "trace-1" "span-1")
           1000 1042 Cases.health (throw (ThrownValue VNull)) Scenario.fresh)
  = Some null_property.
Proof.
  apply (withRequestLogging_rethrows (mkRequestTrace "req-1" "trace-1" "span-1")
           1000 1042 Cases.health (throw (ThrownValue VNull)) Scenario.fresh
           (ThrownValue VNull) eq_refl).
Defined.

(** X14. A route made of [withMiddleware] around [withApiHandler] with
    an [async] handler always answers: whether the handler returns or
    throws, the caller gets a response and no exception, with status 200
    or the status of the normalised error, and with the four tracing
    headers; the status of an error that is thrown is to be an error
    status (400 to 599), as for [withApiHandler] alone. *)
Theorem wrapped_route_always_answers (ids : RequestTrace) (startTime endTime : Z)
    (request : NextRequest) (trace : string) (body : M Value) (w : World) :
  (∀ err, threw (body w) = Some err →
          400 ≤ statusCode (createAppErrorFromNative trace err) ≤ 599) →
  ∃ r, returned (withMiddleware ids startTime endTime request
                   (withApiHandler trace (async body)) w) = Some r ∧
       status r = match outcome (body w) with
                  | Returned _ => 200
                  | Threw err => statusCode (createAppErrorFromNative trace err)
                  end ∧
       headers_get (headers r) "X-Request-ID" = Some (requestId ids) ∧
       headers_get (headers r) "X-Trace-ID" = Some (traceId ids) ∧
       headers_get (headers r) "X-Span-ID" = Some (spanId ids) ∧
       headers_get (headers r) "X-Response-Time"
       = Some (String_of (endTime - startTime) +:+ "ms").
Proof.
  intros _. unfold withMiddleware.
  pose proof (withRequestLogging_obs ids startTime endTime request
                (withErrorHandling (withApiHandler trace (async body))) w) as H.
  rewrite obs_outcome, obs_world, withErrorHandling_obs in H.
  pose proof (withApiHandler_async trace body w) as Ha.
  assert (∃ r0, obs (withApiHandler trace (async body) w)
                = (Returned r0, world (body w)) ∧
                status r0 = match outcome (body w) with
                            | Returned _ => 200
                            | Threw err =>
                                statusCode (createAppErrorFromNative trace err)
                            end) as (r0 & Hr0 & Hs0).
  { destruct (outcome (body w)) as [data|err].
    - eexists. split; [exact Ha|reflexivity].
    - destruct (errorResponse_reply trace err None (world (body w)))
        as (r & Hrun & Hst & _).
      exists r. split; [congruence|exact Hst]. }
  rewrite Hr0 in H. cbn [fst snd] in H.
  apply obs_returned in H as [Hr _].
  exists (traced ids (endTime - startTime) r0). split; [exact Hr|].
  pose proof (traced_headers ids (endTime - startTime) r0)
    as (Hs & _ & H1 & H2 & H3 & H4 & _).
  cbv zeta in Hs. rewrite Hs, Hs0. by repeat split.
Qed.

Lemma wrapped_route_always_answers_witness :
  ∃ r, returned (withMiddleware (mkRequestTrace "req-1" "trace-1" "span-1")
                   1000 1042 Scenario.request
                   (withApiHandler "at GET"
                      (async (throw (ThrownApp Scenario.invalid_id))))
                   Scenario.fresh) = Some r ∧
       status r = 400 ∧
       headers_get (headers r) "X-Response-Time" = Some "42ms".
Proof.
  destruct (wrapped_route_always_answers
              (mkRequestTrace "req-1" "trace-1" "span-1") 1000 1042
              Scenario.request "at GET" (throw (ThrownApp Scenario.invalid_id))
              Scenario.fresh)
    as (r & Hr & Hs & _ & _ & _ & Ht).
  - intros err [= <-]. vm_compute. split; discriminate.
  - exists r. split; [exact Hr|]. split; [exact Hs|exact Ht].
Defined.

(** X15. The helpers for the common error responses return, never throw,
    and leave the world alone. Each answers with its own status and names
    its error type; the message is the caller's, or the helper's default
    when none is given. [serviceUnavailableResponse] answers 503 with the
    type [EXTERNAL_SERVICE_ERROR], whose status in the table is 502. *)
Theorem helper_responses (trace : string) (msg : option string) (w : World) :
  (∃ r, obs (notFoundResponse trace msg w) = (Returned r, w) ∧
        error_reply r 404 RESOURCE_NOT_FOUND (default "Resource not found" msg)) ∧
  (∃ r, obs (unauthorizedResponse trace msg w) = (Returned r, w) ∧
        error_reply r 401 AUTHENTICATION_ERROR (default "Unauthorized" msg)) ∧
  (∃ r, obs (forbiddenResponse trace msg w) = (Returned r, w) ∧
        error_reply r 403 AUTHORIZATION_ERROR (default "Forbidden" msg)) ∧
  (∃ r, obs (serviceUnavailableResponse trace msg w) = (Returned r, w) ∧
        error_reply r 503 EXTERNAL_SERVICE_ERROR (default "Service unavailable" msg) ∧
        ERROR_STATUS_MAP EXTERNAL_SERVICE_ERROR = 502) ∧
  (∀ m dets,
     ∃ r, obs (validationErrorResponse trace m dets w) = (Returned r, w) ∧
          error_reply r 400 VALIDATION_ERROR m ∧
          body_details (body r)
          = if truthy dets && negb (production (env w)) then Some dets else None).
Proof.
  repeat split.
  - exact (errorResponse_reply trace
             (ThrownApp (AppError_of trace (default "Resource not found" msg)
                           RESOURCE_NOT_FOUND None VUndefined)) (Some 404) w).
  - exact (errorResponse_reply trace
             (ThrownApp (AppError_of trace (default "Unauthorized" msg)
                           AUTHENTICATION_ERROR None VUndefined)) (Some 401) w).
  - exact (errorResponse_reply trace
             (ThrownApp (AppError_of trace (default "Forbidden" msg)
                           AUTHORIZATION_ERROR None VUndefined)) (Some 403) w).
  - destruct (errorResponse_reply trace
                (ThrownApp (AppError_of trace (default "Service unavailable" msg)
                              EXTERNAL_SERVICE_ERROR (Some 503) VUndefined))
                (Some 503) w) as (r & Hr & Hreply).
    exists r. split; [exact Hr|]. split; [exact Hreply|reflexivity].
  - intros m dets.
    destruct (errorResponse_reply trace
                (ThrownApp (AppError_of trace m VALIDATION_ERROR (Some 400) dets))
                (Some 400) w) as (r & Hr & Hreply).
    exists r. split; [exact Hr|]. split; [exact Hreply|].
    unfold validationErrorResponse in Hr. rewrite errorResponse_run in Hr.
    injection Hr as <-.
    cbn [body NextResponse_json].
    pose proof (createErrorResponse_body (env w) trace
                  (ThrownApp (AppError_of trace m VALIDATION_ERROR (Some 400) dets)))
      as (_ & _ & _ & _ & Hd & _).
    cbv zeta in Hd. rewrite Hd.
    unfold createErrorResponse.
    cbn [AppError_of new_AppError details stack].
    destruct (production (env w)), (truthy dets), (nonempty trace); reflexivity.
Qed.

Lemma ceil_div_bounds (a b : Z) :
  0 < b → b * (ceil_div a b - 1) < a ≤ b * ceil_div a b.
Proof.
  intros Hb. unfold ceil_div.
  pose proof (Z.div_mod (- a) b ltac:(lia)).
  pose proof (Z.mod_pos_bound (- a) b Hb). lia.
Qed.

(** X16. For a positive page size, [paginatedResponse] answers 200 with
    the data and a [meta] block whose flags agree with its page count:
    [totalPages] is the least number of pages that holds [total] items,
    [hasNext] is set exactly for a page before the last one, and
    [hasPrev] exactly for a page after the first. *)
Theorem paginatedResponse_meta (data : Value) (page limit total : Z)
    (msg : option string) :
  0 < limit →
  let r := paginatedResponse data page limit total msg in
  ∃ pages hasNext hasPrev,
    status r = 200 ∧ field "data" (body r) = Some data ∧
    meta_field "totalPages" r = Some (VNum pages) ∧
    meta_field "hasNext" r = Some (VBool hasNext) ∧
    meta_field "hasPrev" r = Some (VBool hasPrev) ∧
    limit * (pages - 1) < total ≤ limit * pages ∧
    (hasNext = true ↔ page < pages) ∧
    (hasPrev = true ↔ 1 < page).
Proof.
  intros Hlimit r.
  exists (ceil_div total limit), (page * limit <? total), (page >? 1).
  pose proof (ceil_div_bounds total limit Hlimit) as Hc.
  assert (∀ k, meta_field k r
               = assoc k [ ("page", VNum page); ("limit", VNum limit);
                           ("total", VNum total);
                           ("totalPages", VNum (ceil_div total limit));
                           ("hasNext", VBool (page * limit <? total));
                           ("hasPrev", VBool (page >? 1)) ]) as Hmeta.
  { intros k. unfold meta_field, r, paginatedResponse, successResponse,
      NextResponse_json, createSuccessResponse. cbn [body truthy].
    destruct msg as [m|]; [destruct (nonempty m)|]; reflexivity. }
  split; [reflexivity|].
  split; [unfold r, paginatedResponse, successResponse, NextResponse_json,
            createSuccessResponse; reflexivity|].
  rewrite !Hmeta.
  split; [reflexivity|]. split; [reflexivity|]. split; [reflexivity|].
  split; [exact Hc|].
  split.
  - rewrite Z.ltb_lt. split; intros; nia.
  - rewrite Z.gtb_gt. lia.
Qed.

Lemma paginatedResponse_meta_witness :
  ∃ pages hasNext hasPrev,
    meta_field "totalPages" (paginatedResponse (VObject []) 3 10 25 None)
    = Some (VNum pages) ∧
    10 * (pages - 1) < 25 ≤ 10 * pages ∧
    (hasNext = true ↔ 3 < pages) ∧ (hasPrev = true ↔ 1 < 3).
Proof.
  destruct (paginatedResponse_meta (VObject []) 3 10 25 None ltac:(lia))
    as (pages & hasNext & hasPrev & _ & _ & Hp & _ & _ & Hb & Hn & Hv).
  exists pages, hasNext, hasPrev.
  split; [exact Hp|]. split; [exact Hb|]. split; [exact Hn|exact Hv].
Defined.

(** ** The cache client and [withCache] *)

Lemma CacheClient_set_run (c : CacheClient) (key : string) (v : KVText)
    (ttl : option Z) (w : World) :
  obs (CacheClient_set c key v ttl w) =
  (Returned tt, if put_fails (kv w) then w else written key v ttl w).
Proof. apply (CacheClient_put_run c key v ttl w). Qed.

Lemma CacheClient_delete_run (rejects : bool) (c : CacheClient) (key : string)
    (w : World) :
  obs (CacheClient_delete rejects c key w)
  = (Returned tt, if rejects then w else removed key w).
Proof. destruct rejects; reflexivity. Qed.




Lemma cache_hit_before_fn (delete_rejects : bool) (key : string) (w : World)
    (v : Parsed) :
  cache_hit w key = Some v → before_fn delete_rejects key w = w.
Proof.
  unfold cache_hit, before_fn.
  by destruct (fetched w key) as [[| | |c f]|].
Qed.


Section WithCacheRuns.

Context {T : Type} (stringify : T → M (option KVText)) (as_T : Parsed → T)
  (put_undefined : string → option Z → M unit).

Lemma withCache_lookup (delete_rejects : bool) (cache : CacheClient) (key : string)
    (cached : option KVText) (w : World) :
  fetched w key = cached →
  obs (match cached with
       | Some text =>
           if text_truthy text then
             try_catch
               (trackCacheAccess key true;;
                v ← JSON_parse text;
                mret (Some (as_T v)))
               (λ _, CacheClient_delete delete_rejects cache key;; mret None)
           else mret None
       | None => mret None
       end w)
  = (Returned (as_T <$> cache_hit w key), before_fn delete_rejects key w).
Proof.
  intros H. unfold cache_hit, before_fn. rewrite H.
  destruct cached as [[| | |c f]|]; try reflexivity.
  destruct delete_rejects; reflexivity.
Qed.

Lemma CacheClient_set_result_returns (c : CacheClient) (key : string)
    (text : option KVText) (ttl : option Z) (w : World) :
  outcome (CacheClient_set_result put_undefined c key text ttl w) = Returned tt ∧
  (∀ t, text = Some t →
        world (CacheClient_set_result put_undefined c key text ttl w)
        = if put_fails (kv w) then w else written key t ttl w).
Proof.
  destruct text as [t|]; cbn [CacheClient_set_result].
  - pose proof (CacheClient_set_run c key t ttl w) as H.
    pose proof (f_equal fst H) as Ho. pose proof (f_equal snd H) as Hw.
    unfold obs in Ho, Hw. cbn [fst snd] in Ho, Hw.
    split; [exact Ho|]. by intros t' [= <-].
  - split; [|intros t [=]]. unfold try_catch. cbv zeta.
    destruct (outcome (put_undefined key ttl w)) as [[]|] eqn:E;
      [exact E|reflexivity].
Qed.

(** The end of [withCache] after [fn] returned [result] in the world [w]. *)
Lemma withCache_store (cache : CacheClient) (key : string) (result : T)
    (ttl : option Z) (w : World) :
  obs ((text ← stringify result;
        CacheClient_set_result put_undefined cache key text ttl;;
        trackCacheAccess key false;;
        mret result) w)
  = match outcome (stringify result w) with
    | Returned text =>
        (Returned result,
         world (CacheClient_set_result put_undefined cache key text ttl
                  (world (stringify result w))))
    | Threw e => (Threw e, world (stringify result w))
    end.
Proof.
  rewrite obs_bind.
  destruct (outcome (stringify result w)) as [text|e]; [|reflexivity].
  generalize (world (stringify result w)). intros w1.
  rewrite obs_bind.
  destruct (CacheClient_set_result_returns cache key text ttl w1) as [Ho _].
  rewrite Ho. reflexivity.
Qed.

Lemma withCache_obs (delete_rejects : bool) (key : string) (fn : M T)
    (ttl : option Z) (w : World) :
  obs (withCache stringify as_T put_undefined delete_rejects key fn ttl w)
  = if available w then
      match cache_hit w key with
      | Some v => (Returned (as_T v), w)
      | None =>
          let r := fn (before_fn delete_rejects key w) in
          match outcome r with
          | Returned result =>
              let s := stringify result (world r) in
              match outcome s with
              | Returned text =>
                  (Returned result,
                   world (CacheClient_set_result put_undefined
                            (new_CacheClient the_KV) key text
                            (Some (default 3600 ttl)) (world s)))
              | Threw e => (Threw e, world s)
              end
          | Threw e => (Threw e, world r)
          end
      end
    else obs (fn w).
Proof.
  unfold withCache.
  rewrite obs_bind, obs_outcome, obs_world, createCacheClient_run. cbn [fst snd].
  destruct (available w); [|reflexivity].
  rewrite obs_bind, obs_outcome, obs_world, CacheClient_get_run. cbn [fst snd].
  rewrite obs_bind, obs_outcome, obs_world.
  rewrite (withCache_lookup delete_rejects (new_CacheClient the_KV) key
             (fetched w key) w eq_refl).
  cbn [fst snd].
  destruct (cache_hit w key) as [v|] eqn:Hhit; cbn [fmap option_fmap option_map].
  { rewrite (cache_hit_before_fn delete_rejects key w v Hhit). reflexivity. }
  generalize (before_fn delete_rejects key w). intros w0.
  rewrite obs_bind. cbv zeta.
  destruct (outcome (fn w0)) as [result|e]; [|reflexivity].
  apply withCache_store.
Qed.

End WithCacheRuns.

(** X17. Without the bindings [withCache] is [fn]: it runs [fn] in the
    world as it is and ends as [fn] ends, in the world [fn] leaves. *)
Theorem withCache_without_store {T : Type} (stringify : T → M (option KVText))
    (as_T : Parsed → T) (put_undefined : string → option Z → M unit)
    (delete_rejects : bool) (key : string) (fn : M T) (ttl : option Z)
    (w : World) :
  available w = false →
  outcome (withCache stringify as_T put_undefined delete_rejects key fn ttl w)
  = outcome (fn w) ∧
  world (withCache stringify as_T put_undefined delete_rejects key fn ttl w)
  = world (fn w).
Proof.
  intros Hw.
  pose proof (withCache_obs stringify as_T put_undefined delete_rejects key fn
                ttl w) as H.
  rewrite Hw in H. unfold obs in H. by injection H.
Qed.

Lemma withCache_without_store_witness :
  outcome (Cases.cached_json false "posts" (mret ParsedNull) None Scenario.unbound)
  = Returned ParsedNull.
Proof.
  destruct (withCache_without_store (λ v, mret (Some (JSON_of v))) id
              (λ _ _, mret tt) false "posts" (mret ParsedNull) None
              Scenario.unbound eq_refl) as [H _].
  exact H.
Defined.





(** X20. The store never fails a call of [withCache]. When there is no
    value to return, [withCache] throws what [fn] throws, and nothing is
    written after it; when [fn] returns and [JSON.stringify] returns for
    its result, [withCache] returns that result, whether the store rejects
    the read, the delete or the write, or holds an entry that is no JSON.
    Only [JSON.stringify] can fail it: evaluated outside the [try] of
    [set], what it throws on a result that cannot be serialised is thrown
    by [withCache], although [fn] returned, and nothing is written. *)
Theorem withCache_ends_as_fn {T : Type} (stringify : T → M (option KVText))
    (as_T : Parsed → T) (put_undefined : string → option Z → M unit)
    (delete_rejects : bool) (key : string) (fn : M T) (ttl : option Z)
    (w : World) :
  available w = true →
  cache_hit w key = None →
  let r := fn (before_fn delete_rejects key w) in
  let run := withCache stringify as_T put_undefined delete_rejects key fn ttl w in
  (∀ e, outcome r = Threw e → outcome run = Threw e ∧ world run = world r) ∧
  (∀ result, outcome r = Returned result →
     let s := stringify result (world r) in
     (∀ e, outcome s = Threw e → outcome run = Threw e ∧ world run = world s) ∧
     (∀ text, outcome s = Returned text →
        outcome run = Returned result ∧
        (∀ t, text = Some t → put_fails (kv (world s)) = true →
              world run = world s))) ∧
  (get_fails (kv w) = true ∨ delete_rejects = true →
   before_fn delete_rejects key w = w).
Proof.
  intros Hw Hmiss r run.
  pose proof (withCache_obs stringify as_T put_undefined delete_rejects key fn
                ttl w) as H.
  rewrite Hw, Hmiss in H. cbv zeta in H. fold r in H. fold run in H.
  pose proof (f_equal fst H) as Ho. pose proof (f_equal snd H) as Hwd.
  unfold obs in Ho, Hwd. cbn [fst snd] in Ho, Hwd. clear H.
  split; [|split].
  - intros e He. rewrite He in Ho, Hwd. by split.
  - intros result Hres s. rewrite Hres in Ho, Hwd. fold s in Ho, Hwd. split.
    + intros e He. rewrite He in Ho, Hwd. by split.
    + intros text Ht. rewrite Ht in Ho, Hwd. split; [exact Ho|].
      intros t -> Hp. rewrite Hwd.
      destruct (CacheClient_set_result_returns put_undefined
                  (new_CacheClient the_KV) key (Some t)
                  (Some (default 3600 ttl)) (world s)) as [_ Hset].
      by rewrite (Hset t eq_refl), Hp.
  - unfold before_fn, fetched. intros [Hg|Hd].
    + by rewrite Hg.
    + rewrite Hd. by destruct (if get_fails (kv w) then None else stored w key)
        as [[| | |]|].
Qed.

Lemma withCache_ends_as_fn_witness :
  outcome (Cases.cached_json true "rate-limit:1.2.3.4" (mret ParsedNull) None
             Scenario.unreadable)
  = Returned ParsedNull ∧
  threw (Cases.cached_bigint "posts" Scenario.fresh)
  = Some (ThrownValue
            (VError "TypeError" "Do not know how to serialize a BigInt" None)).
Proof.
  split.
  - destruct (withCache_ends_as_fn (λ v, mret (Some (JSON_of v))) id
                (λ _ _, mret tt) true "rate-limit:1.2.3.4" (mret ParsedNull) None
                Scenario.unreadable
                ltac:(vm_compute; reflexivity) ltac:(vm_compute; reflexivity))
      as (_ & H & _).
    destruct (H ParsedNull ltac:(vm_compute; reflexivity)) as [_ H'].
    apply (H' (Some TextNull)). vm_compute. reflexivity.
  - vm_compute. reflexivity.
Defined.

(** X21. The methods of [CacheClient] never throw. [get] answers with the
    entry, or with [null] when the namespace rejects the read; [set] and
    [delete] change the one key when the namespace accepts them and
    nothing at all when it rejects them. So on a namespace that accepts,
    [get] after [set] is the value set and [get] after [delete] is
    [null]. *)
Theorem CacheClient_never_throws (c : CacheClient) (key : string) (v : KVText)
    (ttl : option Z) (rejects : bool) (w : World) :
  obs (CacheClient_get c key w)
  = (Returned (if get_fails (kv w) then None else stored w key), w) ∧
  (∃ w', obs (CacheClient_set c key v ttl w) = (Returned tt, w') ∧
         (put_fails (kv w) = true → w' = w) ∧
         (put_fails (kv w) = false →
          fetched w' key = fetched (written key v ttl w) key ∧
          (get_fails (kv w) = false → fetched w' key = Some v) ∧
          ∀ other, other ≠ key → stored w' other = stored w other)) ∧
  (∃ w', obs (CacheClient_delete rejects c key w) = (Returned tt, w') ∧
         (rejects = true → w' = w) ∧
         (rejects = false →
          stored w' key = None ∧
          ∀ other, other ≠ key → stored w' other = stored w other)).
Proof.
  split; [apply CacheClient_get_run|]. split.
  - eexists. split; [apply CacheClient_set_run|].
    split; [by intros ->|]. intros ->.
    split; [reflexivity|]. split.
    + intros Hg. by rewrite fetched_stored, stored_written.
    + intros other Hne. by apply stored_written_ne.
  - eexists. split; [apply CacheClient_delete_run|].
    split; [by intros ->|]. intros ->.
    unfold stored, removed. cbn [kv entries]. split.
    + by rewrite lookup_delete_eq.
    + intros other Hne. by rewrite lookup_delete_ne.
Qed.

(** ** The database client and [withRepositories] *)

Lemma createPrismaClient_obs (iso : Isolate) (w : World) :
  obs (createPrismaClient iso w)
  = (Returned
       (if DB (env w) then
          match prismaClient iso with
          | Some client => (Some client, iso)
          | None =>
              (Some (new_PrismaClient (constructed iso)),
               mkIsolate (Some (new_PrismaClient (constructed iso)))
                 (S (constructed iso)))
          end
        else (None, iso)), w).
Proof.
  destruct w as [[ne rle rmax rws [|] kvb] k]; [|reflexivity].
  destruct iso as [[client|] n]; reflexivity.
Qed.

(** X22. [createPrismaClient] keeps one client per isolate. With the
    [DB] binding it returns a client and caches it; every later call
    returns that client and constructs nothing, in whatever world has the
    binding, and returns [null] without dropping the client in a world
    that has not. After [resetPrismaClient] the next call constructs a
    client, which is not the one before. *)
Theorem createPrismaClient_singleton (iso : Isolate) (w : World) :
  DB (env w) = true →
  consistent iso →
  ∃ client iso1,
    obs (createPrismaClient iso w) = (Returned (Some client, iso1), w) ∧
    prismaClient iso1 = Some client ∧
    consistent iso1 ∧
    (∀ w', obs (createPrismaClient iso1 w')
           = (Returned (if DB (env w') then Some client else None, iso1), w')) ∧
    (∃ client' iso2,
       obs (createPrismaClient (resetPrismaClient iso1) w)
       = (Returned (Some client', iso2), w) ∧
       client' ≠ client ∧
       constructed iso2 = S (constructed iso1)).
Proof.
  intros Hdb Hc.
  pose proof (createPrismaClient_obs iso w) as H. rewrite Hdb in H.
  destruct iso as [[[serial]|] n]; unfold consistent in Hc; cbn in Hc, H.
  - exists (new_PrismaClient serial), (mkIsolate (Some (new_PrismaClient serial)) n).
    split; [exact H|]. split; [reflexivity|]. split; [exact Hc|]. split.
    + intros w'. rewrite createPrismaClient_obs. by destruct (DB (env w')).
    + eexists _, _. split.
      * rewrite createPrismaClient_obs, Hdb. reflexivity.
      * split; [cbn; intros [= ->]; lia | reflexivity].
  - exists (new_PrismaClient n), (mkIsolate (Some (new_PrismaClient n)) (S n)).
    split; [exact H|]. split; [reflexivity|].
    split; [unfold consistent; cbn; lia|]. split.
    + intros w'. rewrite createPrismaClient_obs. by destruct (DB (env w')).
    + eexists _, _. split.
      * rewrite createPrismaClient_obs, Hdb. reflexivity.
      * split; [cbn; intros [= E]; lia | reflexivity].
Qed.

Lemma createPrismaClient_singleton_witness :
  ∃ client iso1,
    obs (createPrismaClient (mkIsolate None 0) Scenario.fresh)
    = (Returned (Some client, iso1), Scenario.fresh) ∧
    prismaClient iso1 = Some client.
Proof.
  destruct (createPrismaClient_singleton (mkIsolate None 0) Scenario.fresh
              eq_refl I) as (client & iso1 & H & Hp & _).
  exists client, iso1. split; [exact H|exact Hp].
Defined.

Lemma withMiddleware_obs (ids : RequestTrace) (startTime endTime : Z)
    (request : NextRequest) (handler : M NextResponse) (w : World) :
  obs (withMiddleware ids startTime endTime request handler w)
  = match outcome (handler w) with
    | Returned response =>
        (Returned (traced ids (endTime - startTime) response), world (handler w))
    | Threw err =>
        (Threw match err with
               | ThrownValue VNull | ThrownValue VUndefined => null_property
               | _ => err
               end, world (handler w))
    end.
Proof.
  unfold withMiddleware. rewrite withRequestLogging_obs.
  pose proof (withErrorHandling_obs handler w) as H.
  pose proof (f_equal fst H) as Ho. pose proof (f_equal snd H) as Hw.
  unfold obs in Ho, Hw. cbn [fst snd] in Ho, Hw.
  rewrite Ho, Hw. reflexivity.
Qed.

(** X23. [withRepositories] needs the database. Without the [DB] binding
    it throws the [DatabaseConnectionError] ['Database not available'],
    of status 503, to its caller; the handler is not run and the world is
    left as it is. With the binding it is [withMiddleware] around the
    handler, which gets the repositories of the isolate's client. *)
Theorem withRepositories_needs_database (ids : RequestTrace)
    (startTime endTime : Z) (trace : string) (iso : Isolate)
    (request : NextRequest) (handler : RepositoryFactory → M NextResponse)
    (w : World) :
  let unavailable := DatabaseConnectionError trace "Database not available" VUndefined in
  let client := default (new_PrismaClient (constructed iso)) (prismaClient iso) in
  statusCode unavailable = 503 ∧
  obs (withRepositories ids startTime endTime trace iso request handler w)
  = if DB (env w)
    then obs (withMiddleware ids startTime endTime request
                (handler (createRepositories client)) w)
    else (Threw (ThrownApp unavailable), w).
Proof.
  intros unavailable client. split; [reflexivity|].
  unfold withRepositories. rewrite !withMiddleware_obs.
  match goal with
  | |- match outcome (?b w) with _ => _ end = _ => set (body := b)
  end.
  assert (obs (body w)
          = if DB (env w) then obs (handler (createRepositories client) w)
            else (Threw (ThrownApp unavailable), w)) as Hbody.
  { unfold body. rewrite obs_bind.
    pose proof (createPrismaClient_obs iso w) as H.
    pose proof (f_equal fst H) as Ho. pose proof (f_equal snd H) as Hw.
    unfold obs in Ho, Hw. cbn [fst snd] in Ho, Hw. rewrite Ho, Hw.
    destruct (DB (env w)); [|reflexivity].
    subst client. destruct (prismaClient iso); reflexivity. }
  pose proof (f_equal fst Hbody) as Ho. pose proof (f_equal snd Hbody) as Hw.
  unfold obs in Ho, Hw. cbn [fst snd] in Ho, Hw.
  rewrite Ho, Hw. by destruct (DB (env w)).
Qed.

(** ** The logger *)

(** X24. The level filter of the logger is a threshold: a level passes
    when a lower one does, [ERROR] passes under every configuration, and
    [DEBUG] only under [LOG_LEVEL = DEBUG]. *)
Theorem shouldLog_threshold (env : Logging.Env) :
  (∀ level level',
     Logging.shouldLog env level = true →
     Logging.LOG_LEVEL_PRIORITY level ≤ Logging.LOG_LEVEL_PRIORITY level' →
     Logging.shouldLog env level' = true) ∧
  Logging.shouldLog env Logging.ERROR = true ∧
  (Logging.shouldLog env Logging.DEBUG = true ↔
   Logging.LOG_LEVEL env = Logging.DEBUG).
Proof.
  unfold Logging.shouldLog.
  split; [|split].
  - intros level level'. rewrite !Z.geb_le. lia.
  - apply geb_true. destruct (Logging.LOG_LEVEL env); cbn; lia.
  - rewrite Z.geb_le. destruct (Logging.LOG_LEVEL env); cbn; split;
      intros; (reflexivity || lia || discriminate).
Qed.

Lemma spread_lookup (a b : gmap string Value) (k : string) :
  Logging.spread a b !! k = match b !! k with Some v => Some v | None => a !! k end.
Proof.
  unfold Logging.spread. rewrite lookup_union.
  destruct (b !! k), (a !! k); reflexivity.
Qed.

Lemma createLogEntry_logged (this : Logging.Logger) (level : Logging.LogLevel)
    (msg : string) (metadata : gmap string Value) (k : string) :
  logged k (Logging.createLogEntry this level msg metadata)
  = Logging.spread (Logging.defaultMetadata this) metadata !! k.
Proof.
  unfold logged, Logging.createLogEntry. cbn [Logging.entry_metadata].
  destruct (decide _) as [->|]; [|reflexivity].
  by rewrite lookup_empty.
Qed.

(** X25. [http] chooses the level by the status: a 5xx line is an
    [ERROR], written to [console.error] under every configuration; a 4xx
    line is a [WARN], dropped only under [LOG_LEVEL = ERROR]; any other
    line is an [INFO], dropped under [WARN] and [ERROR]. A line that is
    written carries the logger's context and the status, method and path
    of the call, which win over metadata of the same name. *)
Theorem http_level_by_status (env : Logging.Env) (this : Logging.Logger)
    (method path : string) (statusCode duration : Z)
    (metadata : gmap string Value) :
  let line := Logging.http env this method path statusCode duration metadata in
  let level := if statusCode >=? 500 then Logging.ERROR
               else if statusCode >=? 400 then Logging.WARN else Logging.INFO in
  (500 ≤ statusCode →
   ∃ entry, line = Some entry ∧ Logging.write entry = Logging.to_console_error) ∧
  (400 ≤ statusCode < 500 →
   (line = None ↔ Logging.LOG_LEVEL env = Logging.ERROR) ∧
   ∀ entry, line = Some entry → Logging.write entry = Logging.to_console_warn) ∧
  (statusCode < 400 →
   (line = None ↔ Logging.LOG_LEVEL env = Logging.WARN ∨
                  Logging.LOG_LEVEL env = Logging.ERROR) ∧
   ∀ entry, line = Some entry → Logging.write entry = Logging.to_console_info) ∧
  (∀ entry, line = Some entry →
     Logging.entry_level entry = level ∧
     Logging.entry_context entry = Logging.context this ∧
     logged "statusCode" entry = Some (VNum statusCode) ∧
     logged "method" entry = Some (VStr method) ∧
     logged "path" entry = Some (VStr path)).
Proof.
  intros line level.
  set (entry := Logging.createLogEntry this level
                  (method +:+ " " +:+ path +:+ " " +:+ String_of statusCode
                   +:+ " - " +:+ String_of duration +:+ "ms")
                  (Logging.spread metadata
                     (list_to_map
                        [ ("method", VStr method); ("path", VStr path);
                          ("statusCode", VNum statusCode);
                          ("duration", VNum duration);
                          ("durationMs", VStr (String_of duration +:+ "ms")) ]))).
  assert (line = if Logging.shouldLog env level then Some entry else None)
    as Hline.
  { unfold line, Logging.http. fold level. fold entry.
    by destruct (Logging.shouldLog env level). }
  assert (Logging.entry_level entry = level) as Hlevel by reflexivity.
  assert (Logging.entry_context entry = Logging.context this) as Hcontext
    by reflexivity.
  assert (∀ k, logged k entry
               = Logging.spread (Logging.defaultMetadata this)
                   (Logging.spread metadata
                      (list_to_map
                         [ ("method", VStr method); ("path", VStr path);
                           ("statusCode", VNum statusCode);
                           ("duration", VNum duration);
                           ("durationMs", VStr (String_of duration +:+ "ms")) ]))
                 !! k) as Hlogged
    by (intros k; apply createLogEntry_logged).
  assert (level = if statusCode >=? 500 then Logging.ERROR
                  else if statusCode >=? 400 then Logging.WARN else Logging.INFO)
    as Hchoice by reflexivity.
  clearbody entry level line. subst line.
  unfold Logging.write, Logging.shouldLog.
  split; [|split; [|split]].
  - intros Hs. rewrite (geb_true statusCode 500) in Hchoice by lia.
    rewrite Hchoice in Hlevel |- *.
    exists entry. rewrite Hlevel.
    split; [|reflexivity]. by destruct (Logging.LOG_LEVEL env).
  - intros Hs.
    rewrite (geb_false statusCode 500), (geb_true statusCode 400) in Hchoice by lia.
    rewrite Hchoice in Hlevel |- *. split.
    + destruct (Logging.LOG_LEVEL env); cbn; split; intros H;
        (reflexivity || discriminate).
    + intros e He. destruct (_ >=? _) in He; [|discriminate].
      injection He as <-. by rewrite Hlevel.
  - intros Hs.
    rewrite (geb_false statusCode 500), (geb_false statusCode 400) in Hchoice by lia.
    rewrite Hchoice in Hlevel |- *. split.
    + destruct (Logging.LOG_LEVEL env); cbn; split; intros H;
        try reflexivity; try discriminate; try tauto;
        destruct H; discriminate.
    + intros e He. destruct (_ >=? _) in He; [|discriminate].
      injection He as <-. by rewrite Hlevel.
  - intros e He. destruct (_ >=? _) in He; [|discriminate].
    injection He as <-.
    split; [exact Hlevel|]. split; [exact Hcontext|].
    rewrite !Hlogged, !spread_lookup. by repeat split.
Qed.

Lemma substring_prefix (n : nat) (s : string) :
  String.prefix (String.substring 0 n s) s = true.
Proof.
  revert s. induction n as [|n IH]; intros [|c s]; try reflexivity.
  change (String.substring 0 (S n) (String c s))
    with (String c (String.substring 0 n s)).
  change (String.prefix (String c (String.substring 0 n s)) (String c s))
    with (match Ascii.ascii_dec c c with
          | left _ => String.prefix (String.substring 0 n s) s
          | right _ => false
          end).
  destruct (Ascii.ascii_dec c c); [apply IH|congruence].
Qed.

Lemma substring_whole (n : nat) (s : string) :
  (String.length s ≤ n)%nat → String.substring 0 n s = s.
Proof.
  revert s. induction n as [|n IH]; intros [|c s] Hl; try reflexivity.
  - cbn in Hl. lia.
  - change (String.substring 0 (S n) (String c s))
      with (String c (String.substring 0 n s)).
    rewrite IH; [reflexivity|]. cbn in Hl. lia.
Qed.

(** X26. [query] logs a query by its duration against the slow-query
    threshold: one within the threshold is a [DEBUG] line, written only
    under [LOG_LEVEL = DEBUG]; a slower one is a [WARN] line marked slow,
    dropped only under [LOG_LEVEL = ERROR]. The SQL a line carries is the
    first 200 characters of the statement, the whole of it when it is no
    longer. *)
Theorem query_level_by_duration (env : Logging.Env) (this : Logging.Logger)
    (sql : string) (duration : Z) (metadata : gmap string Value) :
  let threshold := or_else (Some (Logging.SLOW_QUERY_THRESHOLD_MS env)) 1000 in
  let line := Logging.query env this sql duration metadata in
  (duration ≤ threshold →
   (line = None ↔ Logging.LOG_LEVEL env ≠ Logging.DEBUG) ∧
   ∀ entry, line = Some entry →
     Logging.write entry = Logging.to_console_debug ∧
     logged "slow" entry = Some (VBool false)) ∧
  (threshold < duration →
   (line = None ↔ Logging.LOG_LEVEL env = Logging.ERROR) ∧
   ∀ entry, line = Some entry →
     Logging.write entry = Logging.to_console_warn ∧
     logged "slow" entry = Some (VBool true)) ∧
  (∀ entry, line = Some entry →
     ∃ text, logged "sql" entry = Some (VStr text) ∧
             (String.length text ≤ 200)%nat ∧
             String.prefix text sql = true ∧
             ((String.length sql ≤ 200)%nat → text = sql)).
Proof.
  intros threshold line.
  set (level := if duration >? threshold then Logging.WARN else Logging.DEBUG).
  set (fields := Logging.spread metadata
                   (list_to_map
                      [ ("sql", VStr (String.substring 0 200 sql));
                        ("duration", VNum duration);
                        ("durationMs", VStr (String_of duration +:+ "ms"));
                        ("slow", VBool (duration >? threshold)) ])).
  set (entry := Logging.createLogEntry this level
                  (if duration >? threshold
                   then "Slow query detected: " +:+ String_of duration +:+ "ms"
                   else "Query executed: " +:+ String_of duration +:+ "ms")
                  fields).
  assert (line = if Logging.shouldLog env level then Some entry else None)
    as Hline.
  { unfold line, Logging.query. fold threshold. fold level. fold fields.
    fold entry. by destruct (Logging.shouldLog env level). }
  assert (Logging.entry_level entry = level) as Hlevel by reflexivity.
  assert (∀ k, logged k entry
               = Logging.spread (Logging.defaultMetadata this) fields !! k)
    as Hlogged by (intros k; apply createLogEntry_logged).
  assert (level = if duration >? threshold then Logging.WARN else Logging.DEBUG)
    as Hchoice by reflexivity.
  assert (∀ k v,
            (list_to_map
               [ ("sql", VStr (String.substring 0 200 sql));
                 ("duration", VNum duration);
                 ("durationMs", VStr (String_of duration +:+ "ms"));
                 ("slow", VBool (duration >? threshold)) ]
             : gmap string Value) !! k = Some v →
            Logging.spread (Logging.defaultMetadata this) fields !! k = Some v)
    as Hfield.
  { intros k v Hk. unfold fields. rewrite !spread_lookup. by rewrite Hk. }
  clearbody entry level line fields. subst line.
  unfold Logging.write, Logging.shouldLog.
  split; [|split].
  - intros Hd. rewrite (gtb_false duration threshold) in Hchoice, Hfield by lia.
    rewrite Hchoice in Hlevel |- *. split.
    + destruct (Logging.LOG_LEVEL env); cbn; split; intros H;
        try reflexivity; try discriminate; congruence.
    + intros e He. destruct (_ >=? _) in He; [|discriminate].
      injection He as <-. rewrite Hlevel, Hlogged.
      split; [reflexivity|]. by apply Hfield.
  - intros Hd. rewrite (gtb_true duration threshold) in Hchoice, Hfield by lia.
    rewrite Hchoice in Hlevel |- *. split.
    + destruct (Logging.LOG_LEVEL env); cbn; split; intros H;
        (reflexivity || discriminate).
    + intros e He. destruct (_ >=? _) in He; [|discriminate].
      injection He as <-. rewrite Hlevel, Hlogged.
      split; [reflexivity|]. by apply Hfield.
  - intros e He. destruct (_ >=? _) in He; [|discriminate].
    injection He as <-.
    exists (String.substring 0 200 sql).
    split; [rewrite Hlogged; by apply Hfield|].
    split; [apply substring_length|].
    split; [apply substring_prefix|apply substring_whole].
Qed.

(** ** The rate-limit route *)

Lemma Date_toISOString_run (t : Z) (w : World) :
  -8640000000000000 ≤ t ≤ 8640000000000000 →
  ∃ text, Date_toISOString t w = mkRun (Returned text) w [].
Proof.
  intros Ht. unfold Date_toISOString.
  assert ((t <? -8640000000000000) || (8640000000000000 <? t) = false) as ->.
  { apply orb_false_iff. split; apply Z.ltb_ge; lia. }
  destruct (civil_from_days (t / 86400000)) as [[y m] d].
  eexists. reflexivity.
Qed.

Lemma effective_config_none (e : ProcessEnv) :
  effective_config e None = env_config e.
Proof. reflexivity. Qed.

Lemma status_of_allowed (config : RateLimitConfig) (c f : Z) :
  c < maxRequests config →
  status_of config (c, f)
  = mkRateLimitStatus true (maxRequests config - (c + 1))
      (f + windowSeconds config * 1000) (maxRequests config).
Proof. intros Hc. unfold status_of. cbn [fst snd]. by rewrite geb_false by lia. Qed.

Lemma world_after_allowed (config : RateLimitConfig) (key : string) (c f : Z)
    (w : World) :
  c < maxRequests config → put_fails (kv w) = false →
  world_after config key (c, f) w
  = written key (JSON_stringify (c + 1) f) (Some (windowSeconds config)) w.
Proof.
  intros Hc Hput. unfold world_after. cbn [fst snd].
  by rewrite geb_false, Hput by lia.
Qed.

Lemma seen_after_check (seen : Z) (request : NextRequest) (w : World) (c f : Z) :
  healthy w →
  let config := env_config (env w) in
  let key := rate_key config (getClientIdentifier request) in
  f ≠ 0 → 0 ≤ c < maxRequests config →
  seen ≤ f + windowSeconds config * 1000 →
  let w1 := written key (JSON_stringify (c + 1) f) (Some (windowSeconds config)) w in
  obs (getRateLimitStatus seen request None w1)
  = (Returned (mkRateLimitStatus (c + 1 <? maxRequests config)
                 (maxRequests config - (c + 1)) (f + windowSeconds config * 1000)
                 (maxRequests config)), w1).
Proof.
  intros (Hav & Hget & Hput) config key Hf Hc Hseen w1.
  rewrite getRateLimitStatus_run.
  change (effective_config (env w1) None) with config. fold key.
  assert (available w1 = true) as -> by exact Hav.
  rewrite fetched_stored by exact Hget.
  unfold w1. rewrite stored_written.
  unfold status_seen, JSON_stringify.
  rewrite or_else_zero, or_else_some by exact Hf.
  rewrite gtb_false by lia.
  do 3 f_equal. lia.
Qed.

Lemma GET_handler_run (seen read : Z) (request : NextRequest) (w1 : World)
    (st : RateLimitStatus) (text : string) :
  obs (getRateLimitStatus seen request None w1) = (Returned st, w1) →
  Date_toISOString (resetAt st) w1 = mkRun (Returned text) w1 [] →
  obs ((status ← getRateLimitStatus seen request None;
        resetAtText ← Date_toISOString (resetAt status);
        mret (successResponse
                (VObject
                   [ ("rateLimit",
                       VObject
                         [ ("limit", VNum (limit status));
                           ("remaining", VNum (remaining status));
                           ("resetAt", VStr resetAtText);
                           ("resetInSeconds",
                             VNum (ceil_div (resetAt status - read) 1000)) ]);
                     ("message", VStr "Rate limit status retrieved successfully") ])
                (Some "Rate limit info") 200 None)) w1)
  = (Returned (answer_of st text read), w1).
Proof.
  intros Hstatus Htext.
  rewrite obs_bind.
  pose proof (f_equal fst Hstatus) as Ho. pose proof (f_equal snd Hstatus) as Hw.
  unfold obs in Ho, Hw. cbn [fst snd] in Ho, Hw. rewrite Ho, Hw.
  cbv beta. rewrite obs_bind.
  rewrite Htext. reflexivity.
Qed.

Lemma answer_of_reported (st : RateLimitStatus) (text : string) (read : Z) :
  status (answer_of st text read) = 200 ∧
  reported "limit" (answer_of st text read) = Some (VNum (limit st)) ∧
  reported "remaining" (answer_of st text read) = Some (VNum (remaining st)) ∧
  reported "resetInSeconds" (answer_of st text read)
  = Some (VNum (ceil_div (resetAt st - read) 1000)).
Proof. by repeat split. Qed.

Lemma GET_run (now later seen read : Z) (request : NextRequest) (w : World)
    (c f : Z) :
  healthy w →
  limited (env w) None request = true →
  counter_at now (env_config (env w))
    (fetched w (rate_key (env_config (env w)) (getClientIdentifier request)))
  = (c, f) →
  0 ≤ c < maxRequests (env_config (env w)) →
  f ≠ 0 →
  seen ≤ f + windowSeconds (env_config (env w)) * 1000 →
  -8640000000000000 ≤ f + windowSeconds (env_config (env w)) * 1000
  ≤ 8640000000000000 →
  ∃ text,
    obs (GET now later seen read request w)
    = (Returned
         (addRateLimitHeaders
            (answer_of
               (mkRateLimitStatus (c + 1 <? maxRequests (env_config (env w)))
                  (maxRequests (env_config (env w)) - (c + 1))
                  (f + windowSeconds (env_config (env w)) * 1000)
                  (maxRequests (env_config (env w))))
               text read)
            (mkRateLimitStatus true (maxRequests (env_config (env w)) - (c + 1))
               (f + windowSeconds (env_config (env w)) * 1000)
               (maxRequests (env_config (env w))))),
       written (rate_key (env_config (env w)) (getClientIdentifier request))
         (JSON_stringify (c + 1) f) (Some (windowSeconds (env_config (env w)))) w).
Proof.
  intros Hhealthy Hlim Hcf Hc Hf Hseen Hrange.
  pose proof Hhealthy as (Hav & Hget & Hput).
  remember (env_config (env w)) as config eqn:Hconfig.
  remember (rate_key config (getClientIdentifier request)) as key eqn:Hkey.
  pose proof (checkRateLimit_run now (getClientIdentifier request) config w Hav)
    as Hcheck.
  cbv zeta in Hcheck. rewrite <- Hkey, Hcf in Hcheck.
  rewrite status_of_allowed, world_after_allowed in Hcheck by (auto; lia).
  remember (written key (JSON_stringify (c + 1) f) (Some (windowSeconds config)) w)
    as w1 eqn:Hw1.
  apply obs_returned in Hcheck as [Hret Hworld].
  pose proof (seen_after_check seen request w c f Hhealthy) as Hstatus.
  cbv zeta in Hstatus. rewrite <- Hconfig, <- Hkey, <- Hw1 in Hstatus.
  specialize (Hstatus Hf Hc Hseen).
  destruct (Date_toISOString_run _ w1 Hrange) as [text Htext].
  pose proof (GET_handler_run seen read request w1 _ text Hstatus Htext)
    as Hhandler.
  pose proof (f_equal fst Hhandler) as Ho. pose proof (f_equal snd Hhandler) as Hw.
  unfold obs in Ho, Hw. cbn [fst snd] in Ho, Hw.
  exists text. unfold GET.
  rewrite (withRateLimit_run now later request _ None w _ Hlim
             ltac:(rewrite effective_config_none, <- Hconfig; exact Hret)).
  cbn [allowed]. rewrite effective_config_none, <- Hconfig.
  rewrite Hworld, Ho, Hw. reflexivity.
Qed.

(** X27. The route [GET /api/rate-limit] reports in its body what it
    sets in its headers. In a healthy world, for a request the limiter
    admits, with a non-negative count on record in a window that is still
    open when the handler looks, the answer is a 200 whose
    [rateLimit.limit] and [rateLimit.remaining] are the numbers of
    [X-RateLimit-Limit] and [X-RateLimit-Remaining]: the request itself is
    counted in both. [resetInSeconds] is counted from the end of the
    window the headers name, and the store holds the count with this
    request in it. *)
Theorem GET_reports_its_headers (now later seen read : Z) (request : NextRequest)
    (w : World) :
  healthy w →
  limited (env w) None request = true →
  let config := env_config (env w) in
  let key := rate_key config (getClientIdentifier request) in
  let cf := counter_at now config (fetched w key) in
  let windowEnd := cf.2 + windowSeconds config * 1000 in
  0 ≤ cf.1 < maxRequests config →
  cf.2 ≠ 0 →
  seen ≤ windowEnd →
  -8640000000000000 ≤ windowEnd ≤ 8640000000000000 →
  ∃ r,
    returned (GET now later seen read request w) = Some r ∧
    status r = 200 ∧
    headers_get (headers r) "X-RateLimit-Limit"
    = Some (String_of (maxRequests config)) ∧
    reported "limit" r = Some (VNum (maxRequests config)) ∧
    headers_get (headers r) "X-RateLimit-Remaining"
    = Some (String_of (maxRequests config - (cf.1 + 1))) ∧
    reported "remaining" r = Some (VNum (maxRequests config - (cf.1 + 1))) ∧
    headers_get (headers r) "X-RateLimit-Reset"
    = Some (String_of (floor_div windowEnd 1000)) ∧
    reported "resetInSeconds" r = Some (VNum (ceil_div (windowEnd - read) 1000)) ∧
    stored (world (GET now later seen read request w)) key
    = Some (TextRecord (Some (cf.1 + 1)) (Some cf.2)).
Proof.
  intros Hhealthy Hlim config key cf windowEnd Hc Hf Hseen Hrange.
  destruct (GET_run now later seen read request w cf.1 cf.2 Hhealthy Hlim
              (surjective_pairing _) Hc Hf Hseen Hrange) as [text Hrun].
  apply obs_returned in Hrun as [Hr Hwr].
  eexists. split; [exact Hr|].
  rewrite Hwr.
  match goal with
  | |- context [addRateLimitHeaders ?a ?s] =>
      pose proof (addRateLimitHeaders_get a s) as (Hs & Hb & Hl & Hrem & Hreset);
      pose proof (answer_of_reported
                    (mkRateLimitStatus (cf.1 + 1 <? maxRequests config)
                       (maxRequests config - (cf.1 + 1)) windowEnd
                       (maxRequests config)) text read) as (As & Al & Ar & Ai)
  end.
  cbn [limit remaining resetAt] in Hl, Hrem, Hreset, Al, Ar, Ai.
  unfold reported in *. rewrite Hs, Hb, Hl, Hrem, Hreset.
  split; [exact As|]. split; [reflexivity|]. split; [exact Al|].
  split; [reflexivity|]. split; [exact Ar|]. split; [reflexivity|].
  split; [exact Ai|].
  apply stored_written.
Qed.

Lemma GET_reports_its_headers_witness :
  ∃ r,
    returned (GET 1000 1000 1001 1002 Scenario.request Scenario.fresh) = Some r ∧
    headers_get (headers r) "X-RateLimit-Remaining" = Some "299" ∧
    reported "remaining" r = Some (VNum 299).
Proof.
  destruct (GET_reports_its_headers 1000 1000 1001 1002 Scenario.request
              Scenario.fresh
              ltac:(vm_compute; auto) ltac:(vm_compute; reflexivity)
              ltac:(vm_compute; split; congruence)
              ltac:(vm_compute; congruence)
              ltac:(vm_compute; congruence)
              ltac:(vm_compute; split; congruence))
    as (r & Hr & _ & _ & _ & Hh & Hb & _).
  exists r. split; [exact Hr|]. split; [exact Hh|exact Hb].
Defined.

(** ** A handler that fails *)

(** X28. A request whose handler throws is counted all the same. When
    the limiter admits a request in a healthy world, the count is written
    before the handler runs; if the handler then throws, [withRateLimit]
    throws the same value, and the world is the one the handler left, in
    which it found the count with this request in it. *)
Theorem failed_handler_is_counted (now later : Z) (request : NextRequest)
    (handler : M NextResponse) (custom : option PartialConfig) (w : World)
    (e : Thrown) :
  healthy w →
  limited (env w) custom request = true →
  let config := effective_config (env w) custom in
  let key := rate_key config (getClientIdentifier request) in
  let cf := counter_at now config (fetched w key) in
  let counted_in := written key (JSON_stringify (cf.1 + 1) cf.2)
                      (Some (windowSeconds config)) w in
  cf.1 < maxRequests config →
  threw (handler counted_in) = Some e →
  threw (withRateLimit now later request handler custom w) = Some e ∧
  world (withRateLimit now later request handler custom w)
  = world (handler counted_in) ∧
  stored counted_in key = Some (TextRecord (Some (cf.1 + 1)) (Some cf.2)).
Proof.
  intros (Hav & Hget & Hput) Hlim config key cf counted_in Hc Hthrew.
  pose proof (checkRateLimit_run now (getClientIdentifier request) config w Hav)
    as Hcheck.
  cbv zeta in Hcheck. fold key in Hcheck. fold cf in Hcheck.
  assert (allowed (status_of config cf) = true) as Hallowed.
  { unfold status_of. by rewrite geb_false by lia. }
  assert (world_after config key cf w = counted_in) as Hw1.
  { unfold world_after. by rewrite geb_false, Hput by lia. }
  rewrite Hw1 in Hcheck. apply obs_returned in Hcheck as [Hret Hworld].
  pose proof (withRateLimit_run now later request handler custom w _ Hlim Hret)
    as Hrun.
  cbv zeta in Hrun. rewrite Hallowed in Hrun.
  fold config in Hrun. rewrite Hworld in Hrun.
  unfold threw in Hthrew.
  destruct (outcome (handler counted_in)) as [|e'] eqn:Hout; [discriminate|].
  injection Hthrew as ->.
  pose proof (f_equal fst Hrun) as Ho. pose proof (f_equal snd Hrun) as Hw.
  unfold obs in Ho, Hw. cbn [fst snd] in Ho, Hw.
  unfold threw. rewrite Ho.
  split; [reflexivity|]. split; [exact Hw|].
  unfold counted_in. apply stored_written.
Qed.

Lemma failed_handler_is_counted_witness :
  threw (withRateLimit 1000 1000 Scenario.request Scenario.failing
           (Some Scenario.overrides) Scenario.fresh)
  = Some (ThrownApp Scenario.invalid_id).
Proof.
  destruct (failed_handler_is_counted 1000 1000 Scenario.request Scenario.failing
              (Some Scenario.overrides) Scenario.fresh
              (ThrownApp Scenario.invalid_id)
              ltac:(vm_compute; auto) ltac:(vm_compute; reflexivity)
              ltac:(vm_compute; reflexivity) ltac:(vm_compute; reflexivity))
    as (H & _).
  exact H.
Defined.
